(** * APIBench: the HTTP load generator and its statistics finalizer

    A shallow embedding of [runHttpBenchmark] (src/extension.ts, lines
    172-276) and of the properties its specification states.

    Modelling choices.
    - JavaScript numbers.  Every quantity the engine manipulates is an
      integer (millisecond clock readings, counters, status codes) or
      the quotient of two integers.  Integers are [Z], quotients are
      exact rationals [Q]; a division whose divisor may be zero returns
      a [number], which adds [NaN] and the two infinities.  Rounding of
      IEEE doubles and the sign of zero are not modelled.
    - The wall clock.  [Date.now()] and [new Date()] are reads of an
      oracle [clock : nat -> Z]; the world counts the reads made so far,
      so two consecutive reads may or may not return the same value.
    - The event loop.  Node runs each callback to completion; [run]
      folds the callbacks over a list of events, and nothing forces an
      event to occur.
    - The HTTP module.  [httpModule.request] checks its options when it
      is called and throws on options it refuses (a method or a header
      name that is no HTTP token, a path with a blank); whether it
      throws depends on the module and the options only.  A request it
      has accepted is open until the module closes it.  A response read
      to its end and an 'error' close the request after their listener
      has run.  A 'timeout' does not: its listener destroys the request
      ([req.destroy()], line 233), and the module then reports the
      destroyed socket as an 'error' of the same request, so that the
      'error' listener runs for it as well, unless the response had
      begun.  A response that is cut off after its headers closes the
      request without any of the three listeners running.
    - The promise.  [resolve] settles a pending promise and is ignored
      afterwards; an exception thrown by the executor rejects it, if it
      is still pending. *)

From Stdlib Require Import Ascii String.
From Stdlib Require Import ZArith QArith Qround List Lia Bool.
From Stdlib Require Import Permutation Sorted.
Import ListNotations.
Open Scope Z_scope.

(** ** Numbers *)

Inductive number : Type :=
| Fin (q : Q)
| NaN
| PosInf
| NegInf.

(** [a / b] on finite operands. *)
Definition js_div (a b : Q) : number :=
  if Qeq_bool b 0 then
    if Qeq_bool a 0 then NaN
    else if Qle_bool 0 a then PosInf else NegInf
  else Fin (a / b).

(** [x * k] for a finite [k]. *)
Definition js_mul (x : number) (k : Q) : number :=
  match x with
  | Fin q => Fin (q * k)
  | NaN => NaN
  | PosInf =>
      if Qeq_bool k 0 then NaN else if Qle_bool 0 k then PosInf else NegInf
  | NegInf =>
      if Qeq_bool k 0 then NaN else if Qle_bool 0 k then NegInf else PosInf
  end.

(** [Math.min(k, x)] for a finite [k]. *)
Definition Math_min (k : Q) (x : number) : number :=
  match x with
  | Fin q => Fin (if Qle_bool k q then k else q)
  | NaN => NaN
  | PosInf => Fin k
  | NegInf => NegInf
  end.

(** [Math.ceil]. *)
Definition Math_ceil (q : Q) : Z := Qceiling q.

(** ** Arrays of latencies *)

(** [a[i]]: [None] stands for [undefined]. *)
Definition array_get (a : list Z) (i : Z) : option Z :=
  if i <? 0 then None else nth_error a (Z.to_nat i).

(** [latencies.sort((a, b) => a - b)]: ascending numeric order.  The
    sorted arrangement of a list of integers is unique
    ([sort_permutation] below), so insertion sort returns the array the
    engine's sort returns. *)
Fixpoint insert (x : Z) (l : list Z) : list Z :=
  match l with
  | [] => [x]
  | y :: l' => if x <=? y then x :: l else y :: insert x l'
  end.

Fixpoint sort (l : list Z) : list Z :=
  match l with
  | [] => []
  | x :: l' => insert x (sort l')
  end.

(** [latencies.reduce((a, b) => a + b, 0)]. *)
Definition sum (l : list Z) : Z := fold_left Z.add l 0.

(** The closure [percentile] of [finalize] (lines 247-251), with the
    array it reads made an argument. *)
Definition percentile (latencies : list Z) (p : Q) : option Z :=
  if (length latencies =? 0)%nat then Some 0
  else
    let index := Math_ceil (inject_Z (Z.of_nat (length latencies)) * p) - 1 in
    array_get latencies (Z.max 0 index).

(** The index [percentile] reads in an array of [n] elements. *)
Definition rank (n : nat) (p : Q) : Z :=
  Z.max 0 (Math_ceil (inject_Z (Z.of_nat n) * p) - 1).

(** ** Records *)

Module BenchmarkOptions.
Record t : Type := {
  url : string;
  method : string;
  duration : Z;
  connections : Z;
  headers : option (list (string * string));
  body : option string
}.
End BenchmarkOptions.

Module BenchmarkResult.
Record t : Type := {
  url : string;
  method : string;
  timestamp : Z;
  duration : Q;
  totalRequests : Z;
  successfulRequests : Z;
  failedRequests : Z;
  requestsPerSecond : number;
  avgLatency : Q;
  minLatency : Z;
  maxLatency : Z;
  p50 : option Z;
  p95 : option Z;
  p99 : option Z
}.
End BenchmarkResult.

(** The fields of [new URL(options.url)] the engine reads. *)
Module URLRecord.
Record t : Type := {
  protocol : string;
  hostname : string;
  port : string;
  pathname : string;
  search : string
}.
End URLRecord.

(** The object [reqOptions] of lines 199-206. *)
Module RequestOptions.
Record t : Type := {
  hostname : string;
  port : string;
  path : string;
  method : string;
  headers : list (string * string);
  timeout : Z
}.
End RequestOptions.

(** A request the HTTP module has accepted and not yet closed: what it
    was created with, the [reqStart] its callbacks captured, the body
    written to it, and whether [req.destroy()] has been called. *)
Record ClientRequest : Type := {
  request_id : nat;
  req_start : Z;
  req_options : RequestOptions.t;
  secure : bool;
  written : option string;
  destroyed : bool
}.

Inductive Promise : Type :=
| Pending
| Fulfilled (r : BenchmarkResult.t)
| Rejected.

(** The variables captured by the closures of one run, then the part of
    the environment the run interacts with. *)
Record World : Type := {
  latencies : list Z;
  successCount : Z;
  failCount : Z;
  activeConnections : Z;
  promise : Promise;
  (** number of clock reads made so far *)
  clock_reads : nat;
  (** requests the HTTP module has not closed, latest first *)
  in_flight : list ClientRequest;
  (** number of requests [httpModule.request] has accepted *)
  issued : nat;
  (** arguments of the calls to [onProgress], latest first *)
  reported : list number
}.

Definition initial : World :=
  {| latencies := []; successCount := 0; failCount := 0;
     activeConnections := 0; promise := Pending; clock_reads := 0;
     in_flight := []; issued := 0; reported := [] |}.

(** ** A state and exception monad over the world *)

(** A computation changes the world and returns a value, or throws:
    [None] stands for an exception, which ends the computation. *)
Definition M (A : Type) : Type := World -> option A * World.

Definition ret {A} (a : A) : M A := fun w => (Some a, w).

Definition throw {A} : M A := fun w => (None, w).

Definition bind {A B} (c : M A) (k : A -> M B) : M B :=
  fun w =>
    match c w with
    | (Some a, w') => k a w'
    | (None, w') => (None, w')
    end.

Declare Scope engine_scope.
Delimit Scope engine_scope with engine.
Notation "x <- c ;; k" := (bind c (fun x => k))
  (at level 61, c at next level, right associativity) : engine_scope.
Notation "c ;; k" := (bind c (fun _ => k))
  (at level 61, right associativity) : engine_scope.

Definition read {A} (f : World -> A) : M A := fun w => (Some (f w), w).
Definition update (f : World -> World) : M unit := fun w => (Some tt, f w).

(** The world a computation leaves, whether it returns or throws. *)
Definition exec {A} (c : M A) (w : World) : World := snd (c w).

Definition throws {A} (c : M A) (w : World) : bool :=
  match fst (c w) with
  | Some _ => false
  | None => true
  end.

Definition with_latencies (f : list Z -> list Z) (w : World) : World :=
  {| latencies := f (latencies w); successCount := successCount w;
     failCount := failCount w; activeConnections := activeConnections w;
     promise := promise w; clock_reads := clock_reads w;
     in_flight := in_flight w; issued := issued w; reported := reported w |}.

Definition with_successCount (f : Z -> Z) (w : World) : World :=
  {| latencies := latencies w; successCount := f (successCount w);
     failCount := failCount w; activeConnections := activeConnections w;
     promise := promise w; clock_reads := clock_reads w;
     in_flight := in_flight w; issued := issued w; reported := reported w |}.

Definition with_failCount (f : Z -> Z) (w : World) : World :=
  {| latencies := latencies w; successCount := successCount w;
     failCount := f (failCount w); activeConnections := activeConnections w;
     promise := promise w; clock_reads := clock_reads w;
     in_flight := in_flight w; issued := issued w; reported := reported w |}.

Definition with_activeConnections (f : Z -> Z) (w : World) : World :=
  {| latencies := latencies w; successCount := successCount w;
     failCount := failCount w; activeConnections := f (activeConnections w);
     promise := promise w; clock_reads := clock_reads w;
     in_flight := in_flight w; issued := issued w; reported := reported w |}.

Definition with_promise (p : Promise) (w : World) : World :=
  {| latencies := latencies w; successCount := successCount w;
     failCount := failCount w; activeConnections := activeConnections w;
     promise := p; clock_reads := clock_reads w;
     in_flight := in_flight w; issued := issued w; reported := reported w |}.

Definition tick (w : World) : World :=
  {| latencies := latencies w; successCount := successCount w;
     failCount := failCount w; activeConnections := activeConnections w;
     promise := promise w; clock_reads := S (clock_reads w);
     in_flight := in_flight w; issued := issued w; reported := reported w |}.

Definition with_in_flight (l : list ClientRequest) (w : World) : World :=
  {| latencies := latencies w; successCount := successCount w;
     failCount := failCount w; activeConnections := activeConnections w;
     promise := promise w; clock_reads := clock_reads w;
     in_flight := l; issued := issued w; reported := reported w |}.

(** [httpModule.request(reqOptions, ...)], when it accepts the options,
    followed by the optional [req.write] and by [req.end()]: one more
    request is open. *)
Definition send (reqStart : Z) (o : RequestOptions.t) (https : bool)
    (body : option string) (w : World) : World :=
  {| latencies := latencies w; successCount := successCount w;
     failCount := failCount w; activeConnections := activeConnections w;
     promise := promise w; clock_reads := clock_reads w;
     in_flight :=
       {| request_id := issued w; req_start := reqStart; req_options := o;
          secure := https; written := body; destroyed := false |}
       :: in_flight w;
     issued := S (issued w); reported := reported w |}.

Definition report (x : number) (w : World) : World :=
  {| latencies := latencies w; successCount := successCount w;
     failCount := failCount w; activeConnections := activeConnections w;
     promise := promise w; clock_reads := clock_reads w;
     in_flight := in_flight w; issued := issued w;
     reported := x :: reported w |}.

(** [req.destroy()] on the request [id]. *)
Definition destroyed_by (id : nat) (req : ClientRequest) : ClientRequest :=
  if (id =? request_id req)%nat
  then {| request_id := request_id req; req_start := req_start req;
          req_options := req_options req; secure := secure req;
          written := written req; destroyed := true |}
  else req.

Definition destroy (id : nat) (w : World) : World :=
  with_in_flight (map (destroyed_by id) (in_flight w)) w.

(** What the promise constructor does with an exception of its
    executor: it rejects the promise if it is still pending. *)
Definition reject (w : World) : World :=
  match promise w with
  | Pending => with_promise Rejected w
  | _ => w
  end.

(** [resolve(value)]: settles a pending promise, does nothing otherwise. *)
Definition resolve (r : BenchmarkResult.t) : M unit :=
  update (fun w =>
    match promise w with
    | Pending => with_promise (Fulfilled r) w
    | _ => w
    end).

(** The response classification of line 213:
    [res.statusCode && res.statusCode >= 200 && res.statusCode < 400]. *)
Definition status_ok (statusCode : option Z) : bool :=
  match statusCode with
  | None => false
  | Some c => negb (c =? 0) && (200 <=? c) && (c <? 400)
  end.

(** The object literal passed to [resolve] (lines 253-268), as a
    function of the values it reads; [latencies] is the array after the
    in-place sort of line 245. *)
Definition result_of (options : BenchmarkOptions.t) (actualDuration : Q)
    (date : Z) (latencies : list Z) (successCount failCount : Z)
  : BenchmarkResult.t :=
  {| BenchmarkResult.url := BenchmarkOptions.url options;
     BenchmarkResult.method := BenchmarkOptions.method options;
     BenchmarkResult.timestamp := date;
     BenchmarkResult.duration := actualDuration;
     BenchmarkResult.totalRequests := successCount + failCount;
     BenchmarkResult.successfulRequests := successCount;
     BenchmarkResult.failedRequests := failCount;
     BenchmarkResult.requestsPerSecond :=
       js_div (inject_Z (successCount + failCount)) actualDuration;
     BenchmarkResult.avgLatency :=
       if (0 <? length latencies)%nat
       then (inject_Z (sum latencies)
             / inject_Z (Z.of_nat (length latencies)))%Q
       else 0%Q;
     BenchmarkResult.minLatency :=
       if (0 <? length latencies)%nat then hd 0 latencies else 0;
     BenchmarkResult.maxLatency :=
       if (0 <? length latencies)%nat then last latencies 0 else 0;
     BenchmarkResult.p50 := percentile latencies (1 # 2);
     BenchmarkResult.p95 := percentile latencies (95 # 100);
     BenchmarkResult.p99 := percentile latencies (99 # 100) |}.

(** ** The engine *)

Section Engine.

(** The [n]-th reading of the wall clock, in milliseconds. *)
Variable clock : nat -> Z.

(** The check [http.request] ([https.request] when the flag is set)
    makes on its options when it is called: it throws when the check
    fails. *)
Variable request_ok : bool -> RequestOptions.t -> bool.

Variable options : BenchmarkOptions.t.

(** [const urlObj = new URL(options.url)]. *)
Variable urlObj : URLRecord.t.

(** [const startTime = Date.now()], captured by every closure. *)
Variable startTime : Z.

Local Open Scope engine_scope.

Definition Date_now : M Z :=
  fun w => (Some (clock (clock_reads w)), tick w).

Definition endTime : Z :=
  startTime + BenchmarkOptions.duration options * 1000.

Definition isHttps : bool :=
  String.eqb (URLRecord.protocol urlObj) "https:".

(** Lines 199-206; [x || y] is [y] when [x] is the empty string or
    [undefined]. *)
Definition reqOptions : RequestOptions.t :=
  {| RequestOptions.hostname := URLRecord.hostname urlObj;
     RequestOptions.port :=
       if String.eqb (URLRecord.port urlObj) EmptyString
       then (if isHttps then "443" else "80")%string
       else URLRecord.port urlObj;
     RequestOptions.path :=
       (URLRecord.pathname urlObj ++ URLRecord.search urlObj)%string;
     RequestOptions.method := BenchmarkOptions.method options;
     RequestOptions.headers :=
       match BenchmarkOptions.headers options with
       | Some h => h
       | None => []
       end;
     RequestOptions.timeout := 30000 |}.

(** Lines 237-239: the body is written when [options.body] is truthy. *)
Definition request_body : option string :=
  match BenchmarkOptions.body options with
  | Some b => if String.eqb b EmptyString then None else Some b
  | None => None
  end.

(** Lines 243-269. *)
Definition finalize : M unit :=
  now <- Date_now ;;
  let actualDuration := (inject_Z (now - startTime) / 1000)%Q in
  update (with_latencies sort) ;;
  date <- Date_now ;;
  sorted <- read latencies ;;
  successes <- read successCount ;;
  failures <- read failCount ;;
  resolve (result_of options actualDuration date sorted successes failures).

(** Lines 188-241.  The three callbacks of the request capture
    [reqStart]; when [httpModule.request] throws, the counter has been
    incremented and the clock read. *)
Definition makeRequest : M unit :=
  now <- Date_now ;;
  if endTime <=? now then
    active <- read activeConnections ;;
    if active =? 0 then finalize else ret tt
  else
    update (with_activeConnections Z.succ) ;;
    reqStart <- Date_now ;;
    if request_ok isHttps reqOptions
    then update (send reqStart reqOptions isHttps request_body)
    else throw.

(** Lines 210-221: the response has been read to its end. *)
Definition on_end (reqStart : Z) (statusCode : option Z) : M unit :=
  now <- Date_now ;;
  let latency := now - reqStart in
  update (with_latencies (fun l => l ++ [latency])) ;;
  (if status_ok statusCode
   then update (with_successCount Z.succ)
   else update (with_failCount Z.succ)) ;;
  update (with_activeConnections Z.pred) ;;
  now' <- Date_now ;;
  update (report
    (Math_min 100
      (js_mul
        (js_div (inject_Z (now' - startTime))
                (inject_Z (BenchmarkOptions.duration options * 1000)))
        100))) ;;
  makeRequest.

(** Lines 224-228. *)
Definition on_error : M unit :=
  update (with_failCount Z.succ) ;;
  update (with_activeConnections Z.pred) ;;
  makeRequest.

(** Lines 230-235, in the closure of the request [id]. *)
Definition on_timeout (id : nat) : M unit :=
  update (with_failCount Z.succ) ;;
  update (with_activeConnections Z.pred) ;;
  update (destroy id) ;;
  makeRequest.

(** Lines 272-274. *)
Fixpoint start_connections (n : nat) : M unit :=
  match n with
  | O => ret tt
  | S n' => makeRequest ;; start_connections n'
  end.

End Engine.

(** ** The environment: what the HTTP module does with a request *)

(** [ResponseEnd], [RequestError] and [RequestTimeout] are the events
    'end' (of the response), 'error' and 'timeout', for which the
    request has a listener; the module emits 'timeout' once the
    [timeout] of the request's options has elapsed.  [ResponseAborted]
    is a response cut off after its headers: the request is closed and
    none of its listeners runs. *)
Inductive Event : Type :=
| ResponseEnd (id : nat) (statusCode : option Z)
| RequestError (id : nat)
| RequestTimeout (id : nat)
| ResponseAborted (id : nat).

Definition event_id (e : Event) : nat :=
  match e with
  | ResponseEnd id _ => id
  | RequestError id => id
  | RequestTimeout id => id
  | ResponseAborted id => id
  end.

(** The event runs a listener of the request. *)
Definition is_callback (e : Event) : bool :=
  match e with
  | ResponseAborted _ => false
  | _ => true
  end.

(** A response that was read to its end carries a latency; an error or
    a timeout does not. *)
Definition is_timed (e : Event) : bool :=
  match e with
  | ResponseEnd _ _ => true
  | _ => false
  end.

(** The event closes the request.  A 'timeout' leaves it open: its
    listener destroys it, and the module closes it afterwards. *)
Definition closes (e : Event) : bool :=
  match e with
  | RequestTimeout _ => false
  | _ => true
  end.

(** What the module can do with an open request: a destroyed request
    gets no response and no second 'timeout', but it can get the
    'error' that reports its destroyed socket, or be closed silently
    when its response had begun. *)
Definition deliverable (e : Event) (req : ClientRequest) : bool :=
  match e with
  | ResponseEnd _ _ => negb (destroyed req)
  | RequestTimeout _ => negb (destroyed req)
  | RequestError _ => true
  | ResponseAborted _ => true
  end.

Fixpoint take (id : nat) (l : list ClientRequest)
  : option (ClientRequest * list ClientRequest) :=
  match l with
  | [] => None
  | req :: l' =>
      if (id =? request_id req)%nat then Some (req, l')
      else
        match take id l' with
        | Some (found, rest) => Some (found, req :: rest)
        | None => None
        end
  end.

(** The listener the event runs, if any. *)
Definition handler (clock : nat -> Z)
    (request_ok : bool -> RequestOptions.t -> bool)
    (options : BenchmarkOptions.t) (urlObj : URLRecord.t) (startTime : Z)
    (e : Event) (reqStart : Z) : M unit :=
  match e with
  | ResponseEnd _ statusCode =>
      on_end clock request_ok options urlObj startTime reqStart statusCode
  | RequestError _ => on_error clock request_ok options urlObj startTime
  | RequestTimeout id => on_timeout clock request_ok options urlObj startTime id
  | ResponseAborted _ => ret tt
  end.

(** One event.  [None]: the event names no open request, or one the
    module cannot do this with, so the environment cannot produce it.
    An exception of a listener would end the listener where it is
    thrown ([exec]); [listeners_return] shows that there is none. *)
Definition deliver (clock : nat -> Z)
    (request_ok : bool -> RequestOptions.t -> bool)
    (options : BenchmarkOptions.t) (urlObj : URLRecord.t) (startTime : Z)
    (e : Event) (w : World) : option World :=
  match take (event_id e) (in_flight w) with
  | None => None
  | Some (req, rest) =>
      if deliverable e req then
        Some (exec (handler clock request_ok options urlObj startTime e
                      (req_start req))
                   (if closes e then with_in_flight rest w else w))
      else None
  end.

Fixpoint run (clock : nat -> Z)
    (request_ok : bool -> RequestOptions.t -> bool)
    (options : BenchmarkOptions.t) (urlObj : URLRecord.t) (startTime : Z)
    (events : list Event) (w : World) : option World :=
  match events with
  | [] => Some w
  | e :: events' =>
      match deliver clock request_ok options urlObj startTime e w with
      | None => None
      | Some w' => run clock request_ok options urlObj startTime events' w'
      end
  end.

(** ** The entry point *)

Section EntryPoint.

Variable clock : nat -> Z.

(** The URL parser of the platform; [None] when [new URL] throws. *)
Variable URL : string -> option URLRecord.t.

Variable request_ok : bool -> RequestOptions.t -> bool.

Variable options : BenchmarkOptions.t.

Local Open Scope engine_scope.

(** The executor of the promise (lines 176-275). *)
Definition executor : M unit :=
  startTime <- Date_now clock ;;
  match URL (BenchmarkOptions.url options) with
  | None => throw
  | Some urlObj =>
      start_connections clock request_ok options urlObj startTime
        (Z.to_nat (BenchmarkOptions.connections options))
  end.

(** [new Promise(executor)]: the world when the constructor returns. *)
Definition runHttpBenchmark : World :=
  match executor initial with
  | (Some _, w) => w
  | (None, w) => reject w
  end.

(** The run after the events [events].  When the URL did not parse no
    request exists, so no event can occur. *)
Definition benchmark (events : list Event) : option World :=
  match URL (BenchmarkOptions.url options) with
  | Some urlObj =>
      run clock request_ok options urlObj (clock 0%nat) events runHttpBenchmark
  | None =>
      match events with
      | [] => Some runHttpBenchmark
      | _ :: _ => None
      end
  end.

End EntryPoint.

(** ** The three outcomes of a request, in the words of the specification *)

Inductive Outcome : Type :=
| TimedSuccess
| TimedFailure
| UntimedFailure.

(** A response whose status code lies in [200, 400) is a timed success,
    any other response a timed failure; a transport error and a timeout
    are untimed failures.  A response that is cut off runs no listener
    and has no outcome. *)
Definition classify (e : Event) : option Outcome :=
  match e with
  | ResponseEnd _ (Some c) =>
      if (200 <=? c) && (c <? 400) then Some TimedSuccess
      else Some TimedFailure
  | ResponseEnd _ None => Some TimedFailure
  | RequestError _ => Some UntimedFailure
  | RequestTimeout _ => Some UntimedFailure
  | ResponseAborted _ => None
  end.

(** ** Vocabulary of the proofs *)

(** The value [finalize] passes to [resolve] when its first clock read
    has index [k]. *)
Definition result_at (clock : nat -> Z) (options : BenchmarkOptions.t)
    (startTime : Z) (k : nat) (w : World) : BenchmarkResult.t :=
  result_of options (inject_Z (clock k - startTime) / 1000)%Q
    (clock (S k)) (sort (latencies w)) (successCount w) (failCount w).

(** The argument of [onProgress] when the clock read that computes it
    returns [now]. *)
Definition progress_value (options : BenchmarkOptions.t) (startTime now : Z)
  : number :=
  Math_min 100
    (js_mul
      (js_div (inject_Z (now - startTime))
              (inject_Z (BenchmarkOptions.duration options * 1000)))
      100).

(** What the 'end' callback has done when it calls [makeRequest]. *)
Definition committed_end (clock : nat -> Z) (options : BenchmarkOptions.t)
    (startTime reqStart : Z) (statusCode : option Z) (w : World) : World :=
  let latency := clock (clock_reads w) - reqStart in
  let w1 := with_latencies (fun l => l ++ [latency]) (tick w) in
  let w2 := if status_ok statusCode
            then with_successCount Z.succ w1
            else with_failCount Z.succ w1 in
  let w3 := tick (with_activeConnections Z.pred w2) in
  report (progress_value options startTime (clock (S (clock_reads w)))) w3.

(** What the 'error' callback has done by then. *)
Definition committed_failure (w : World) : World :=
  with_activeConnections Z.pred (with_failCount Z.succ w).

(** What the listener of [e] has done when it calls [makeRequest]; the
    'timeout' listener has destroyed its request. *)
Definition committed (clock : nat -> Z) (options : BenchmarkOptions.t)
    (startTime : Z) (e : Event) (reqStart : Z) (w : World) : World :=
  match e with
  | ResponseEnd _ statusCode =>
      committed_end clock options startTime reqStart statusCode w
  | RequestError _ => committed_failure w
  | RequestTimeout id => destroy id (committed_failure w)
  | ResponseAborted _ => w
  end.

(** The world in which the listener of [e] starts: the request has been
    closed, unless [e] is a 'timeout'. *)
Definition detach (e : Event) (rest : list ClientRequest) (w : World)
  : World :=
  if closes e then with_in_flight rest w else w.

(** [w] is a state in which the promise is fulfilled with the record
    [r] that a call of [finalize] built from the present counters and
    array; [k] is the index of the clock read of the deadline check
    that led to this call. *)
Definition resolved_at (clock : nat -> Z) (options : BenchmarkOptions.t)
    (startTime : Z) (k : nat) (w : World) (r : BenchmarkResult.t) : Prop :=
  promise w = Fulfilled r /\
  endTime options startTime <= clock k /\
  (S (S k) < clock_reads w)%nat /\
  StronglySorted Z.le (latencies w) /\
  r = result_of options (inject_Z (clock (S k) - startTime) / 1000)%Q
        (clock (S (S k))) (latencies w) (successCount w) (failCount w).

(** What [makeRequest] leaves as it found it. *)
Definition same_samples (w w' : World) : Prop :=
  successCount w' = successCount w /\
  failCount w' = failCount w /\
  Permutation (latencies w') (latencies w) /\
  reported w' = reported w.

(** Every open request was created by [makeRequest]. *)
Definition requests_from (options : BenchmarkOptions.t)
    (urlObj : URLRecord.t) (w : World) : Prop :=
  Forall (fun req =>
            req_options req = reqOptions options urlObj /\
            secure req = isHttps urlObj /\
            written req = request_body options)
         (in_flight w).

(** The open requests carry different numbers, all below the number of
    requests accepted so far. *)
Definition numbered (w : World) : Prop :=
  NoDup (map request_id (in_flight w)) /\
  Forall (fun req => (request_id req < issued w)%nat) (in_flight w).

(** Every clock read from the state [w] on finds the deadline passed. *)
Definition deadline_passed (clock : nat -> Z) (options : BenchmarkOptions.t)
    (startTime : Z) (w : World) : Prop :=
  forall i : nat,
    (clock_reads w <= i)%nat -> endTime options startTime <= clock i.

Definition timed_count (events : list Event) : nat :=
  length (filter is_timed events).

(** The events that ran a listener. *)
Definition callback_count (events : list Event) : nat :=
  length (filter is_callback events).

Definition is_timeout (e : Event) : bool :=
  match e with
  | RequestTimeout _ => true
  | _ => false
  end.

Definition timeout_count (events : list Event) : nat :=
  length (filter is_timeout events).

Definition aborted_count (events : list Event) : nat :=
  length (filter (fun e => negb (is_callback e)) events).

(** ** Sample runs *)

Definition demo_options : BenchmarkOptions.t :=
  {| BenchmarkOptions.url := "http://localhost:8080/health";
     BenchmarkOptions.method := "GET";
     BenchmarkOptions.duration := 3;
     BenchmarkOptions.connections := 2;
     BenchmarkOptions.headers := None;
     BenchmarkOptions.body := None |}.

Definition demo_urlObj : URLRecord.t :=
  {| URLRecord.protocol := "http:";
     URLRecord.hostname := "localhost";
     URLRecord.port := "8080";
     URLRecord.pathname := "/health";
     URLRecord.search := EmptyString |}.

(** [s] cut before its first character that satisfies [stop]. *)
Fixpoint break (stop : ascii -> bool) (s : string) : string * string :=
  match s with
  | EmptyString => (EmptyString, EmptyString)
  | String c s' =>
      if stop c then (EmptyString, s)
      else let (before, rest) := break stop s' in (String c before, rest)
  end.

Fixpoint all_chars (p : ascii -> bool) (s : string) : bool :=
  match s with
  | EmptyString => true
  | String c s' => p c && all_chars p s'
  end.

Fixpoint drop_slashes (s : string) : string :=
  match s with
  | String c s' => if Ascii.eqb c "/" then drop_slashes s' else s
  | EmptyString => EmptyString
  end.

Definition letter (c : ascii) : bool :=
  let n := nat_of_ascii c in
  (((97 <=? n) && (n <=? 122)) || ((65 <=? n) && (n <=? 90)))%nat.

Definition digit (c : ascii) : bool :=
  let n := nat_of_ascii c in ((48 <=? n) && (n <=? 57))%nat.

Definition scheme_ok (s : string) : bool :=
  match s with
  | EmptyString => false
  | String c s' =>
      letter c &&
      all_chars (fun x => letter x || digit x || Ascii.eqb x "+"
                          || Ascii.eqb x "-" || Ascii.eqb x ".") s'
  end.

Definition special (scheme : string) : bool :=
  String.eqb scheme "http" || String.eqb scheme "https".

(** A stand-in for the platform's parser, for the sample runs; the
    theorems are stated for any parser.  Like [new URL] without a base
    it refuses a string that does not start with a scheme and a colon,
    and an [http] or [https] URL without a host; it splits
    [scheme://host:port/path?query#fragment], drops the default port
    and gives [http] and [https] URLs the path [/] when they have
    none.  It does not normalise or percent-encode. *)
Definition demo_URL (s : string) : option URLRecord.t :=
  let (scheme, rest) := break (Ascii.eqb ":") s in
  match rest with
  | EmptyString => None
  | String _ after =>
      if scheme_ok scheme then
        let (body, _) := break (Ascii.eqb "#") after in
        let (hier, query) := break (Ascii.eqb "?") body in
        let search := if String.eqb query "?" then EmptyString else query in
        if special scheme || String.prefix "//" hier then
          let (authority, path) := break (Ascii.eqb "/") (drop_slashes hier) in
          let (host, colon_port) := break (Ascii.eqb ":") authority in
          let port := match colon_port with
                      | String _ p => p
                      | EmptyString => EmptyString
                      end in
          if (special scheme && String.eqb host EmptyString)
             || negb (all_chars digit port)
             || negb (all_chars (fun c => (32 <? nat_of_ascii c)%nat) host)
          then None
          else
            Some {| URLRecord.protocol := (scheme ++ ":")%string;
                    URLRecord.hostname := host;
                    URLRecord.port :=
                      if (String.eqb scheme "http" && String.eqb port "80")
                         || (String.eqb scheme "https" && String.eqb port "443")
                      then EmptyString else port;
                    URLRecord.pathname :=
                      if special scheme && String.eqb path EmptyString
                      then "/"%string else path;
                    URLRecord.search := search |}
        else
          Some {| URLRecord.protocol := (scheme ++ ":")%string;
                  URLRecord.hostname := EmptyString;
                  URLRecord.port := EmptyString;
                  URLRecord.pathname := hier;
                  URLRecord.search := search |}
      else None
  end.

(** The characters of an HTTP token. *)
Definition tchar (c : ascii) : bool :=
  letter c || digit c
  || existsb (Ascii.eqb c) (list_ascii_of_string "!#$%&'*+-.^_`|~").

Definition token (s : string) : bool :=
  negb (String.eqb s EmptyString) && all_chars tchar s.

(** A stand-in for the checks of [http.request], for the sample runs:
    the method is empty or a token, every header name is a token, and
    the path has no blank or control character. *)
Definition demo_request_ok (https : bool) (o : RequestOptions.t) : bool :=
  (String.eqb (RequestOptions.method o) EmptyString
   || token (RequestOptions.method o))
  && forallb (fun h => token (fst h)) (RequestOptions.headers o)
  && all_chars (fun c => (32 <? nat_of_ascii c)%nat) (RequestOptions.path o).

Definition demo_clock (n : nat) : Z := 1000 + 20 * Z.of_nat n * Z.of_nat n.

(** One success, one transport error, one 503 and one timeout. *)
Definition demo_events : list Event :=
  [ResponseEnd 0 (Some 200); RequestError 1;
   ResponseEnd 2 (Some 503); RequestTimeout 3].

Definition demo_world : World :=
  Eval vm_compute in
    match benchmark demo_clock demo_URL demo_request_ok demo_options
            demo_events with
    | Some w => w
    | None => initial
    end.

Definition demo_result : BenchmarkResult.t :=
  Eval vm_compute in
    match promise demo_world with
    | Fulfilled r => r
    | _ => result_of demo_options 0 0 [] 0 0
    end.

(** The two requests of the start-up loop, before any callback. *)
Definition demo_started : World :=
  Eval vm_compute in
    runHttpBenchmark demo_clock demo_URL demo_request_ok demo_options.

(** The first of them timing out. *)
Definition demo_timed_out : World :=
  Eval vm_compute in
    match deliver demo_clock demo_request_ok demo_options demo_urlObj
            (demo_clock 0%nat) (RequestTimeout 0) demo_started with
    | Some w => w
    | None => initial
    end.

(** The run before its last callback: the deadline has passed and one
    request is open. *)
Definition demo_draining : World :=
  Eval vm_compute in
    match benchmark demo_clock demo_URL demo_request_ok demo_options
            [ResponseEnd 0 (Some 200); RequestError 1;
             ResponseEnd 2 (Some 503)] with
    | Some w => w
    | None => initial
    end.

(** The run after the 'error' that follows the last 'timeout', when the
    promise has long been fulfilled. *)
Definition demo_late : World :=
  Eval vm_compute in
    match benchmark demo_clock demo_URL demo_request_ok demo_options
            (demo_events ++ [RequestError 3]) with
    | Some w => w
    | None => initial
    end.

(** The same options and clock when the first two requests fail
    without a response. *)
Definition refused_events : list Event := [RequestError 0; RequestTimeout 1].

Definition refused_first : World :=
  Eval vm_compute in
    match benchmark demo_clock demo_URL demo_request_ok demo_options
            [RequestError 0] with
    | Some w => w
    | None => initial
    end.

Definition refused_world : World :=
  Eval vm_compute in
    match benchmark demo_clock demo_URL demo_request_ok demo_options
            refused_events with
    | Some w => w
    | None => initial
    end.

(** A server that accepts connections and never answers: the clock
    reads of the start-up loop fall in the first milliseconds, the
    next ones after the 30 seconds of the timeout. *)
Definition hung_clock (n : nat) : Z :=
  if (n <=? 4)%nat then 1000 + Z.of_nat n else 31000 + Z.of_nat n.

(** The first request times out, and the module reports the socket the
    listener destroyed. *)
Definition hung_events : list Event := [RequestTimeout 0; RequestError 0].

Definition hung_timed_out : World :=
  Eval vm_compute in
    match benchmark hung_clock demo_URL demo_request_ok demo_options
            [RequestTimeout 0] with
    | Some w => w
    | None => initial
    end.

Definition hung_world : World :=
  Eval vm_compute in
    match benchmark hung_clock demo_URL demo_request_ok demo_options
            hung_events with
    | Some w => w
    | None => initial
    end.

Definition hung_result : BenchmarkResult.t :=
  Eval vm_compute in
    match promise hung_world with
    | Fulfilled r => r
    | _ => result_of demo_options 0 0 [] 0 0
    end.

(** The same server and a benchmark of 60 seconds: the timeout falls
    before the deadline. *)
Definition patient_options : BenchmarkOptions.t :=
  {| BenchmarkOptions.url := "http://localhost:8080/health";
     BenchmarkOptions.method := "GET";
     BenchmarkOptions.duration := 60;
     BenchmarkOptions.connections := 2;
     BenchmarkOptions.headers := None;
     BenchmarkOptions.body := None |}.

Definition crowded_world : World :=
  Eval vm_compute in
    match benchmark hung_clock demo_URL demo_request_ok patient_options
            hung_events with
    | Some w => w
    | None => initial
    end.



(** A clock that does not advance while the executor runs. *)
Definition frozen_clock (n : nat) : Z := 5000.

Definition zero_duration_options : BenchmarkOptions.t :=
  {| BenchmarkOptions.url := "http://localhost:8080/health";
     BenchmarkOptions.method := "GET";
     BenchmarkOptions.duration := 0;
     BenchmarkOptions.connections := 1;
     BenchmarkOptions.headers := None;
     BenchmarkOptions.body := None |}.

Definition zero_connections_options : BenchmarkOptions.t :=
  {| BenchmarkOptions.url := "http://localhost:8080/health";
     BenchmarkOptions.method := "GET";
     BenchmarkOptions.duration := 5;
     BenchmarkOptions.connections := 0;
     BenchmarkOptions.headers := None;
     BenchmarkOptions.body := None |}.

(** A string [new URL] refuses: it has no scheme. *)
Definition malformed_options : BenchmarkOptions.t :=
  {| BenchmarkOptions.url := "not a url";
     BenchmarkOptions.method := "GET";
     BenchmarkOptions.duration := 3;
     BenchmarkOptions.connections := 2;
     BenchmarkOptions.headers := None;
     BenchmarkOptions.body := None |}.

(** Options with a well-formed URL that [http.request] refuses: the
    name of the header is no HTTP token. *)
Definition unsendable_options : BenchmarkOptions.t :=
  {| BenchmarkOptions.url := "http://localhost:8080/health";
     BenchmarkOptions.method := "GET";
     BenchmarkOptions.duration := 3;
     BenchmarkOptions.connections := 2;
     BenchmarkOptions.headers := Some [("Content Type", "text/plain")]%string;
     BenchmarkOptions.body := None |}.

Definition unsendable_world : World :=
  Eval vm_compute in
    runHttpBenchmark demo_clock demo_URL demo_request_ok unsendable_options.

(** ** Further vocabulary: counting outcomes, ordering numbers *)

(** The callback counts as a success (line 213). *)
Definition is_success (e : Event) : bool :=
  match e with
  | ResponseEnd _ statusCode => status_ok statusCode
  | _ => false
  end.

Definition success_count (events : list Event) : nat :=
  length (filter is_success events).

(** The callback counts as a failure: a response with another status
    code or none, an 'error' or a 'timeout'. *)
Definition is_failure (e : Event) : bool :=
  is_callback e && negb (is_success e).

Definition failure_count (events : list Event) : nat :=
  length (filter is_failure events).

(** The callbacks [done], the first of the events [events], completed
    the run: they left the state [w] with the promise fulfilled with
    [r], and the promise was pending before the last of them. *)
Definition completed_by (clock : nat -> Z) (URL : string -> option URLRecord.t)
    (request_ok : bool -> RequestOptions.t -> bool)
    (options : BenchmarkOptions.t) (events done : list Event) (w : World)
    (r : BenchmarkResult.t) : Prop :=
  (exists late : list Event, events = done ++ late) /\
  benchmark clock URL request_ok options done = Some w /\
  promise w = Fulfilled r /\
  forall (before : list Event) (e : Event),
    done = before ++ [e] ->
    exists w0 : World,
      benchmark clock URL request_ok options before = Some w0 /\
      promise w0 = Pending.

(** Every open request took its [reqStart] from a clock read that has
    been made. *)
Definition started_before (clock : nat -> Z) (w : World) : Prop :=
  Forall (fun req =>
            exists j : nat, (j < clock_reads w)%nat /\ req_start req = clock j)
         (in_flight w).

(** The reports made so far were computed from the clock reads [js],
    latest first. *)
Definition reported_at (clock : nat -> Z) (options : BenchmarkOptions.t)
    (startTime : Z) (js : list nat) (w : World) : Prop :=
  reported w = map (fun j => progress_value options startTime (clock j)) js /\
  StronglySorted (fun later earlier : nat => (earlier < later)%nat) js /\
  Forall (fun j => (0 < j < clock_reads w)%nat) js.

(** [a <= b] on numbers, which holds of finite numbers only. *)
Definition number_le (a b : number) : Prop :=
  match a, b with
  | Fin x, Fin y => (x <= y)%Q
  | _, _ => False
  end.

(** A finite number between 0 and 100. *)
Definition percentage (x : number) : Prop :=
  match x with
  | Fin q => (0 <= q)%Q /\ (q <= 100)%Q
  | _ => False
  end.


(** [(now - startTime) / (duration * 1000) * 100], for a duration that
    is not 0. *)
Definition elapsed_percent (options : BenchmarkOptions.t) (startTime now : Z)
  : Q :=
  (inject_Z (now - startTime)
   / inject_Z (BenchmarkOptions.duration options * 1000) * 100)%Q.

(** ** The extension around the engine *)

(** What a webview panel shows: the template that produced its HTML
    and the values the template was applied to ([getLoadingHtml],
    [getResultsHtml], [getCompareHtml], [getErrorHtml]). *)
Inductive View : Type :=
| LoadingView (options : BenchmarkOptions.t)
| ResultsView (result : BenchmarkResult.t)
| CompareView (r1 r2 : BenchmarkResult.t)
| ErrorView (message : string).

(** The module variable [benchmarkHistory], the copy kept in
    [context.globalState], and the number of calls of
    [historyProvider.refresh]. *)
Record Extension : Type := {
  benchmarkHistory : list BenchmarkResult.t;
  globalState : option (list BenchmarkResult.t);
  refreshes : nat
}.

(** Line 39: [context.globalState.get('benchmarkHistory', [])]. *)
Definition activate (saved : option (list BenchmarkResult.t)) : Extension :=
  {| benchmarkHistory := match saved with Some h => h | None => [] end;
     globalState := saved;
     refreshes := 0 |}.

(** Lines 160-161: [unshift] the result, then [pop] when more than 50
    entries are held. *)
Definition remember (result : BenchmarkResult.t)
    (history : list BenchmarkResult.t) : list BenchmarkResult.t :=
  let history' := result :: history in
  if (50 <? length history')%nat then removelast history' else history'.

(** [getResultsHtml] (lines 372-429) calls [toFixed] on [p50], [p95]
    and [p99] (lines 419-421): it throws when one of them is
    [undefined].  [None] stands for the exception. *)
Definition getResultsHtml (result : BenchmarkResult.t) : option View :=
  match BenchmarkResult.p50 result, BenchmarkResult.p95 result,
        BenchmarkResult.p99 result with
  | Some _, Some _, Some _ => Some (ResultsView result)
  | _, _, _ => None
  end.


(** Lines 153-169, from the moment the promise of the engine is
    settled: the state of the extension and what the panel shows.
    While the promise is pending the panel keeps the loading page of
    line 151.  [error_message] is the message of the error the [catch]
    of line 167 receives. *)
Definition executeBenchmark (saveHistory : bool) (error_message : string)
    (options : BenchmarkOptions.t) (settled : Promise) (ext : Extension)
  : Extension * View :=
  match settled with
  | Fulfilled result =>
      (if saveHistory
       then {| benchmarkHistory := remember result (benchmarkHistory ext);
               globalState := Some (remember result (benchmarkHistory ext));
               refreshes := S (refreshes ext) |}
       else ext,
       match getResultsHtml result with
       | Some view => view
       | None => ErrorView error_message
       end)
  | Rejected => (ext, ErrorView error_message)
  | Pending => (ext, LoadingView options)
  end.

(** [x] when it is truthy: a string that is neither [undefined] nor
    empty. *)
Definition truthy (x : option string) : option string :=
  match x with
  | Some s => if String.eqb s EmptyString then None else Some s
  | None => None
  end.

(** [vscode.window.showInputBox]: the box returns what the user typed
    only if [validateInput] has no message for it; otherwise the user
    can only dismiss the box, which yields [undefined]. *)
Definition showInputBox (validateInput : string -> option string)
    (typed : option string) : option string :=
  match typed with
  | Some value =>
      match validateInput value with
      | None => Some value
      | Some _ => None
      end
  | None => None
  end.

(** [vscode.window.showQuickPick]: one of the items offered, or
    [undefined]. *)
Definition showQuickPick {A : Type} (items : list A) (choice : option nat)
  : option A :=
  match choice with
  | Some i => nth_error items i
  | None => None
  end.

Definition methods : list string :=
  ["GET"; "POST"; "PUT"; "DELETE"; "PATCH"]%string.

(** What the user does in the five prompts of [runBenchmark]. *)
Record Answers : Type := {
  typed_url : option string;
  picked_method : option nat;
  typed_duration : option string;
  typed_connections : option string;
  typed_body : option string
}.

(** How a command ends: dismissed at a prompt, or the engine started
    with [options]; [NotANumber] stands for options whose duration or
    connections would be [NaN]. *)
Inductive Launch : Type :=
| Dismissed
| NotANumber
| Launched (options : BenchmarkOptions.t).

Section Commands.

(** The URL parser of the platform; [None] when [new URL] throws. *)
Variable URL : string -> option URLRecord.t.

(** [parseInt]; [None] stands for [NaN]. *)
Variable parseInt : string -> option Z.

Variable request_ok : bool -> RequestOptions.t -> bool.

(** Lines 61-68. *)
Definition validate_url (value : string) : option string :=
  match URL value with
  | Some _ => None
  | None => Some "Please enter a valid URL"%string
  end.

(** Lines 85-88. *)
Definition validate_duration (value : string) : option string :=
  match parseInt value with
  | None => Some "Enter 1-60 seconds"%string
  | Some num =>
      if (num <? 1) || (60 <? num) then Some "Enter 1-60 seconds"%string
      else None
  end.

(** Lines 97-100. *)
Definition validate_connections (value : string) : option string :=
  match parseInt value with
  | None => Some "Enter 1-100 connections"%string
  | Some num =>
      if (num <? 1) || (100 <? num) then Some "Enter 1-100 connections"%string
      else None
  end.

(** Lines 54-125, up to the call of [executeBenchmark]. *)
Definition runBenchmark (a : Answers) : Launch :=
  match truthy (showInputBox validate_url (typed_url a)) with
  | None => Dismissed
  | Some url =>
  match truthy (showQuickPick methods (picked_method a)) with
  | None => Dismissed
  | Some method =>
  match truthy (showInputBox validate_duration (typed_duration a)) with
  | None => Dismissed
  | Some durationStr =>
  match truthy (showInputBox validate_connections (typed_connections a)) with
  | None => Dismissed
  | Some connectionsStr =>
  match parseInt durationStr, parseInt connectionsStr with
  | Some duration, Some connections =>
      if existsb (String.eqb method) ["POST"; "PUT"; "PATCH"]%string then
        match truthy (typed_body a) with
        | Some body =>
            Launched
              {| BenchmarkOptions.url := url;
                 BenchmarkOptions.method := method;
                 BenchmarkOptions.duration := duration;
                 BenchmarkOptions.connections := connections;
                 BenchmarkOptions.headers :=
                   Some [("Content-Type", "application/json")]%string;
                 BenchmarkOptions.body := Some body |}
        | None =>
            Launched
              {| BenchmarkOptions.url := url;
                 BenchmarkOptions.method := method;
                 BenchmarkOptions.duration := duration;
                 BenchmarkOptions.connections := connections;
                 BenchmarkOptions.headers := None;
                 BenchmarkOptions.body := None |}
        end
      else
        Launched
          {| BenchmarkOptions.url := url;
             BenchmarkOptions.method := method;
             BenchmarkOptions.duration := duration;
             BenchmarkOptions.connections := connections;
             BenchmarkOptions.headers := None;
             BenchmarkOptions.body := None |}
  | _, _ => NotANumber
  end end end end end.

(** Lines 127-141: the URL is taken as typed. *)
Definition quickTest (typed : option string) : Launch :=
  match truthy typed with
  | None => Dismissed
  | Some url =>
      Launched
        {| BenchmarkOptions.url := url;
           BenchmarkOptions.method := "GET";
           BenchmarkOptions.duration := 5;
           BenchmarkOptions.connections := 5;
           BenchmarkOptions.headers := None;
           BenchmarkOptions.body := None |}
  end.

(** A command followed by the engine and by [executeBenchmark]: the
    extension and the panel after the events [events]; [None] when the
    command was dismissed or the events cannot occur. *)
Definition command (clock : nat -> Z) (saveHistory : bool)
    (error_message : string) (launch : Launch) (events : list Event)
    (ext : Extension) : option (Extension * View) :=
  match launch with
  | Launched options =>
      match benchmark clock URL request_ok options events with
      | Some w =>
          Some (executeBenchmark saveHistory error_message options
                  (promise w) ext)
      | None => None
      end
  | _ => None
  end.

End Commands.

(** What [runBenchmark] can hand to the engine. *)
Definition prompted (URL : string -> option URLRecord.t)
    (options : BenchmarkOptions.t) : Prop :=
  (exists u, URL (BenchmarkOptions.url options) = Some u) /\
  In (BenchmarkOptions.method options) methods /\
  1 <= BenchmarkOptions.duration options <= 60 /\
  1 <= BenchmarkOptions.connections options <= 100 /\
  match BenchmarkOptions.body options with
  | Some body =>
      body <> EmptyString /\
      In (BenchmarkOptions.method options) ["POST"; "PUT"; "PATCH"]%string /\
      BenchmarkOptions.headers options
      = Some [("Content-Type", "application/json")]%string
  | None => BenchmarkOptions.headers options = None
  end.

(** ** History views *)


(** A [BenchmarkHistoryItem] (lines 507-513). *)
Record TreeItem : Type := {
  tree_label : string;
  tree_description : string;
  tooltip : string;
  result : BenchmarkResult.t
}.


(** [array.map((x, i) => f(x, i))], where [f] may throw. *)
Fixpoint map_index {A B : Type} (f : A -> nat -> option B) (l : list A)
    (i : nat) : option (list B) :=
  match l with
  | [] => Some []
  | x :: l' =>
      match f x i with
      | None => None
      | Some y =>
          match map_index f l' (S i) with
          | None => None
          | Some ys => Some (y :: ys)
          end
      end
  end.

Definition newline : string := String (Ascii.ascii_of_nat 10) EmptyString.

Section Views.

Variable URL : string -> option URLRecord.t.

(** [x.toFixed(digits)] and [new Date(t).toLocaleString()], left to
    the platform. *)
Variable toFixed : nat -> number -> string.
Variable toLocaleString : Z -> string.

(** [x.toFixed(digits)] of a value read from an array: it throws on
    [undefined]. *)
Definition toFixed_cell (digits : nat) (x : option Z) : option string :=
  match x with
  | Some z => Some (toFixed digits (Fin (inject_Z z)))
  | None => None
  end.





(** The constructor of lines 508-512; [new URL] and [toFixed] may
    throw. *)
Definition BenchmarkHistoryItem (r : BenchmarkResult.t) : option TreeItem :=
  match URL (BenchmarkResult.url r), toFixed_cell 0 (BenchmarkResult.p99 r) with
  | Some parsed, Some p99 =>
      Some {| tree_label :=
                (BenchmarkResult.method r ++ " "
                 ++ URLRecord.pathname parsed)%string;
              tree_description :=
                (toFixed 0 (BenchmarkResult.requestsPerSecond r)
                 ++ " req/s")%string;
              tooltip :=
                (BenchmarkResult.url r ++ newline ++ "p99: " ++ p99 ++ "ms"
                 ++ newline
                 ++ toLocaleString (BenchmarkResult.timestamp r))%string;
              result := r |}
  | _, _ => None
  end.

(** Lines 502-504. *)
Definition getChildren (history : list BenchmarkResult.t)
  : option (list TreeItem) :=
  map_index (fun r _ => BenchmarkHistoryItem r) history 0.

End Views.

(** ** Quantities of the results page *)



(** A stand-in for [parseInt]: it reads a string of decimal digits. *)
Fixpoint digits_value (s : string) (acc : Z) : option Z :=
  match s with
  | EmptyString => Some acc
  | String c s' =>
      let n := Ascii.nat_of_ascii c in
      if ((48 <=? n) && (n <=? 57))%nat
      then digits_value s' (10 * acc + Z.of_nat (n - 48))
      else None
  end.

Definition demo_parseInt (s : string) : option Z :=
  match s with
  | EmptyString => None
  | _ => digits_value s 0
  end.

Definition demo_answers : Answers :=
  {| typed_url := Some "http://localhost:8080/health"%string;
     picked_method := Some 1%nat;
     typed_duration := Some "3"%string;
     typed_connections := Some "2"%string;
     typed_body := Some "{}"%string |}.

Definition demo_post_options : BenchmarkOptions.t :=
  {| BenchmarkOptions.url := "http://localhost:8080/health";
     BenchmarkOptions.method := "POST";
     BenchmarkOptions.duration := 3;
     BenchmarkOptions.connections := 2;
     BenchmarkOptions.headers :=
       Some [("Content-Type", "application/json")]%string;
     BenchmarkOptions.body := Some "{}"%string |}.

(** The engine started with these options, before any callback. *)
Definition demo_post_world : World :=
  Eval vm_compute in
    runHttpBenchmark demo_clock demo_URL demo_request_ok demo_post_options.

Definition malformed_quick_options : BenchmarkOptions.t :=
  {| BenchmarkOptions.url := "not a url";
     BenchmarkOptions.method := "GET";
     BenchmarkOptions.duration := 5;
     BenchmarkOptions.connections := 5;
     BenchmarkOptions.headers := None;
     BenchmarkOptions.body := None |}.

(** A result the history views can render: its URL parses and its
    [p99] is a number. *)
Definition renderable (URL : string -> option URLRecord.t)
    (r : BenchmarkResult.t) : Prop :=
  (exists u, URL (BenchmarkResult.url r) = Some u) /\
  (exists a, BenchmarkResult.p99 r = Some a).

(** A result whose three percentiles are numbers: the templates of the
    results page and of the comparison page can format it. *)
Definition charted (r : BenchmarkResult.t) : Prop :=
  (exists a, BenchmarkResult.p50 r = Some a) /\
  (exists b, BenchmarkResult.p95 r = Some b) /\
  (exists c, BenchmarkResult.p99 r = Some c).





(** ** Tactics *)

(** * Properties *)

(** ** Sorting *)

Lemma insert_perm (x : Z) (l : list Z) : Permutation (insert x l) (x :: l).
Proof.
  induction l as [|y l IH]; simpl.
  - apply Permutation_refl.
  - destruct (x <=? y).
    + apply Permutation_refl.
    + apply perm_trans with (y :: x :: l).
      * apply perm_skip, IH.
      * apply perm_swap.
Qed.

Lemma sort_perm (l : list Z) : Permutation (sort l) l.
Proof.
  induction l as [|x l IH]; simpl.
  - apply perm_nil.
  - apply perm_trans with (x :: sort l).
    + apply insert_perm.
    + apply perm_skip, IH.
Qed.

Lemma insert_sorted (x : Z) (l : list Z) :
  StronglySorted Z.le l -> StronglySorted Z.le (insert x l).
Proof.
  induction 1 as [|y l Hs IH Hall]; simpl.
  - constructor; constructor.
  - destruct (Z.leb_spec x y) as [Hle|Hgt].
    + constructor.
      * constructor; assumption.
      * constructor; [assumption|].
        eapply Forall_impl; [|exact Hall]. intros z Hz. simpl in Hz. lia.
    + constructor; [exact IH|].
      rewrite Forall_forall. intros z Hz.
      apply (Permutation_in _ (insert_perm x l)) in Hz.
      destruct Hz as [<-|Hz]; [lia|].
      rewrite Forall_forall in Hall. apply Hall, Hz.
Qed.

Lemma sort_sorted (l : list Z) : StronglySorted Z.le (sort l).
Proof.
  induction l as [|x l IH]; simpl.
  - constructor.
  - apply insert_sorted, IH.
Qed.

(** Sorting an array that is already in order leaves it as it is: a
    second call of [finalize] does not disturb the statistics. *)
Lemma sort_sorted_id (l : list Z) : StronglySorted Z.le l -> sort l = l.
Proof.
  induction 1 as [|x l Hs IH Hall]; simpl.
  - reflexivity.
  - rewrite IH. destruct l as [|y l']; simpl.
    + reflexivity.
    + inversion Hall as [|? ? Hxy _]; subst.
      destruct (Z.leb_spec x y); [reflexivity | lia].
Qed.

Lemma insert_comm (x y : Z) (l : list Z) :
  insert x (insert y l) = insert y (insert x l).
Proof.
  induction l as [|z l IH]; simpl.
  - destruct (Z.leb_spec x y), (Z.leb_spec y x); try reflexivity; try lia.
    assert (x = y) by lia. subst. reflexivity.
  - destruct (Z.leb_spec y z), (Z.leb_spec x z); simpl;
      repeat match goal with
             | |- context [?a <=? ?b] => destruct (Z.leb_spec a b)
             end;
      try lia; try reflexivity.
    + assert (x = y) by lia. subst. reflexivity.
    + rewrite IH. reflexivity.
Qed.

(** The sorted array does not depend on the order of arrival. *)
Lemma sort_permutation (l l' : list Z) :
  Permutation l l' -> sort l = sort l'.
Proof.
  induction 1 as [|x l l' _ IH|x y l|l l' l'' _ IH1 _ IH2]; simpl.
  - reflexivity.
  - rewrite IH. reflexivity.
  - apply insert_comm.
  - congruence.
Qed.

Lemma sorted_nth_error (l : list Z) :
  StronglySorted Z.le l ->
  forall (i j : nat) (a b : Z),
    (i <= j)%nat -> nth_error l i = Some a -> nth_error l j = Some b -> a <= b.
Proof.
  induction 1 as [|x l Hs IH Hall]; intros i j a b Hij Ha Hb.
  - destruct i; discriminate.
  - destruct i as [|i], j as [|j]; simpl in Ha, Hb.
    + inversion Ha; inversion Hb; subst. lia.
    + inversion Ha; subst.
      rewrite Forall_forall in Hall. apply Hall.
      eapply nth_error_In; exact Hb.
    + lia.
    + apply (IH i j); [lia | assumption | assumption].
Qed.

Lemma hd_nth_error (l : list Z) (d : Z) :
  l <> [] -> nth_error l 0 = Some (hd d l).
Proof. destruct l; [congruence | reflexivity]. Qed.

Lemma last_nth_error (l : list Z) (d : Z) :
  l <> [] -> nth_error l (length l - 1) = Some (last l d).
Proof.
  induction l as [|x l IH]; [congruence|]. intros _.
  destruct l as [|y l'].
  - reflexivity.
  - replace (length (x :: y :: l') - 1)%nat with (S (length (y :: l') - 1))
      by (simpl; lia).
    change (last (x :: y :: l') d) with (last (y :: l') d).
    simpl nth_error. apply IH. discriminate.
Qed.

Lemma sorted_bounds (l : list Z) (x : Z) :
  StronglySorted Z.le l -> In x l -> hd 0 l <= x <= last l 0.
Proof.
  intros Hs Hin.
  assert (Hne : l <> []) by (destruct l; [destruct Hin | discriminate]).
  destruct (In_nth_error _ _ Hin) as [i Hi].
  assert (Hlt : (i < length l)%nat) by (apply nth_error_Some; congruence).
  split.
  - apply (sorted_nth_error l Hs 0 i); [lia | apply hd_nth_error, Hne | exact Hi].
  - apply (sorted_nth_error l Hs i (length l - 1));
      [lia | exact Hi | apply last_nth_error, Hne].
Qed.

Lemma nonempty_length (l : list Z) : l <> [] -> (0 <? length l)%nat = true.
Proof. destruct l; [congruence | reflexivity]. Qed.

Lemma Permutation_nil_l (l : list Z) : Permutation l [] -> l = [].
Proof. intros H. apply Permutation_sym in H. apply Permutation_nil. exact H. Qed.

(** ** The percentile index *)

Lemma percentile_rank (l : list Z) (p : Q) :
  l <> [] -> percentile l p = nth_error l (Z.to_nat (rank (length l) p)).
Proof.
  intros Hl. unfold percentile, rank, array_get.
  destruct l as [|x l']; [congruence|].
  change (length (x :: l') =? 0)%nat with false. cbv iota.
  destruct (Z.ltb_spec (Z.max 0 (Math_ceil (inject_Z (Z.of_nat (length (x :: l'))) * p) - 1)) 0);
    [lia | reflexivity].
Qed.

Lemma rank_nonneg (n : nat) (p : Q) : 0 <= rank n p.
Proof. unfold rank. lia. Qed.

Lemma rank_mono (n : nat) (p1 p2 : Q) :
  (p1 <= p2)%Q -> rank n p1 <= rank n p2.
Proof.
  intros H. unfold rank, Math_ceil.
  assert (Qceiling (inject_Z (Z.of_nat n) * p1)
          <= Qceiling (inject_Z (Z.of_nat n) * p2)).
  { apply Qceiling_resp_le.
    rewrite (Qmult_comm _ p1), (Qmult_comm _ p2).
    apply Qmult_le_compat_r; [exact H|].
    rewrite <- (Zle_Qle 0). lia. }
  lia.
Qed.

Lemma rank_lt (n : nat) (p : Q) :
  (0 < n)%nat -> (p <= 1)%Q -> rank n p < Z.of_nat n.
Proof.
  intros Hn Hp. unfold rank, Math_ceil.
  assert (Qceiling (inject_Z (Z.of_nat n) * p) <= Z.of_nat n).
  { rewrite <- (Qceiling_Z (Z.of_nat n)) at 2.
    apply Qceiling_resp_le.
    rewrite <- (Qmult_1_r (inject_Z (Z.of_nat n))) at 2.
    rewrite (Qmult_comm _ p), (Qmult_comm _ 1).
    apply Qmult_le_compat_r; [exact Hp|].
    rewrite <- (Zle_Qle 0). lia. }
  lia.
Qed.

Lemma percentile_defined (l : list Z) (p : Q) :
  l <> [] -> (p <= 1)%Q ->
  exists x, percentile l p = Some x /\ In x l.
Proof.
  intros Hl Hp. rewrite (percentile_rank l p Hl).
  assert (Hlen : (0 < length l)%nat) by (destruct l; [congruence | simpl; lia]).
  pose proof (rank_lt (length l) p Hlen Hp) as Hlt.
  pose proof (rank_nonneg (length l) p) as Hge.
  destruct (nth_error l (Z.to_nat (rank (length l) p))) as [x|] eqn:E.
  - exists x. split; [reflexivity|]. eapply nth_error_In; exact E.
  - apply nth_error_None in E. lia.
Qed.

Lemma percentile_mono_sorted (l : list Z) (p1 p2 : Q) :
  StronglySorted Z.le l -> (p1 <= p2)%Q -> (p2 <= 1)%Q ->
  exists a b, percentile l p1 = Some a /\ percentile l p2 = Some b /\ a <= b.
Proof.
  intros Hs H12 H2.
  destruct l as [|x l'].
  - exists 0, 0. repeat split; reflexivity || lia.
  - assert (Hne : x :: l' <> []) by discriminate.
    assert (H1 : (p1 <= 1)%Q) by (eapply Qle_trans; eassumption).
    destruct (percentile_defined _ p1 Hne H1) as (a & Ha & _).
    destruct (percentile_defined _ p2 Hne H2) as (b & Hb & _).
    exists a, b. repeat split; try assumption.
    rewrite percentile_rank in Ha, Hb by assumption.
    eapply (sorted_nth_error _ Hs); [|exact Ha|exact Hb].
    pose proof (rank_mono (length (x :: l')) p1 p2 H12).
    pose proof (rank_nonneg (length (x :: l')) p1). lia.
Qed.

(** ** Statistics of the result record *)

Lemma js_div_pos (a b : Q) : (0 < b)%Q -> js_div a b = Fin (a / b).
Proof.
  intros Hb. unfold js_div.
  destruct (Qeq_bool b 0) eqn:E; [|reflexivity].
  apply Qeq_bool_eq in E. rewrite E in Hb.
  exfalso. exact (Qlt_irrefl 0 Hb).
Qed.

Lemma result_of_order (options : BenchmarkOptions.t) (d : Q) (date : Z)
    (l : list Z) (s f : Z) :
  StronglySorted Z.le l -> l <> [] ->
  let r := result_of options d date l s f in
  exists a b c : Z,
    BenchmarkResult.p50 r = Some a /\
    BenchmarkResult.p95 r = Some b /\
    BenchmarkResult.p99 r = Some c /\
    BenchmarkResult.minLatency r <= a /\ a <= b /\ b <= c /\
    c <= BenchmarkResult.maxLatency r.
Proof.
  intros Hs Hne r.
  destruct (percentile_mono_sorted l (1 # 2) (95 # 100) Hs)
    as (a & b & Ha & Hb & Hab); [discriminate | discriminate |].
  destruct (percentile_mono_sorted l (95 # 100) (99 # 100) Hs)
    as (b' & c & Hb' & Hc & Hbc); [discriminate | discriminate |].
  assert (b' = b) by congruence. subst b'.
  exists a, b, c. subst r. simpl.
  rewrite (nonempty_length l Hne).
  repeat split; try assumption.
  - destruct (percentile_defined l (1 # 2) Hne) as (a' & Ha' & Hin);
      [discriminate|].
    assert (a' = a) by congruence. subst a'.
    apply (sorted_bounds l a Hs Hin).
  - destruct (percentile_defined l (99 # 100) Hne) as (c' & Hc' & Hin);
      [discriminate|].
    assert (c' = c) by congruence. subst c'.
    apply (sorted_bounds l c Hs Hin).
Qed.

(** ** The engine, step by step *)

Lemma exec_bind {A B} (c : M A) (k : A -> M B) (w : World) :
  exec (bind c k) w
  = match fst (c w) with
    | Some a => exec (k a) (exec c w)
    | None => exec c w
    end.
Proof. unfold exec, bind. destruct (c w) as [[a|] w']; reflexivity. Qed.

Lemma throws_bind {A B} (c : M A) (k : A -> M B) (w : World) :
  throws (bind c k) w
  = match fst (c w) with
    | Some a => throws (k a) (exec c w)
    | None => true
    end.
Proof. unfold throws, exec, bind. destruct (c w) as [[a|] w']; reflexivity. Qed.

Lemma destroyed_by_fields (id : nat) (req : ClientRequest) :
  request_id (destroyed_by id req) = request_id req /\
  req_start (destroyed_by id req) = req_start req /\
  req_options (destroyed_by id req) = req_options req /\
  secure (destroyed_by id req) = secure req /\
  written (destroyed_by id req) = written req.
Proof.
  unfold destroyed_by. destruct (id =? request_id req)%nat;
    repeat split; reflexivity.
Qed.

Lemma destroyed_by_ids (id : nat) (l : list ClientRequest) :
  map request_id (map (destroyed_by id) l) = map request_id l.
Proof.
  rewrite map_map. apply map_ext. intros req.
  apply (destroyed_by_fields id req).
Qed.

(** A property of a request that does not look at [destroyed] survives
    [req.destroy()]. *)
Lemma destroyed_by_Forall (P : ClientRequest -> Prop) (id : nat)
    (l : list ClientRequest) :
  (forall req, P req -> P (destroyed_by id req)) ->
  Forall P l -> Forall P (map (destroyed_by id) l).
Proof.
  intros HP Hl. apply Forall_map. eapply Forall_impl; [|exact Hl].
  exact HP.
Qed.

Section Steps.

Variable clock : nat -> Z.
Variable request_ok : bool -> RequestOptions.t -> bool.
Variable options : BenchmarkOptions.t.
Variable urlObj : URLRecord.t.
Variable startTime : Z.

Lemma finalize_exec (w : World) :
  exec (finalize clock options startTime) w =
  let w' := tick (with_latencies sort (tick w)) in
  match promise w with
  | Pending =>
      with_promise
        (Fulfilled (result_at clock options startTime (clock_reads w) w)) w'
  | _ => w'
  end.
Proof.
  unfold exec, finalize, bind, Date_now, update, read, resolve, result_at.
  simpl. destruct (promise w); reflexivity.
Qed.

Lemma makeRequest_exec (w : World) :
  exec (makeRequest clock request_ok options urlObj startTime) w =
  if endTime options startTime <=? clock (clock_reads w) then
    if activeConnections w =? 0
    then exec (finalize clock options startTime) (tick w)
    else tick w
  else
    if request_ok (isHttps urlObj) (reqOptions options urlObj)
    then send (clock (S (clock_reads w))) (reqOptions options urlObj)
           (isHttps urlObj) (request_body options)
           (tick (with_activeConnections Z.succ (tick w)))
    else tick (with_activeConnections Z.succ (tick w)).
Proof.
  unfold exec at 1. unfold makeRequest, bind, Date_now at 1. simpl.
  destruct (endTime options startTime <=? clock (clock_reads w)).
  - unfold read. simpl. destruct (activeConnections w =? 0); reflexivity.
  - simpl. destruct (request_ok _ _); reflexivity.
Qed.

(** [makeRequest] throws when it reaches [httpModule.request] with
    options the module refuses, and only then. *)
Lemma makeRequest_throws (w : World) :
  throws (makeRequest clock request_ok options urlObj startTime) w
  = negb (endTime options startTime <=? clock (clock_reads w))
    && negb (request_ok (isHttps urlObj) (reqOptions options urlObj)).
Proof.
  unfold throws. unfold makeRequest, bind, Date_now at 1. simpl.
  destruct (endTime options startTime <=? clock (clock_reads w)).
  - unfold read. simpl. destruct (activeConnections w =? 0); [|reflexivity].
    unfold finalize, bind, Date_now, update, read, resolve. reflexivity.
  - simpl. destruct (request_ok _ _); reflexivity.
Qed.

Lemma on_end_exec (reqStart : Z) (statusCode : option Z) (w : World) :
  exec (on_end clock request_ok options urlObj startTime reqStart statusCode) w =
  exec (makeRequest clock request_ok options urlObj startTime)
       (committed_end clock options startTime reqStart statusCode w).
Proof.
  unfold exec, on_end, committed_end, progress_value, bind,
    Date_now at 1 2, update.
  simpl. destruct (status_ok statusCode); reflexivity.
Qed.

Lemma on_end_throws (reqStart : Z) (statusCode : option Z) (w : World) :
  throws (on_end clock request_ok options urlObj startTime reqStart statusCode) w =
  throws (makeRequest clock request_ok options urlObj startTime)
         (committed_end clock options startTime reqStart statusCode w).
Proof.
  unfold throws, on_end, committed_end, progress_value, bind,
    Date_now at 1 2, update.
  simpl. destruct (status_ok statusCode); reflexivity.
Qed.

Lemma handler_exec (e : Event) (reqStart : Z) (w : World) :
  exec (handler clock request_ok options urlObj startTime e reqStart) w =
  if is_callback e
  then exec (makeRequest clock request_ok options urlObj startTime)
            (committed clock options startTime e reqStart w)
  else w.
Proof.
  destruct e; simpl.
  - apply on_end_exec.
  - reflexivity.
  - reflexivity.
  - reflexivity.
Qed.

Lemma handler_throws (e : Event) (reqStart : Z) (w : World) :
  throws (handler clock request_ok options urlObj startTime e reqStart) w =
  is_callback e
  && throws (makeRequest clock request_ok options urlObj startTime)
            (committed clock options startTime e reqStart w).
Proof.
  destruct e; simpl.
  - apply on_end_throws.
  - reflexivity.
  - reflexivity.
  - reflexivity.
Qed.

(** [makeRequest] and [finalize] leave the counters alone and at most
    reorder the latencies; only a callback reports progress. *)
Lemma makeRequest_same_samples (w : World) :
  same_samples w (exec (makeRequest clock request_ok options urlObj startTime) w).
Proof.
  rewrite makeRequest_exec.
  destruct (_ <=? _).
  - destruct (_ =? _).
    + rewrite finalize_exec. cbn [promise tick].
      destruct (promise w); repeat split; try reflexivity; apply sort_perm.
    + repeat split; reflexivity.
  - destruct (request_ok _ _); repeat split; reflexivity.
Qed.

(** [makeRequest] settles the promise only by fulfilling it. *)
Lemma makeRequest_promise (w : World) :
  let w' := exec (makeRequest clock request_ok options urlObj startTime) w in
  promise w' = promise w \/
  (promise w = Pending /\ exists r, promise w' = Fulfilled r).
Proof.
  cbv zeta. rewrite makeRequest_exec.
  destruct (_ <=? _).
  - destruct (_ =? _).
    + rewrite finalize_exec. cbn [promise tick].
      destruct (promise w) eqn:E.
      * right. split; [reflexivity|]. eexists. reflexivity.
      * left. simpl. exact E.
      * left. simpl. exact E.
    + left. reflexivity.
  - destruct (request_ok _ _); left; reflexivity.
Qed.

(** When [makeRequest] fulfils the promise it has found the deadline
    passed and the counter of active connections at 0, and it has
    called [finalize], which built the record from the counters and
    from the array it sorted. *)
Lemma makeRequest_resolves (w : World) (r : BenchmarkResult.t) :
  let w' := exec (makeRequest clock request_ok options urlObj startTime) w in
  promise w = Pending -> promise w' = Fulfilled r ->
  endTime options startTime <= clock (clock_reads w) /\
  activeConnections w = 0 /\
  w' = with_promise (Fulfilled r)
         (tick (with_latencies sort (tick (tick w)))) /\
  r = result_of options
        (inject_Z (clock (S (clock_reads w)) - startTime) / 1000)%Q
        (clock (S (S (clock_reads w)))) (sort (latencies w))
        (successCount w) (failCount w).
Proof.
  cbv zeta. rewrite makeRequest_exec. intros Hp.
  destruct (Z.leb_spec (endTime options startTime) (clock (clock_reads w)))
    as [Hpast|Hbefore].
  - destruct (Z.eqb_spec (activeConnections w) 0) as [Hzero|Hbusy].
    + rewrite finalize_exec. cbn [promise tick]. rewrite Hp.
      simpl. intros Hr. inversion Hr; subst.
      repeat split; assumption.
    + simpl. rewrite Hp. discriminate.
  - destruct (request_ok _ _); simpl; rewrite Hp; discriminate.
Qed.

Lemma makeRequest_requests (w : World) :
  requests_from options urlObj w ->
  requests_from options urlObj
    (exec (makeRequest clock request_ok options urlObj startTime) w).
Proof.
  intros H. rewrite makeRequest_exec.
  destruct (_ <=? _).
  - destruct (_ =? _).
    + rewrite finalize_exec. cbn [promise tick].
      destruct (promise w); exact H.
    + exact H.
  - destruct (request_ok _ _); [|exact H].
    constructor; [|exact H]. repeat split; reflexivity.
Qed.

(** [makeRequest] sends at most one request and makes at least one
    clock read. *)
Lemma makeRequest_sends (w : World) :
  let w' := exec (makeRequest clock request_ok options urlObj startTime) w in
  (clock_reads w < clock_reads w')%nat /\
  ((in_flight w' = in_flight w /\ issued w' = issued w /\
    activeConnections w' = activeConnections w /\
    endTime options startTime <= clock (clock_reads w)) \/
   (in_flight w'
    = {| request_id := issued w; req_start := clock (S (clock_reads w));
         req_options := reqOptions options urlObj;
         secure := isHttps urlObj; written := request_body options;
         destroyed := false |}
      :: in_flight w /\
    issued w' = S (issued w) /\
    activeConnections w' = activeConnections w + 1 /\
    clock_reads w' = S (S (clock_reads w)) /\
    clock (clock_reads w) < endTime options startTime /\
    request_ok (isHttps urlObj) (reqOptions options urlObj) = true) \/
   (in_flight w' = in_flight w /\ issued w' = issued w /\
    activeConnections w' = activeConnections w + 1 /\
    clock (clock_reads w) < endTime options startTime /\
    request_ok (isHttps urlObj) (reqOptions options urlObj) = false)).
Proof.
  cbv zeta. rewrite makeRequest_exec.
  destruct (Z.leb_spec (endTime options startTime) (clock (clock_reads w)))
    as [Hpast|Hbefore].
  - destruct (activeConnections w =? 0).
    + rewrite finalize_exec. cbn [promise tick].
      destruct (promise w); simpl; (split; [lia|]); left;
        repeat split; assumption.
    + simpl. split; [lia|]. left. repeat split; assumption.
  - destruct (request_ok _ _) eqn:Eok; simpl; (split; [lia|]); right.
    + left. repeat split; (lia || assumption).
    + right. repeat split; (lia || assumption).
Qed.

Lemma makeRequest_numbered (w : World) :
  numbered w ->
  numbered (exec (makeRequest clock request_ok options urlObj startTime) w).
Proof.
  intros (Hnd & Hlt). unfold numbered.
  destruct (makeRequest_sends w)
    as (_ & [(Hin & Hi & _)|[(Hin & Hi & _)|(Hin & Hi & _)]]);
    rewrite Hin, Hi; try (split; assumption).
  simpl. split.
  - constructor; [|exact Hnd].
    intros Hmem. apply in_map_iff in Hmem. destruct Hmem as (req & Hid & Hreq).
    rewrite Forall_forall in Hlt. specialize (Hlt req Hreq). lia.
  - constructor; [simpl; lia|].
    eapply Forall_impl; [|exact Hlt]. intros req Hreq. simpl in Hreq. lia.
Qed.

(** What the listener of an event has changed when it calls
    [makeRequest]. *)
Lemma committed_counters (e : Event) (reqStart : Z) (w : World) :
  let w1 := committed clock options startTime e reqStart w in
  successCount w1 + failCount w1
  = successCount w + failCount w + (if is_callback e then 1 else 0) /\
  length (latencies w1)
  = (length (latencies w) + (if is_timed e then 1 else 0))%nat /\
  activeConnections w1
  = activeConnections w - (if is_callback e then 1 else 0) /\
  promise w1 = promise w.
Proof.
  destruct e as [id sc|id|id|id]; cbv zeta; simpl.
  - unfold committed_end. destruct (status_ok sc); simpl;
      rewrite length_app; simpl; repeat split; lia.
  - repeat split; lia.
  - repeat split; lia.
  - repeat split; lia.
Qed.

Lemma committed_state (e : Event) (reqStart : Z) (w : World) :
  let w1 := committed clock options startTime e reqStart w in
  in_flight w1
  = (if is_timeout e then map (destroyed_by (event_id e)) (in_flight w)
     else in_flight w) /\
  issued w1 = issued w /\
  (clock_reads w <= clock_reads w1)%nat /\
  (clock_reads w1 <= clock_reads w + 2)%nat.
Proof.
  cbv zeta. destruct e as [id sc|id|id|id]; simpl.
  - unfold committed_end. destruct (status_ok sc); simpl; repeat split; lia.
  - repeat split; lia.
  - repeat split; lia.
  - repeat split; lia.
Qed.

End Steps.
(** ** Events *)

Lemma take_spec (id : nat) (l rest : list ClientRequest) (req : ClientRequest) :
  take id l = Some (req, rest) ->
  length l = S (length rest) /\ In req l /\ request_id req = id /\
  Permutation l (req :: rest) /\
  forall P : ClientRequest -> Prop, Forall P l -> P req /\ Forall P rest.
Proof.
  revert rest. induction l as [|q l IH]; intros rest H; simpl in H.
  - discriminate.
  - destruct (Nat.eqb_spec id (request_id q)) as [Heq|Hne].
    + inversion H; subst. repeat split.
      * left; reflexivity.
      * apply Permutation_refl.
      * apply (Forall_inv H0).
      * apply (Forall_inv_tail H0).
    + destruct (take id l) as [[found rest']|]; [|discriminate].
      inversion H; subst.
      destruct (IH rest' eq_refl) as (Hlen & Hin & Hid & Hperm & HP).
      repeat split.
      * simpl; congruence.
      * right; exact Hin.
      * exact Hid.
      * eapply perm_trans; [apply perm_skip, Hperm | apply perm_swap].
      * apply (HP P), (Forall_inv_tail H0).
      * constructor; [apply (Forall_inv H0) | apply (HP P), (Forall_inv_tail H0)].
Qed.

Lemma take_some (req : ClientRequest) (l : list ClientRequest) :
  In req l -> exists found rest, take (request_id req) l = Some (found, rest).
Proof.
  induction l as [|q l IH]; intros Hin; [destruct Hin|]. simpl.
  destruct (Nat.eqb_spec (request_id req) (request_id q)) as [_|Hne].
  - exists q, l. reflexivity.
  - destruct Hin as [->|Hin]; [congruence|].
    destruct (IH Hin) as (found & rest & ->).
    exists found, (q :: rest). reflexivity.
Qed.

Lemma take_none (id : nat) (l : list ClientRequest) :
  ~ In id (map request_id l) -> take id l = None.
Proof.
  induction l as [|q l IH]; intros Hn; simpl; [reflexivity|].
  destruct (Nat.eqb_spec id (request_id q)) as [Heq|Hne].
  - exfalso. apply Hn. left. symmetry. exact Heq.
  - rewrite IH; [reflexivity|]. intros Hin. apply Hn. right. exact Hin.
Qed.

(** Among requests with different numbers, the one [take] finds is the
    only one with its number. *)
Lemma take_unique (id : nat) (l rest : list ClientRequest)
    (req : ClientRequest) :
  NoDup (map request_id l) ->
  take id l = Some (req, rest) ->
  NoDup (map request_id rest) /\ ~ In id (map request_id rest).
Proof.
  intros Hnd Htake.
  destruct (take_spec _ _ _ _ Htake) as (_ & _ & Hid & Hperm & _).
  assert (Hnd' : NoDup (map request_id (req :: rest))).
  { eapply Permutation_NoDup; [|exact Hnd]. apply Permutation_map, Hperm. }
  simpl in Hnd'. inversion Hnd' as [|? ? Hnotin Hrest]; subst.
  split; [exact Hrest | exact Hnotin].
Qed.

Lemma take_destroyed (id : nat) (l rest : list ClientRequest)
    (req : ClientRequest) :
  take id l = Some (req, rest) ->
  take id (map (destroyed_by id) l)
  = Some (destroyed_by id req, map (destroyed_by id) rest) /\
  destroyed (destroyed_by id req) = true.
Proof.
  revert rest. induction l as [|q l IH]; intros rest H; simpl in H.
  - discriminate.
  - simpl. destruct (destroyed_by_fields id q) as (Hq & _). rewrite Hq.
    destruct (Nat.eqb_spec id (request_id q)) as [Heq|Hne].
    + inversion H; subst. split; [reflexivity|].
      unfold destroyed_by. rewrite Nat.eqb_refl. reflexivity.
    + destruct (take id l) as [[found rest']|]; [|discriminate].
      inversion H; subst. destruct (IH rest' eq_refl) as (-> & Hd).
      split; [reflexivity | exact Hd].
Qed.

Lemma status_ok_range (c : Z) :
  status_ok (Some c) = (200 <=? c) && (c <? 400).
Proof.
  unfold status_ok.
  destruct (Z.eqb_spec c 0), (Z.leb_spec 200 c); simpl; try reflexivity; lia.
Qed.

(** *** Counting events *)

Lemma timed_is_callback (e : Event) : is_timed e = true -> is_callback e = true.
Proof. destruct e; simpl; congruence. Qed.

Lemma success_is_timed (e : Event) : is_success e = true -> is_timed e = true.
Proof. destruct e; simpl; congruence. Qed.

Lemma filter_length_sub {A : Type} (p q : A -> bool) (l : list A) :
  (forall x, p x = true -> q x = true) ->
  (length (filter p l) <= length (filter q l))%nat.
Proof.
  intros Hpq. induction l as [|x l IH]; simpl; [lia|].
  destruct (p x) eqn:Ep.
  - rewrite (Hpq x Ep). simpl. lia.
  - destruct (q x); simpl; lia.
Qed.

Lemma timed_count_le (events : list Event) :
  (timed_count events <= callback_count events)%nat.
Proof. apply filter_length_sub, timed_is_callback. Qed.

Lemma success_count_le (events : list Event) :
  (success_count events <= timed_count events)%nat.
Proof. apply filter_length_sub, success_is_timed. Qed.

Lemma callback_count_le (events : list Event) :
  (callback_count events <= length events)%nat.
Proof. apply filter_length_le. Qed.

Lemma timeout_count_le (events : list Event) :
  (timeout_count events <= callback_count events)%nat.
Proof. apply filter_length_sub. intros e. destruct e; simpl; congruence. Qed.

Lemma count_app (p : Event -> bool) (l l' : list Event) :
  length (filter p (l ++ l')) = (length (filter p l) + length (filter p l'))%nat.
Proof. rewrite filter_app, length_app. reflexivity. Qed.

(** The timed samples are fewer than the callbacks exactly when a
    callback was an 'error' or a 'timeout'. *)
Lemma timed_count_lt (events : list Event) :
  (timed_count events < callback_count events)%nat <->
  exists e, In e events /\ classify e = Some UntimedFailure.
Proof.
  unfold timed_count, callback_count.
  induction events as [|e events IH]; simpl.
  - split; [lia | intros (e & [] & _)].
  - pose proof (timed_count_le events) as Hle.
    unfold timed_count, callback_count in Hle.
    destruct e as [id [c|]|id|id|id]; simpl.
    + rewrite <- Nat.succ_lt_mono, IH. split.
      * intros (e & Hin & He). exists e. split; [right; exact Hin | exact He].
      * intros (e & [<-|Hin] & He).
        -- simpl in He. destruct ((200 <=? c) && (c <? 400)); discriminate.
        -- exists e. split; assumption.
    + rewrite <- Nat.succ_lt_mono, IH. split.
      * intros (e & Hin & He). exists e. split; [right; exact Hin | exact He].
      * intros (e & [<-|Hin] & He); [discriminate|].
        exists e. split; assumption.
    + split; [|lia]. intros _. eexists. split; [left; reflexivity|reflexivity].
    + split; [|lia]. intros _. eexists. split; [left; reflexivity|reflexivity].
    + rewrite IH. split.
      * intros (e & Hin & He). exists e. split; [right; exact Hin | exact He].
      * intros (e & [<-|Hin] & He); [discriminate|].
        exists e. split; assumption.
Qed.

Lemma classify_success (e : Event) :
  classify e = Some TimedSuccess <-> is_success e = true.
Proof.
  destruct e as [id [c|]|id|id|id]; unfold classify, is_success;
    try (split; discriminate).
  rewrite status_ok_range.
  destruct ((200 <=? c) && (c <? 400)); split; (reflexivity || discriminate).
Qed.

Lemma classify_callback (e : Event) :
  is_callback e = true <-> classify e <> None.
Proof.
  destruct e as [id [c|]|id|id|id]; simpl; try (split; congruence).
  destruct ((200 <=? c) && (c <? 400)); split; congruence.
Qed.

Section Callbacks.

Variable clock : nat -> Z.
Variable request_ok : bool -> RequestOptions.t -> bool.
Variable options : BenchmarkOptions.t.
Variable urlObj : URLRecord.t.
Variable startTime : Z.

Lemma deliver_inv (e : Event) (w w' : World) :
  deliver clock request_ok options urlObj startTime e w = Some w' ->
  exists req rest,
    take (event_id e) (in_flight w) = Some (req, rest) /\
    deliverable e req = true /\
    w' = if is_callback e
         then exec (makeRequest clock request_ok options urlObj startTime)
                (committed clock options startTime e (req_start req)
                   (detach e rest w))
         else detach e rest w.
Proof.
  unfold deliver. intros H.
  destruct (take (event_id e) (in_flight w)) as [[req rest]|];
    [|discriminate].
  destruct (deliverable e req) eqn:Ed; [|discriminate].
  exists req, rest. split; [reflexivity|]. split; [exact Ed|].
  rewrite handler_exec in H. unfold detach. congruence.
Qed.

(** An event that names an open request the module can do this with
    can be delivered. *)
Lemma deliver_enabled (e : Event) (req : ClientRequest) (w : World) :
  NoDup (map request_id (in_flight w)) ->
  In req (in_flight w) -> event_id e = request_id req ->
  deliverable e req = true ->
  exists w', deliver clock request_ok options urlObj startTime e w = Some w'.
Proof.
  intros Hnd Hin He Hd. unfold deliver. rewrite He.
  destruct (take_some req (in_flight w) Hin) as (found & rest & Htake).
  rewrite Htake.
  assert (Hsame : found = req).
  { destruct (take_spec _ _ _ _ Htake) as (_ & Hfin & Hfid & Hperm & _).
    destruct (take_unique _ _ _ _ Hnd Htake) as (_ & Hnot).
    assert (Hin' : In req (found :: rest))
      by (eapply Permutation_in; [exact Hperm | exact Hin]).
    destruct Hin' as [Heq|Hin']; [exact Heq|].
    exfalso. apply Hnot. apply in_map_iff. exists req.
    split; [reflexivity | exact Hin']. }
  rewrite Hsame in *. rewrite Hd. eexists. reflexivity.
Qed.

Lemma detach_fields (e : Event) (rest : list ClientRequest) (w : World) :
  latencies (detach e rest w) = latencies w /\
  successCount (detach e rest w) = successCount w /\
  failCount (detach e rest w) = failCount w /\
  activeConnections (detach e rest w) = activeConnections w /\
  promise (detach e rest w) = promise w /\
  clock_reads (detach e rest w) = clock_reads w /\
  issued (detach e rest w) = issued w /\
  reported (detach e rest w) = reported w /\
  in_flight (detach e rest w) = (if closes e then rest else in_flight w).
Proof. unfold detach. destruct (closes e); repeat split; reflexivity. Qed.

Lemma committed_effect (e : Event) (reqStart : Z) (w : World) :
  let w1 := committed clock options startTime e reqStart w in
  latencies w1
  = (if is_timed e
     then latencies w ++ [clock (clock_reads w) - reqStart]
     else latencies w) /\
  successCount w1
  = match classify e with
    | Some TimedSuccess => successCount w + 1
    | _ => successCount w
    end /\
  failCount w1
  = match classify e with
    | Some TimedSuccess => failCount w
    | None => failCount w
    | _ => failCount w + 1
    end /\
  reported w1
  = (if is_timed e
     then progress_value options startTime (clock (S (clock_reads w)))
          :: reported w
     else reported w).
Proof.
  cbv zeta. destruct e as [id [c|]|id|id|id];
    unfold committed, committed_end, committed_failure, classify, is_timed.
  - rewrite <- status_ok_range.
    destruct (status_ok (Some c)); simpl; repeat split; lia.
  - simpl. repeat split; lia.
  - simpl. repeat split; lia.
  - simpl. repeat split; lia.
  - simpl. repeat split; lia.
Qed.

(** What one event changes, by the outcome of the request. *)
Lemma deliver_effect (e : Event) (w w' : World) :
  deliver clock request_ok options urlObj startTime e w = Some w' ->
  exists req : ClientRequest,
    In req (in_flight w) /\ request_id req = event_id e /\
    deliverable e req = true /\
    match classify e with
    | Some TimedSuccess =>
        Permutation (latencies w')
          (latencies w ++ [clock (clock_reads w) - req_start req]) /\
        successCount w' = successCount w + 1 /\
        failCount w' = failCount w
    | Some TimedFailure =>
        Permutation (latencies w')
          (latencies w ++ [clock (clock_reads w) - req_start req]) /\
        successCount w' = successCount w /\
        failCount w' = failCount w + 1
    | Some UntimedFailure =>
        Permutation (latencies w') (latencies w) /\
        successCount w' = successCount w /\
        failCount w' = failCount w + 1
    | None =>
        latencies w' = latencies w /\
        successCount w' = successCount w /\
        failCount w' = failCount w
    end /\
    reported w'
    = (if is_timed e
       then progress_value options startTime (clock (S (clock_reads w)))
            :: reported w
       else reported w).
Proof.
  intros H.
  destruct (deliver_inv e w w' H) as (req & rest & Htake & Hd & ->).
  destruct (take_spec _ _ _ _ Htake) as (_ & Hin & Hid & _).
  exists req. split; [exact Hin|]. split; [exact Hid|]. split; [exact Hd|].
  set (w0 := detach e rest w).
  destruct (detach_fields e rest w)
    as (Dl & Ds & Df & _ & _ & Dr & _ & Drep & _).
  fold w0 in Dl, Ds, Df, Dr, Drep.
  set (w1 := committed clock options startTime e (req_start req) w0).
  destruct (committed_effect e (req_start req) w0) as (El & Es & Ef & Er).
  cbv zeta in El, Es, Ef, Er. fold w1 in El, Es, Ef, Er.
  rewrite Dl, Dr in El. rewrite Ds in Es. rewrite Df in Ef.
  rewrite Drep, Dr in Er.
  destruct (is_callback e) eqn:Ecb.
  - destruct (makeRequest_same_samples clock request_ok options urlObj
                startTime w1) as (Hs & Hf & Hp & Hr).
    rewrite Hs, Hf, Hr, Es, Ef, Er. rewrite El in Hp.
    split; [|reflexivity].
    destruct e as [id [c|]|id|id|id]; simpl classify in *; simpl is_timed in *;
      try discriminate Ecb;
      try (destruct ((200 <=? c) && (c <? 400)));
      (split; [exact Hp | split; reflexivity]).
  - destruct e as [id sc|id|id|id]; try discriminate Ecb.
    simpl. repeat split; reflexivity.
Qed.

(** An event settles the promise only by fulfilling it, and then it is
    a callback whose [makeRequest] called [finalize]. *)
Lemma deliver_promise (e : Event) (w w' : World) :
  deliver clock request_ok options urlObj startTime e w = Some w' ->
  promise w' = promise w \/
  (promise w = Pending /\ exists r, promise w' = Fulfilled r).
Proof.
  intros H.
  destruct (deliver_inv e w w' H) as (req & rest & _ & _ & ->).
  destruct (detach_fields e rest w) as (_ & _ & _ & _ & Dp & _).
  destruct (is_callback e).
  - destruct (committed_counters clock options startTime e (req_start req)
                (detach e rest w)) as (_ & _ & _ & Hp).
    cbv zeta in Hp.
    destruct (makeRequest_promise clock request_ok options urlObj startTime
                (committed clock options startTime e (req_start req)
                   (detach e rest w))) as [Heq|(Hpend & r & Heq)].
    + left. rewrite Heq, Hp, Dp. reflexivity.
    + right. rewrite Hp, Dp in Hpend. split; [exact Hpend|].
      exists r. exact Heq.
  - left. exact Dp.
Qed.

Lemma deliver_fulfilled (e : Event) (w w' : World) (r : BenchmarkResult.t) :
  deliver clock request_ok options urlObj startTime e w = Some w' ->
  promise w = Fulfilled r -> promise w' = Fulfilled r.
Proof.
  intros H Hr. destruct (deliver_promise e w w' H) as [Heq|(Hp & _)];
    congruence.
Qed.

(** The callback that fulfils the promise: its [makeRequest] found the
    deadline passed at the clock read [k] and the counter of active
    connections at 0, and [finalize] made the next two reads, which are
    the last of the callback. *)
Lemma deliver_resolves (e : Event) (w w' : World) (r : BenchmarkResult.t) :
  deliver clock request_ok options urlObj startTime e w = Some w' ->
  promise w = Pending -> promise w' = Fulfilled r ->
  exists k : nat,
    resolved_at clock options startTime k w' r /\
    clock_reads w' = S (S (S k)) /\
    (clock_reads w <= k)%nat /\
    activeConnections w' = 0 /\
    is_callback e = true.
Proof.
  intros H Hp Hr.
  destruct (deliver_inv e w w' H) as (req & rest & _ & _ & Hw').
  destruct (detach_fields e rest w) as (_ & _ & _ & _ & Dp & Dr & _).
  destruct (is_callback e) eqn:Ecb.
  - set (w1 := committed clock options startTime e (req_start req)
                 (detach e rest w)) in *.
    destruct (committed_counters clock options startTime e (req_start req)
                (detach e rest w)) as (_ & _ & _ & Hp1).
    destruct (committed_state clock options startTime e (req_start req)
                (detach e rest w)) as (_ & _ & Hreads & _).
    cbv zeta in Hp1, Hreads. fold w1 in Hp1, Hreads.
    rewrite Dp, Hp in Hp1. rewrite Dr in Hreads.
    rewrite Hw' in Hr.
    destruct (makeRequest_resolves clock request_ok options urlObj startTime
                w1 r Hp1 Hr) as (Hpast & Hact & Heq & Hres).
    exists (clock_reads w1). rewrite Hw', Heq. simpl.
    split; [|repeat split; (assumption || lia)].
    unfold resolved_at. simpl.
    split; [reflexivity|]. split; [exact Hpast|]. split; [lia|].
    split; [apply sort_sorted | exact Hres].
  - rewrite Hw', Dp, Hp in Hr. discriminate.
Qed.

Lemma deliver_requests (e : Event) (w w' : World) :
  requests_from options urlObj w ->
  deliver clock request_ok options urlObj startTime e w = Some w' ->
  requests_from options urlObj w'.
Proof.
  intros Hw H.
  destruct (deliver_inv e w w' H) as (req & rest & Htake & _ & ->).
  destruct (take_spec _ _ _ _ Htake) as (_ & _ & _ & _ & HP).
  assert (Hd : requests_from options urlObj (detach e rest w)).
  { unfold requests_from.
    destruct (detach_fields e rest w) as (_ & _ & _ & _ & _ & _ & _ & _ & ->).
    destruct (closes e); [apply (HP _ Hw) | exact Hw]. }
  destruct (is_callback e); [|exact Hd].
  apply makeRequest_requests. unfold requests_from.
  destruct (committed_state clock options startTime e (req_start req)
              (detach e rest w)) as (Hf & _).
  cbv zeta in Hf. rewrite Hf.
  destruct (is_timeout e); [|exact Hd].
  apply destroyed_by_Forall; [|exact Hd].
  intros q Hq. destruct (destroyed_by_fields (event_id e) q)
    as (_ & _ & -> & -> & ->). exact Hq.
Qed.

Lemma run_app (events events' : list Event) (w : World) :
  run clock request_ok options urlObj startTime (events ++ events') w
  = match run clock request_ok options urlObj startTime events w with
    | Some w1 => run clock request_ok options urlObj startTime events' w1
    | None => None
    end.
Proof.
  revert w. induction events as [|e events IH]; intros w; simpl.
  - reflexivity.
  - destruct (deliver clock request_ok options urlObj startTime e w);
      [apply IH | reflexivity].
Qed.

End Callbacks.
(** ** The start-up loop *)

Lemma exec_then (c k : M unit) (w : World) :
  exec (bind c (fun _ => k)) w
  = if throws c w then exec c w else exec k (exec c w).
Proof. unfold exec, throws, bind. destruct (c w) as [[[]|] w']; reflexivity. Qed.

Lemma throws_then (c k : M unit) (w : World) :
  throws (bind c (fun _ => k)) w
  = if throws c w then true else throws k (exec c w).
Proof. unfold exec, throws, bind. destruct (c w) as [[[]|] w']; reflexivity. Qed.

Lemma same_samples_refl (w : World) : same_samples w w.
Proof. repeat split; reflexivity. Qed.

Lemma same_samples_trans (w1 w2 w3 : World) :
  same_samples w1 w2 -> same_samples w2 w3 -> same_samples w1 w3.
Proof.
  intros (Hs & Hf & Hp & Hr) (Hs' & Hf' & Hp' & Hr').
  repeat split; try congruence. eapply perm_trans; eassumption.
Qed.

Section Loop.

Variable clock : nat -> Z.
Variable request_ok : bool -> RequestOptions.t -> bool.
Variable options : BenchmarkOptions.t.
Variable urlObj : URLRecord.t.
Variable startTime : Z.

(** What every call of [makeRequest] keeps, the loop keeps, whether it
    runs to its end or is ended by an exception. *)
Lemma start_connections_keeps (P : World -> Prop) :
  (forall w, P w ->
             P (exec (makeRequest clock request_ok options urlObj startTime) w)) ->
  forall (n : nat) (w : World),
    P w ->
    P (exec (start_connections clock request_ok options urlObj startTime n) w).
Proof.
  intros HP. induction n as [|n IH]; intros w Hw.
  - exact Hw.
  - simpl start_connections. rewrite exec_then.
    destruct (throws _ w); [|apply IH]; apply HP, Hw.
Qed.

Lemma start_connections_throws (n : nat) (w : World) :
  throws (start_connections clock request_ok options urlObj startTime n) w
  = true ->
  request_ok (isHttps urlObj) (reqOptions options urlObj) = false.
Proof.
  revert w. induction n as [|n IH]; intros w H.
  - discriminate H.
  - simpl start_connections in H. rewrite throws_then in H.
    destruct (throws (makeRequest clock request_ok options urlObj startTime) w)
      eqn:E.
    + rewrite makeRequest_throws in E.
      apply andb_prop in E. destruct E as (_ & E).
      apply negb_true_iff in E. exact E.
    + apply (IH _ H).
Qed.

Lemma start_connections_same_samples (n : nat) (w : World) :
  same_samples w
    (exec (start_connections clock request_ok options urlObj startTime n) w).
Proof.
  apply (start_connections_keeps (same_samples w)).
  - intros w' Hw'. eapply same_samples_trans; [exact Hw'|].
    apply makeRequest_same_samples.
  - apply same_samples_refl.
Qed.

Lemma start_connections_fulfilled (n : nat) (w : World)
    (r : BenchmarkResult.t) :
  promise w = Fulfilled r ->
  promise (exec (start_connections clock request_ok options urlObj startTime n)
             w)
  = Fulfilled r.
Proof.
  apply (start_connections_keeps (fun w => promise w = Fulfilled r)).
  intros w' Hw'.
  destruct (makeRequest_promise clock request_ok options urlObj startTime w')
    as [Heq|(Hp & _)]; congruence.
Qed.

(** While the counter of active connections is positive the loop does
    not call [finalize]. *)
Lemma start_connections_busy (n : nat) (w : World) :
  promise w = Pending -> 0 < activeConnections w ->
  let w' := exec (start_connections clock request_ok options urlObj
                    startTime n) w in
  promise w' = Pending /\ 0 < activeConnections w'.
Proof.
  intros Hp Ha. cbv zeta.
  apply (start_connections_keeps
           (fun w => promise w = Pending /\ 0 < activeConnections w));
    [|split; assumption].
  clear. intros w (Hp & Ha). rewrite makeRequest_exec.
  destruct (_ <=? _).
  - destruct (Z.eqb_spec (activeConnections w) 0) as [Hz|_]; [lia|].
    split; assumption.
  - destruct (request_ok _ _); simpl; split; (assumption || lia).
Qed.

Lemma start_connections_reads (n : nat) (w : World) :
  (clock_reads w
   <= clock_reads (exec (start_connections clock request_ok options urlObj
                           startTime n) w))%nat.
Proof.
  apply (start_connections_keeps
           (fun w' => (clock_reads w <= clock_reads w')%nat)); [|lia].
  intros w' Hw'.
  destruct (makeRequest_sends clock request_ok options urlObj startTime w')
    as (Hr & _). cbv zeta in Hr. lia.
Qed.

End Loop.

(** ** The executor *)

Section Executor.

Variable clock : nat -> Z.
Variable URL : string -> option URLRecord.t.
Variable request_ok : bool -> RequestOptions.t -> bool.
Variable options : BenchmarkOptions.t.

Lemma runHttpBenchmark_malformed :
  URL (BenchmarkOptions.url options) = None ->
  runHttpBenchmark clock URL request_ok options
  = with_promise Rejected (tick initial).
Proof.
  intros H. unfold runHttpBenchmark, executor, bind, Date_now. simpl.
  rewrite H. reflexivity.
Qed.

Lemma runHttpBenchmark_started (u : URLRecord.t) :
  URL (BenchmarkOptions.url options) = Some u ->
  runHttpBenchmark clock URL request_ok options
  = let loop := start_connections clock request_ok options u (clock 0%nat)
                  (Z.to_nat (BenchmarkOptions.connections options)) in
    if throws loop (tick initial)
    then reject (exec loop (tick initial))
    else exec loop (tick initial).
Proof.
  intros H. unfold runHttpBenchmark, executor, bind, Date_now. simpl.
  rewrite H. unfold throws, exec.
  destruct (start_connections _ _ _ _ _ _ _) as [[[]|] w]; reflexivity.
Qed.

(** After a malformed URL no request exists, so no event can occur. *)
Lemma malformed_run (events : list Event) (w : World) :
  URL (BenchmarkOptions.url options) = None ->
  benchmark clock URL request_ok options events = Some w ->
  events = [] /\ w = with_promise Rejected (tick initial).
Proof.
  intros Hu H. unfold benchmark in H. rewrite Hu in H.
  rewrite (runHttpBenchmark_malformed Hu) in H.
  destruct events as [|e events].
  - inversion H. split; reflexivity.
  - discriminate.
Qed.

Lemma started_run_eq (u : URLRecord.t) (events : list Event) :
  URL (BenchmarkOptions.url options) = Some u ->
  benchmark clock URL request_ok options events
  = run clock request_ok options u (clock 0%nat) events
      (runHttpBenchmark clock URL request_ok options).
Proof. intros Hu. unfold benchmark. rewrite Hu. reflexivity. Qed.

Variable u : URLRecord.t.
Hypothesis url_parses : URL (BenchmarkOptions.url options) = Some u.

(** What the start of the loop has, and every call of [makeRequest]
    and the rejection keep, the executor leaves. *)
Lemma executor_keeps (P : World -> Prop) :
  P (tick initial) ->
  (forall w, P w ->
             P (exec (makeRequest clock request_ok options u (clock 0%nat)) w)) ->
  (forall w, P w -> P (reject w)) ->
  P (runHttpBenchmark clock URL request_ok options).
Proof.
  intros Hinit Hmake Hreject. rewrite (runHttpBenchmark_started u url_parses).
  cbv zeta. destruct (throws _ _); [apply Hreject|];
    apply (start_connections_keeps clock request_ok options u (clock 0%nat) P
             Hmake), Hinit.
Qed.

Lemma executor_same_samples :
  same_samples (tick initial) (runHttpBenchmark clock URL request_ok options).
Proof.
  apply executor_keeps.
  - apply same_samples_refl.
  - intros w Hw. eapply same_samples_trans; [exact Hw|].
    apply makeRequest_same_samples.
  - intros w Hw. unfold reject. destruct (promise w); exact Hw.
Qed.

(** The four ways the executor can end: no connection was asked for;
    the first deadline check, at clock read 1, found the deadline
    passed, and the executor itself fulfilled the promise; or it sent
    a first request; or [httpModule.request] refused the first
    request, which rejected the promise. *)
Lemma executor_cases :
  let w := runHttpBenchmark clock URL request_ok options in
  (BenchmarkOptions.connections options <= 0 /\ w = tick initial) \/
  (0 < BenchmarkOptions.connections options /\
   endTime options (clock 0%nat) <= clock 1%nat /\
   promise w
   = Fulfilled (result_of options
                  (inject_Z (clock 2%nat - clock 0%nat) / 1000)%Q
                  (clock 3%nat) [] 0 0) /\
   (3 < clock_reads w)%nat) \/
  (0 < BenchmarkOptions.connections options /\
   clock 1%nat < endTime options (clock 0%nat) /\
   request_ok (isHttps u) (reqOptions options u) = true /\
   promise w = Pending /\ 0 < activeConnections w) \/
  (0 < BenchmarkOptions.connections options /\
   clock 1%nat < endTime options (clock 0%nat) /\
   request_ok (isHttps u) (reqOptions options u) = false /\
   w = with_promise Rejected
         (tick (with_activeConnections Z.succ (tick (tick initial))))).
Proof.
  cbv zeta. rewrite (runHttpBenchmark_started u url_parses). cbv zeta.
  destruct (Z.to_nat (BenchmarkOptions.connections options)) as [|n] eqn:En.
  - left. split; [lia | reflexivity].
  - right. assert (Hpos : 0 < BenchmarkOptions.connections options) by lia.
    simpl start_connections. rewrite throws_then, exec_then.
    rewrite makeRequest_throws, makeRequest_exec.
    change (clock_reads (tick initial)) with 1%nat.
    change (activeConnections (tick initial)) with 0.
    destruct (Z.leb_spec (endTime options (clock 0%nat)) (clock 1%nat))
      as [Hpast|Hbefore].
    + left. split; [exact Hpos|]. split; [exact Hpast|].
      simpl negb. simpl andb. cbv iota.
      change (0 =? 0) with true. cbv iota.
      rewrite finalize_exec. cbn [promise tick initial]. cbv zeta.
      set (r := result_at clock options (clock 0%nat)
                  (clock_reads (tick (tick initial))) (tick (tick initial))).
      set (w1 := with_promise (Fulfilled r)
                   (tick (with_latencies sort (tick (tick (tick initial)))))).
      assert (Hr : promise
                     (exec (start_connections clock request_ok options u
                              (clock 0%nat) n) w1) = Fulfilled r).
      { apply start_connections_fulfilled. reflexivity. }
      pose proof (start_connections_reads clock request_ok options u
                    (clock 0%nat) n w1) as Hreads.
      change (clock_reads w1) with 4%nat in Hreads.
      destruct (throws _ w1).
      * unfold reject. rewrite Hr. split; [exact Hr | lia].
      * split; [exact Hr | lia].
    + right. simpl negb.
      destruct (request_ok (isHttps u) (reqOptions options u)) eqn:Eok.
      * left. split; [exact Hpos|]. split; [exact Hbefore|].
        split; [reflexivity|]. simpl andb. cbv iota.
        set (w1 := send _ _ _ _ _).
        destruct (start_connections_busy clock request_ok options u
                    (clock 0%nat) n w1) as (Hp & Ha);
          [reflexivity | simpl; lia |].
        cbv zeta in Hp, Ha.
        destruct (throws _ w1) eqn:Et.
        -- apply start_connections_throws in Et. congruence.
        -- split; assumption.
      * right. split; [exact Hpos|]. split; [exact Hbefore|].
        split; reflexivity.
Qed.

End Executor.
(** ** Whole runs *)

Section Reachable.

Variable clock : nat -> Z.
Variable URL : string -> option URLRecord.t.
Variable request_ok : bool -> RequestOptions.t -> bool.
Variable options : BenchmarkOptions.t.
Variable u : URLRecord.t.
Hypothesis url_parses : URL (BenchmarkOptions.url options) = Some u.

Lemma benchmark_snoc (events : list Event) (e : Event) :
  benchmark clock URL request_ok options (events ++ [e])
  = match benchmark clock URL request_ok options events with
    | Some w => deliver clock request_ok options u (clock 0%nat) e w
    | None => None
    end.
Proof.
  rewrite !(started_run_eq clock URL request_ok options u _ url_parses).
  rewrite run_app.
  destruct (run clock request_ok options u (clock 0%nat) events _) as [w|];
    [|reflexivity].
  simpl. destruct (deliver clock request_ok options u (clock 0%nat) e w);
    reflexivity.
Qed.

(** Induction on the events of a run, from the state the executor
    leaves. *)
Lemma benchmark_ind (P : list Event -> World -> Prop) :
  P [] (runHttpBenchmark clock URL request_ok options) ->
  (forall (events : list Event) (e : Event) (w w' : World),
     benchmark clock URL request_ok options events = Some w ->
     P events w ->
     deliver clock request_ok options u (clock 0%nat) e w = Some w' ->
     P (events ++ [e]) w') ->
  forall (events : list Event) (w : World),
    benchmark clock URL request_ok options events = Some w -> P events w.
Proof.
  intros Hinit Hstep events.
  induction events as [|e events IH] using rev_ind; intros w Hrun.
  - rewrite (started_run_eq clock URL request_ok options u _ url_parses)
      in Hrun.
    simpl in Hrun. inversion Hrun; subst. exact Hinit.
  - rewrite benchmark_snoc in Hrun.
    destruct (benchmark clock URL request_ok options events) as [w0|] eqn:H0;
      [|discriminate].
    apply (Hstep events e w0 w H0 (IH w0 eq_refl) Hrun).
Qed.

(** A property of the state that holds when the executor starts its
    loop, and that [makeRequest], the rejection of the promise and
    every event keep, holds after any run. *)
Lemma reachable_ind (P : World -> Prop) :
  P (tick initial) ->
  (forall w, P w ->
             P (exec (makeRequest clock request_ok options u (clock 0%nat)) w)) ->
  (forall w, P w -> P (reject w)) ->
  (forall e req rest w,
     P w -> take (event_id e) (in_flight w) = Some (req, rest) ->
     deliverable e req = true ->
     P (committed clock options (clock 0%nat) e (req_start req)
          (detach e rest w))) ->
  forall (events : list Event) (w : World),
    benchmark clock URL request_ok options events = Some w -> P w.
Proof.
  intros Hinit Hmake Hreject Hcommit.
  apply (benchmark_ind (fun _ w => P w)).
  - apply (executor_keeps clock URL request_ok options u url_parses P);
      assumption.
  - intros events e w w' _ Hw Hd.
    destruct (deliver_inv clock request_ok options u (clock 0%nat) e w w' Hd)
      as (req & rest & Htake & Hdel & ->).
    pose proof (Hcommit e req rest w Hw Htake Hdel) as Hc.
    destruct (is_callback e) eqn:Ecb.
    + apply Hmake, Hc.
    + destruct e; try discriminate Ecb. exact Hc.
Qed.

(** The numbers of the open requests. *)
Lemma run_numbered (events : list Event) (w : World) :
  benchmark clock URL request_ok options events = Some w -> numbered w.
Proof.
  revert events w. apply reachable_ind.
  - split; constructor.
  - apply makeRequest_numbered.
  - intros w Hw. unfold reject. destruct (promise w); exact Hw.
  - intros e req rest w (Hnd & Hlt) Htake _.
    destruct (take_unique _ _ _ _ Hnd Htake) as (Hnd' & _).
    destruct (take_spec _ _ _ _ Htake) as (_ & _ & _ & _ & HP).
    destruct (HP _ Hlt) as (_ & Hlt').
    assert (Hd : numbered (detach e rest w)).
    { unfold numbered, detach. destruct (closes e); simpl; split; assumption. }
    destruct Hd as (Hd1 & Hd2). unfold numbered.
    destruct (committed_state clock options (clock 0%nat) e (req_start req)
                (detach e rest w)) as (Hin & Hiss & _).
    cbv zeta in Hin, Hiss. rewrite Hin, Hiss.
    destruct (is_timeout e); [|split; assumption]. split.
    + rewrite destroyed_by_ids. exact Hd1.
    + apply destroyed_by_Forall; [|exact Hd2].
      intros q Hq. destruct (destroyed_by_fields (event_id e) q) as (-> & _).
      exact Hq.
Qed.

(** The requests are the ones [makeRequest] builds, and one exists only
    if [httpModule.request] accepts them. *)
Lemma run_requests (events : list Event) (w : World) :
  benchmark clock URL request_ok options events = Some w ->
  requests_from options u w /\
  ((0 < issued w)%nat ->
   request_ok (isHttps u) (reqOptions options u) = true) /\
  (request_ok (isHttps u) (reqOptions options u) = false ->
   in_flight w = []).
Proof.
  revert events w.
  apply (reachable_ind
           (fun w => requests_from options u w /\
                     ((0 < issued w)%nat ->
                      request_ok (isHttps u) (reqOptions options u) = true) /\
                     (request_ok (isHttps u) (reqOptions options u) = false ->
                      in_flight w = []))).
  - split; [constructor|]. split; [simpl; lia | reflexivity].
  - intros w (Hreq & Hiss & Hnone).
    split; [apply makeRequest_requests, Hreq|].
    destruct (makeRequest_sends clock request_ok options u (clock 0%nat) w)
      as (_ & [(Hin & Hi & _)|[(Hin & Hi & _ & _ & _ & Hok)|(Hin & Hi & _)]]);
      rewrite Hin, Hi.
    + split; assumption.
    + split; [intros _; exact Hok | congruence].
    + split; assumption.
  - intros w Hw. unfold reject. destruct (promise w); exact Hw.
  - intros e req rest w (Hreq & Hiss & Hnone) Htake _.
    destruct (take_spec _ _ _ _ Htake) as (_ & Hin & _ & _ & HP).
    assert (Hok : request_ok (isHttps u) (reqOptions options u) = true).
    { destruct (request_ok (isHttps u) (reqOptions options u)) eqn:E;
        [reflexivity|].
      rewrite (Hnone eq_refl) in Hin. destruct Hin. }
    destruct (committed_state clock options (clock 0%nat) e (req_start req)
                (detach e rest w)) as (Hf & Hi & _).
    cbv zeta in Hf, Hi.
    destruct (detach_fields e rest w)
      as (_ & _ & _ & _ & _ & _ & Di & _ & Df).
    split; [|split].
    + unfold requests_from. rewrite Hf, Df.
      assert (Hd : Forall (fun req => req_options req = reqOptions options u /\
                                      secure req = isHttps u /\
                                      written req = request_body options)
                     (if closes e then rest else in_flight w)).
      { destruct (closes e); [apply (HP _ Hreq) | exact Hreq]. }
      destruct (is_timeout e); [|exact Hd].
      apply destroyed_by_Forall; [|exact Hd].
      intros q Hq. destruct (destroyed_by_fields (event_id e) q)
        as (_ & _ & -> & -> & ->). exact Hq.
    + intros _. exact Hok.
    + congruence.
Qed.

(** The counters follow the events: the successes are the responses
    with a status in [200, 400), the failures the other callbacks; the
    latency array and the reports have one entry per response read to
    its end. *)
Lemma run_counts (events : list Event) (w : World) :
  benchmark clock URL request_ok options events = Some w ->
  successCount w = Z.of_nat (success_count events) /\
  failCount w = Z.of_nat (callback_count events - success_count events) /\
  length (latencies w) = timed_count events /\
  length (reported w) = timed_count events.
Proof.
  revert events w. apply benchmark_ind.
  - destruct (executor_same_samples clock URL request_ok options u url_parses)
      as (Hs & Hf & Hp & Hr).
    apply Permutation_nil_l in Hp.
    rewrite Hs, Hf, Hp, Hr. repeat split; reflexivity.
  - intros events e w w' _ (Hs & Hf & Hl & Hr) Hd.
    destruct (deliver_effect clock request_ok options u (clock 0%nat) e w w' Hd)
      as (req & _ & _ & _ & Hclass & Hrep).
    pose proof (success_count_le events) as Hle1.
    pose proof (timed_count_le events) as Hle2.
    unfold success_count, callback_count, timed_count in *.
    rewrite !count_app. simpl filter.
    pose proof (classify_success e) as Hcs.
    pose proof (classify_callback e) as Hcc.
    rewrite Hrep.
    destruct (classify e) as [[| |]|] eqn:Ec.
    + destruct Hclass as (Hp & Hs' & Hf').
      assert (Es : is_success e = true) by (apply Hcs; reflexivity).
      assert (Et : is_timed e = true) by (apply success_is_timed, Es).
      assert (Eb : is_callback e = true) by (apply timed_is_callback, Et).
      rewrite Es, Et, Eb. rewrite (Permutation_length Hp), length_app.
      simpl length. repeat split; lia.
    + destruct Hclass as (Hp & Hs' & Hf').
      assert (Es : is_success e = false).
      { destruct (is_success e) eqn:E; [|reflexivity].
        destruct Hcs as (_ & Hcs). discriminate (Hcs eq_refl). }
      assert (Et : is_timed e = true).
      { destruct e as [id [c|]|id|id|id]; simpl in Ec |- *;
          try discriminate; reflexivity. }
      assert (Eb : is_callback e = true) by (apply timed_is_callback, Et).
      rewrite Es, Et, Eb. rewrite (Permutation_length Hp), length_app.
      simpl length. repeat split; lia.
    + destruct Hclass as (Hp & Hs' & Hf').
      assert (Es : is_success e = false).
      { destruct (is_success e) eqn:E; [|reflexivity].
        destruct Hcs as (_ & Hcs). discriminate (Hcs eq_refl). }
      assert (Et : is_timed e = false).
      { destruct e as [id [c|]|id|id|id]; simpl in Ec |- *;
          try discriminate; try reflexivity.
        destruct ((200 <=? c) && (c <? 400)); discriminate. }
      assert (Eb : is_callback e = true) by (apply Hcc; discriminate).
      rewrite Es, Et, Eb. rewrite (Permutation_length Hp).
      simpl length. repeat split; lia.
    + destruct Hclass as (Hp & Hs' & Hf').
      assert (Eb : is_callback e = false).
      { destruct (is_callback e) eqn:E; [|reflexivity].
        destruct Hcc as (Hcc & _). exfalso. apply (Hcc eq_refl). reflexivity. }
      assert (Et : is_timed e = false).
      { destruct (is_timed e) eqn:E; [|reflexivity].
        apply timed_is_callback in E. congruence. }
      assert (Es : is_success e = false).
      { destruct (is_success e) eqn:E; [|reflexivity].
        apply success_is_timed in E. congruence. }
      rewrite Es, Et, Eb, Hp. simpl length. repeat split; lia.
Qed.

(** Whatever the clock does, a fulfilled promise holds a record built
    by [finalize]. *)
Lemma run_fulfilled (events : list Event) (w : World)
    (r : BenchmarkResult.t) :
  benchmark clock URL request_ok options events = Some w ->
  promise w = Fulfilled r ->
  exists d date l s f, r = result_of options d date l s f.
Proof.
  intros Hrun. revert r.
  apply (reachable_ind
           (fun w => forall r, promise w = Fulfilled r ->
              exists d date l s f, r = result_of options d date l s f))
    with (events := events); [| | | |exact Hrun].
  - intros r Hr. discriminate Hr.
  - intros w0 IH r. rewrite makeRequest_exec.
    destruct (_ <=? _).
    + destruct (_ =? _).
      * rewrite finalize_exec. cbn [promise tick].
        destruct (promise w0) as [|r0|] eqn:Ep; simpl; rewrite ?Ep;
          intros Hr; try discriminate Hr.
        -- inversion Hr; subst. unfold result_at. repeat eexists.
        -- apply IH. exact Hr.
      * simpl. apply IH.
    + destruct (request_ok _ _); simpl; apply IH.
  - intros w0 IH r. unfold reject.
    destruct (promise w0) eqn:Ep; simpl; rewrite ?Ep; try discriminate.
    apply IH.
  - intros e req rest w0 IH Htake _ r.
    destruct (committed_counters clock options (clock 0%nat) e
                (req_start req) (detach e rest w0)) as (_ & _ & _ & Hp).
    destruct (detach_fields e rest w0) as (_ & _ & _ & _ & Dp & _).
    cbv zeta in Hp. rewrite Hp, Dp. apply IH.
Qed.

End Reachable.
(** ** Completed runs *)

Section Completion.

Variable clock : nat -> Z.
Variable URL : string -> option URLRecord.t.
Variable request_ok : bool -> RequestOptions.t -> bool.
Variable options : BenchmarkOptions.t.

Lemma completion_started (u : URLRecord.t) (events : list Event) (w : World) :
  URL (BenchmarkOptions.url options) = Some u ->
  benchmark clock URL request_ok options events = Some w ->
  forall r : BenchmarkResult.t,
    promise w = Fulfilled r ->
    exists (done : list Event) (w1 : World) (k : nat),
      completed_by clock URL request_ok options events done w1 r /\
      resolved_at clock options (clock 0%nat) k w1 r /\
      (done = [] -> k = 1%nat) /\
      (done <> [] ->
       clock_reads w1 = S (S (S k)) /\ activeConnections w1 = 0).
Proof.
  intros Hu. revert events w.
  apply (benchmark_ind clock URL request_ok options u Hu
           (fun events w =>
              forall r, promise w = Fulfilled r ->
              exists done w1 k,
                completed_by clock URL request_ok options events done w1 r /\
                resolved_at clock options (clock 0%nat) k w1 r /\
                (done = [] -> k = 1%nat) /\
                (done <> [] ->
                 clock_reads w1 = S (S (S k)) /\ activeConnections w1 = 0))).
  - intros r Hr.
    destruct (executor_same_samples clock URL request_ok options u Hu)
      as (Hs & Hf & Hp & _).
    apply Permutation_nil_l in Hp. simpl in Hs, Hf.
    destruct (executor_cases clock URL request_ok options u Hu)
      as [(_ & Hw)|[(_ & Hpast & Hprom & Hreads)|[(_ & _ & _ & Hprom & _)
         |(_ & _ & _ & Hw)]]]; cbv zeta in *.
    + rewrite Hw in Hr. discriminate Hr.
    + exists [], (runHttpBenchmark clock URL request_ok options), 1%nat.
      split; [|split; [|split]].
      * split; [exists []; reflexivity|]. split.
        -- rewrite (started_run_eq clock URL request_ok options u [] Hu).
           reflexivity.
        -- split; [exact Hr|]. intros before e H.
           destruct before; discriminate H.
      * unfold resolved_at. split; [exact Hr|]. split; [exact Hpast|].
        split; [exact Hreads|]. rewrite Hp, Hs, Hf.
        split; [constructor|]. congruence.
      * reflexivity.
      * intros H. congruence.
    + congruence.
    + rewrite Hw in Hr. discriminate Hr.
  - intros events e w w' Hrun IH Hd r Hr.
    destruct (deliver_promise clock request_ok options u (clock 0%nat) e w w' Hd)
      as [Heq|(Hp & _)].
    + rewrite Heq in Hr.
      destruct (IH r Hr)
        as (done & w1 & k & ((late & Hlate) & Hc) & Hres & H0 & H1).
      exists done, w1, k. split; [|split; [|split]]; try assumption.
      split; [|exact Hc]. exists (late ++ [e]).
      rewrite Hlate, app_assoc. reflexivity.
    + destruct (deliver_resolves clock request_ok options u (clock 0%nat)
                  e w w' r Hd Hp Hr) as (k & Hres & Hreads & _ & Hact & _).
      exists (events ++ [e]), w', k. split; [|split; [|split]].
      * split; [exists []; rewrite app_nil_r; reflexivity|]. split.
        -- rewrite (benchmark_snoc clock URL request_ok options u Hu), Hrun.
           exact Hd.
        -- split; [exact Hr|]. intros before e' H.
           apply app_inj_tail in H. destruct H as (<- & _).
           exists w. split; assumption.
      * exact Hres.
      * intros H. destruct events; discriminate H.
      * intros _. split; assumption.
Qed.

(** The facts every statement about a completed run starts from: when
    the promise of a run is fulfilled, the first events of the run
    completed it, and the record is the one [finalize] built from the
    counters and the array as they were then. *)
Lemma completion (events : list Event) (w : World) (r : BenchmarkResult.t) :
  benchmark clock URL request_ok options events = Some w ->
  promise w = Fulfilled r ->
  exists (done : list Event) (w1 : World) (k : nat),
    completed_by clock URL request_ok options events done w1 r /\
    resolved_at clock options (clock 0%nat) k w1 r /\
    (done = [] -> k = 1%nat) /\
    (done <> [] ->
     clock_reads w1 = S (S (S k)) /\ activeConnections w1 = 0).
Proof.
  intros Hrun Hr.
  destruct (URL (BenchmarkOptions.url options)) as [u|] eqn:Hu.
  - apply (completion_started u events w Hu Hrun r Hr).
  - destruct (malformed_run clock URL request_ok options events w Hu Hrun)
      as [_ ->].
    discriminate Hr.
Qed.

(** The counters of any run, whether its URL parsed or not. *)
Lemma counts (events : list Event) (w : World) :
  benchmark clock URL request_ok options events = Some w ->
  successCount w = Z.of_nat (success_count events) /\
  failCount w = Z.of_nat (callback_count events - success_count events) /\
  length (latencies w) = timed_count events /\
  length (reported w) = timed_count events.
Proof.
  intros Hrun.
  destruct (URL (BenchmarkOptions.url options)) as [u|] eqn:Hu.
  - apply (run_counts clock URL request_ok options u Hu events w Hrun).
  - destruct (malformed_run clock URL request_ok options events w Hu Hrun)
      as [-> ->].
    repeat split; reflexivity.
Qed.

Variable u : URLRecord.t.
Hypothesis url_parses : URL (BenchmarkOptions.url options) = Some u.

(** Rejection happens in the executor or never. *)
Lemma run_rejected (events : list Event) (w : World) :
  benchmark clock URL request_ok options events = Some w ->
  promise w = Rejected ->
  promise (runHttpBenchmark clock URL request_ok options) = Rejected.
Proof.
  revert events w.
  apply (benchmark_ind clock URL request_ok options u url_parses
           (fun _ w => promise w = Rejected ->
                       promise (runHttpBenchmark clock URL request_ok options)
                       = Rejected)).
  - intros H. exact H.
  - intros events e w w' _ IH Hd Hr.
    destruct (deliver_promise clock request_ok options u (clock 0%nat) e w w' Hd)
      as [Heq|(_ & r & Heq)]; [|congruence].
    apply IH. congruence.
Qed.

(** When [httpModule.request] refuses the options no request ever
    exists, and no event can occur. *)
Lemma refused_run (events : list Event) (w : World) :
  request_ok (isHttps u) (reqOptions options u) = false ->
  benchmark clock URL request_ok options events = Some w ->
  events = [] /\ issued w = 0%nat /\ in_flight w = [].
Proof.
  intros Hno Hrun.
  destruct (run_requests clock URL request_ok options u url_parses events w
              Hrun) as (_ & Hiss & Hnone).
  split; [|split; [|exact (Hnone Hno)]].
  - destruct events as [|e events]; [reflexivity|]. exfalso.
    rewrite (started_run_eq clock URL request_ok options u _ url_parses)
      in Hrun.
    simpl in Hrun.
    destruct (run_requests clock URL request_ok options u url_parses []
                (runHttpBenchmark clock URL request_ok options))
      as (_ & _ & Hnone0).
    { rewrite (started_run_eq clock URL request_ok options u _ url_parses).
      reflexivity. }
    unfold deliver in Hrun. rewrite (Hnone0 Hno) in Hrun. discriminate Hrun.
  - destruct (issued w); [reflexivity|].
    assert (request_ok (isHttps u) (reqOptions options u) = true)
      by (apply Hiss; lia).
    congruence.
Qed.

(** No listener throws: a listener belongs to a request, and a request
    exists only if [httpModule.request] accepts the options, which are
    the same for every request. *)
Lemma listeners_return (events : list Event) (w : World) (e : Event)
    (req : ClientRequest) (rest : list ClientRequest) :
  benchmark clock URL request_ok options events = Some w ->
  take (event_id e) (in_flight w) = Some (req, rest) ->
  throws (handler clock request_ok options u (clock 0%nat) e (req_start req))
         (detach e rest w) = false.
Proof.
  intros Hrun Htake.
  destruct (run_requests clock URL request_ok options u url_parses events w
              Hrun) as (_ & _ & Hnone).
  destruct (take_spec _ _ _ _ Htake) as (_ & Hin & _).
  assert (Hok : request_ok (isHttps u) (reqOptions options u) = true).
  { destruct (request_ok (isHttps u) (reqOptions options u)) eqn:E;
      [reflexivity|].
    rewrite (Hnone eq_refl) in Hin. destruct Hin. }
  rewrite handler_throws, makeRequest_throws, Hok.
  rewrite !andb_false_r. reflexivity.
Qed.

Hypothesis accepted : request_ok (isHttps u) (reqOptions options u) = true.

Lemma executor_returns :
  runHttpBenchmark clock URL request_ok options
  = exec (start_connections clock request_ok options u (clock 0%nat)
            (Z.to_nat (BenchmarkOptions.connections options)))
         (tick initial).
Proof.
  rewrite (runHttpBenchmark_started clock URL request_ok options u url_parses).
  cbv zeta. destruct (throws _ _) eqn:E; [|reflexivity].
  apply start_connections_throws in E. congruence.
Qed.


(** The accounting of a run whose options are accepted.  The requests
    accepted are the callbacks run plus the counter of active
    connections; the requests open differ from that counter by the
    timeouts, whose requests stay open while the counter goes down,
    and by the responses cut off, whose requests are closed while the
    counter stays. *)
Lemma run_accounting (events : list Event) (w : World) :
  benchmark clock URL request_ok options events = Some w ->
  Z.of_nat (issued w)
  = Z.of_nat (callback_count events) + activeConnections w /\
  Z.of_nat (length (in_flight w)) + Z.of_nat (aborted_count events)
  = activeConnections w + Z.of_nat (timeout_count events).
Proof.
  assert (Hmake : forall (w0 : World) (a b : Z),
            Z.of_nat (issued w0) = a + activeConnections w0 ->
            Z.of_nat (length (in_flight w0)) + b = activeConnections w0 + 0 ->
            let w' := exec (makeRequest clock request_ok options u
                              (clock 0%nat)) w0 in
            Z.of_nat (issued w') = a + activeConnections w' /\
            Z.of_nat (length (in_flight w')) + b = activeConnections w' + 0).
  { intros w0 a b Hi Hl. cbv zeta.
    destruct (makeRequest_sends clock request_ok options u (clock 0%nat) w0)
      as (_ & [(Hin & Hiss & Hact & _)|[(Hin & Hiss & Hact & _)
         |(_ & _ & _ & _ & Hno)]]); [| |congruence];
      rewrite Hin, Hiss, Hact; simpl length; lia. }
  revert events w.
  apply (benchmark_ind clock URL request_ok options u url_parses
           (fun events w =>
              Z.of_nat (issued w)
              = Z.of_nat (callback_count events) + activeConnections w /\
              Z.of_nat (length (in_flight w)) + Z.of_nat (aborted_count events)
              = activeConnections w + Z.of_nat (timeout_count events))).
  - rewrite executor_returns.
    apply (start_connections_keeps clock request_ok options u (clock 0%nat)
             (fun w => Z.of_nat (issued w) = Z.of_nat (callback_count [])
                                             + activeConnections w /\
                       Z.of_nat (length (in_flight w))
                       + Z.of_nat (aborted_count [])
                       = activeConnections w + Z.of_nat (timeout_count [])));
      [|split; reflexivity].
    intros w0 (Hi & Hl). apply Hmake; assumption.
  - intros events e w w' _ (Hi & Hl) Hd.
    destruct (deliver_inv clock request_ok options u (clock 0%nat) e w w' Hd)
      as (req & rest & Htake & _ & ->).
    destruct (take_spec _ _ _ _ Htake) as (Hlen & _).
    destruct (detach_fields e rest w)
      as (_ & _ & _ & Da & _ & _ & Di & _ & Df).
    destruct (committed_counters clock options (clock 0%nat) e (req_start req)
                (detach e rest w)) as (_ & _ & Ca & _).
    destruct (committed_state clock options (clock 0%nat) e (req_start req)
                (detach e rest w)) as (Cf & Ci & _).
    cbv zeta in Ca, Cf, Ci. rewrite Da in Ca. rewrite Di in Ci.
    rewrite Df in Cf.
    unfold callback_count, aborted_count, timeout_count in *.
    rewrite !count_app. simpl filter.
    destruct e as [id sc|id|id|id];
      cbn [is_callback is_timeout closes event_id negb length] in Ca, Cf |- *.
    + destruct (Hmake (committed clock options (clock 0%nat)
                         (ResponseEnd id sc) (req_start req)
                         (detach (ResponseEnd id sc) rest w))
                  (Z.of_nat (length (filter is_callback events)) + 1)
                  (Z.of_nat (length (filter (fun e => negb (is_callback e))
                                       events))
                   - Z.of_nat (length (filter is_timeout events))))
        as (Hi' & Hl'); [rewrite Ci, Ca; lia | rewrite Cf, Ca; lia |].
      cbv zeta in Hi', Hl'. split; lia.
    + destruct (Hmake (committed clock options (clock 0%nat)
                         (RequestError id) (req_start req)
                         (detach (RequestError id) rest w))
                  (Z.of_nat (length (filter is_callback events)) + 1)
                  (Z.of_nat (length (filter (fun e => negb (is_callback e))
                                       events))
                   - Z.of_nat (length (filter is_timeout events))))
        as (Hi' & Hl'); [rewrite Ci, Ca; lia | rewrite Cf, Ca; lia |].
      cbv zeta in Hi', Hl'. split; lia.
    + destruct (Hmake (committed clock options (clock 0%nat)
                         (RequestTimeout id) (req_start req)
                         (detach (RequestTimeout id) rest w))
                  (Z.of_nat (length (filter is_callback events)) + 1)
                  (Z.of_nat (length (filter (fun e => negb (is_callback e))
                                       events))
                   - Z.of_nat (length (filter is_timeout events)) - 1))
        as (Hi' & Hl');
        [rewrite Ci, Ca; lia | rewrite Cf, Ca, length_map; lia |].
      cbv zeta in Hi', Hl'. split; lia.
    + cbn [committed] in Ca, Cf, Ci. rewrite Ci, Cf, Ca. split; lia.
Qed.

End Completion.
(** ** The record of a completed run *)

Lemma result_of_ordered (options : BenchmarkOptions.t) (d : Q) (date : Z)
    (l : list Z) (s f : Z) :
  StronglySorted Z.le l ->
  let r := result_of options d date l s f in
  exists a b c : Z,
    BenchmarkResult.p50 r = Some a /\
    BenchmarkResult.p95 r = Some b /\
    BenchmarkResult.p99 r = Some c /\
    BenchmarkResult.minLatency r <= a /\ a <= b /\ b <= c /\
    c <= BenchmarkResult.maxLatency r.
Proof.
  intros Hs. destruct l as [|x l].
  - exists 0, 0, 0. simpl. repeat split; (reflexivity || lia).
  - apply result_of_order; [exact Hs | discriminate].
Qed.

Lemma measured_duration_bound (clock : nat -> Z) (options : BenchmarkOptions.t)
    (k : nat) :
  (forall i j : nat, (i <= j)%nat -> clock i <= clock j) ->
  endTime options (clock 0%nat) <= clock k ->
  (inject_Z (BenchmarkOptions.duration options)
   <= inject_Z (clock (S k) - clock 0%nat) / 1000)%Q.
Proof.
  intros Hmono Hend. unfold endTime in Hend.
  assert (clock k <= clock (S k)) by (apply Hmono; lia).
  apply Qle_shift_div_l; [reflexivity|].
  unfold Qle. simpl. lia.
Qed.

Lemma sum_from (l : list Z) (a : Z) : fold_left Z.add l a = a + sum l.
Proof.
  unfold sum. revert a. induction l as [|x l IH]; intros a; simpl.
  - lia.
  - rewrite (IH (a + x)), (IH x). lia.
Qed.

Lemma sum_bounds (l : list Z) (a b : Z) :
  Forall (fun x => a <= x <= b) l ->
  Z.of_nat (length l) * a <= sum l <= Z.of_nat (length l) * b.
Proof.
  induction 1 as [|x l Hx _ IH].
  - unfold sum. simpl. lia.
  - unfold sum in *. simpl fold_left. rewrite sum_from. unfold sum.
    simpl length. lia.
Qed.

Lemma average_between (l : list Z) (a b : Z) :
  l <> [] ->
  Forall (fun x => a <= x <= b) l ->
  (inject_Z a <= inject_Z (sum l) / inject_Z (Z.of_nat (length l)))%Q /\
  (inject_Z (sum l) / inject_Z (Z.of_nat (length l)) <= inject_Z b)%Q.
Proof.
  intros Hne Hall.
  destruct (sum_bounds l a b Hall) as (Hlo & Hhi).
  assert (Hpos : (0 < inject_Z (Z.of_nat (length l)))%Q).
  { rewrite <- (Zlt_Qlt 0). destruct l; [congruence | simpl; lia]. }
  split.
  - apply Qle_shift_div_l; [exact Hpos|].
    rewrite <- inject_Z_mult, <- Zle_Qle. lia.
  - apply Qle_shift_div_r; [exact Hpos|].
    rewrite <- inject_Z_mult, <- Zle_Qle. lia.
Qed.

Section Facts.

Variable clock : nat -> Z.
Variable URL : string -> option URLRecord.t.
Variable request_ok : bool -> RequestOptions.t -> bool.
Variable options : BenchmarkOptions.t.

(** Everything the statements about completed runs use, in one place.
    The events [done] completed the run in the state [w1]; [k] is the
    clock read of the deadline check of the call of [makeRequest] that
    called [finalize]: the first call of the executor, or the call of
    the last callback of [done], whose last three clock reads are [k],
    [k + 1] and [k + 2]. *)
Lemma completion_facts (events : list Event) (w : World)
    (r : BenchmarkResult.t) :
  benchmark clock URL request_ok options events = Some w ->
  promise w = Fulfilled r ->
  exists (done : list Event) (w1 : World) (k : nat),
    completed_by clock URL request_ok options events done w1 r /\
    resolved_at clock options (clock 0%nat) k w1 r /\
    (successCount w1 = Z.of_nat (success_count done) /\
     failCount w1 = Z.of_nat (callback_count done - success_count done) /\
     length (latencies w1) = timed_count done) /\
    (done = [] -> k = 1%nat) /\
    (done <> [] ->
     clock_reads w1 = S (S (S k)) /\
     activeConnections w1 = 0 /\
     Z.of_nat (length (in_flight w1)) + Z.of_nat (aborted_count done)
     = Z.of_nat (timeout_count done)).
Proof.
  intros Hrun Hr.
  destruct (completion clock URL request_ok options events w r Hrun Hr)
    as (done & w1 & k & Hc & Hres & H0 & H1).
  exists done, w1, k.
  destruct Hc as (Hlate & Hdone & Hp & Hbefore).
  destruct (counts clock URL request_ok options done w1 Hdone)
    as (Hs & Hf & Hl & _).
  split; [repeat split; assumption|]. split; [exact Hres|].
  split; [repeat split; assumption|]. split; [exact H0|].
  intros Hne. destruct (H1 Hne) as (Hreads & Hact).
  split; [exact Hreads|]. split; [exact Hact|].
  destruct (URL (BenchmarkOptions.url options)) as [u|] eqn:Hu.
  - destruct (request_ok (isHttps u) (reqOptions options u)) eqn:Eok.
    + destruct (run_accounting clock URL request_ok options u Hu Eok done w1
                  Hdone) as (_ & Hacc).
      lia.
    + destruct (refused_run clock URL request_ok options u Hu done w1 Eok Hdone)
        as (Hnil & _). congruence.
  - destruct (malformed_run clock URL request_ok options done w1 Hu Hdone)
      as (Hnil & _). congruence.
Qed.

Hypothesis clock_monotone :
  forall i j : nat, (i <= j)%nat -> clock i <= clock j.

(** With a clock that does not run backwards, an executor whose first
    deadline check finds the deadline passed sends nothing. *)
Lemma executor_idle (u : URLRecord.t) :
  URL (BenchmarkOptions.url options) = Some u ->
  endTime options (clock 0%nat) <= clock 1%nat ->
  let w := runHttpBenchmark clock URL request_ok options in
  issued w = 0%nat /\ in_flight w = [] /\ activeConnections w = 0.
Proof.
  intros Hu Hpast. cbv zeta.
  assert (H : let w := runHttpBenchmark clock URL request_ok options in
              (issued w = 0%nat /\ in_flight w = [] /\
               activeConnections w = 0) /\ (1 <= clock_reads w)%nat).
  { apply (executor_keeps clock URL request_ok options u Hu
             (fun w => (issued w = 0%nat /\ in_flight w = [] /\
                        activeConnections w = 0) /\ (1 <= clock_reads w)%nat)).
    - repeat split. simpl. lia.
    - intros w ((Hi & Hf & Ha) & Hreads).
      assert (Hnow : endTime options (clock 0%nat) <= clock (clock_reads w)).
      { assert (clock 1%nat <= clock (clock_reads w))
          by (apply clock_monotone; exact Hreads).
        lia. }
      destruct (makeRequest_sends clock request_ok options u (clock 0%nat) w)
        as (Hr & [(Hin & Hiss & Hact & _)|[(_ & _ & _ & _ & Hb & _)
           |(_ & _ & _ & Hb & _)]]); cbv zeta in Hr; try lia.
      rewrite Hin, Hiss, Hact. repeat split; (assumption || lia).
    - intros w Hw. unfold reject. destruct (promise w); exact Hw. }
  apply H.
Qed.

(** A run the executor completed has no request at all. *)
Lemma completed_at_once (events : list Event) (w1 : World)
    (r : BenchmarkResult.t) :
  completed_by clock URL request_ok options events [] w1 r ->
  issued w1 = 0%nat /\ in_flight w1 = [] /\ activeConnections w1 = 0.
Proof.
  intros (_ & Hdone & Hp & _).
  destruct (URL (BenchmarkOptions.url options)) as [u|] eqn:Hu.
  - rewrite (started_run_eq clock URL request_ok options u [] Hu) in Hdone.
    simpl in Hdone. inversion Hdone as [Hw]. clear Hdone.
    rewrite <- Hw in Hp.
    destruct (executor_cases clock URL request_ok options u Hu)
      as [(_ & Hini)|[(_ & Hpast & _)|[(_ & _ & _ & Hprom & _)
         |(_ & _ & _ & Hrej)]]]; cbv zeta in *.
    + rewrite Hini in Hp. discriminate Hp.
    + apply (executor_idle u Hu Hpast).
    + congruence.
    + rewrite Hrej in Hp. discriminate Hp.
  - destruct (malformed_run clock URL request_ok options [] w1 Hu Hdone)
      as (_ & ->).
    discriminate Hp.
Qed.

Variable u : URLRecord.t.
Hypothesis url_parses : URL (BenchmarkOptions.url options) = Some u.

(** A latency is the difference of two clock reads, the later minus
    the earlier. *)
Lemma latencies_nonnegative (events : list Event) (w : World) :
  benchmark clock URL request_ok options events = Some w ->
  started_before clock w /\ Forall (fun x => 0 <= x) (latencies w).
Proof.
  revert events w.
  apply (reachable_ind clock URL request_ok options u url_parses
           (fun w => started_before clock w /\
                     Forall (fun x => 0 <= x) (latencies w))).
  - split; constructor.
  - intros w0 (Hs & Hl). split.
    + unfold started_before in *.
      destruct (makeRequest_sends clock request_ok options u (clock 0%nat) w0)
        as (Hr & [(Hin & _)|[(Hin & _ & _ & Hreads & _)|(Hin & _)]]);
        rewrite Hin.
      * eapply Forall_impl; [|exact Hs].
        intros req (j & Hj & Hq). exists j. split; [lia | exact Hq].
      * constructor.
        -- exists (S (clock_reads w0)). split; [lia | reflexivity].
        -- eapply Forall_impl; [|exact Hs].
           intros req (j & Hj & Hq). exists j. split; [lia | exact Hq].
      * eapply Forall_impl; [|exact Hs].
        intros req (j & Hj & Hq). exists j. split; [lia | exact Hq].
    + destruct (makeRequest_same_samples clock request_ok options u
                  (clock 0%nat) w0) as (_ & _ & Hp & _).
      rewrite Forall_forall in *. intros x Hx.
      apply Hl, (Permutation_in _ Hp Hx).
  - intros w0 Hw0. unfold reject. destruct (promise w0); exact Hw0.
  - intros e req rest w0 (Hs & Hl) Htake _.
    destruct (take_spec _ _ _ _ Htake) as (_ & _ & _ & _ & HP).
    destruct (HP _ Hs) as ((j & Hj & Hq) & Hrest).
    destruct (detach_fields e rest w0)
      as (Dl & _ & _ & _ & _ & Dr & _ & _ & Df).
    destruct (committed_state clock options (clock 0%nat) e (req_start req)
                (detach e rest w0)) as (Hin & _ & Hreads & _).
    destruct (committed_effect clock options (clock 0%nat) e (req_start req)
                (detach e rest w0)) as (Hlat & _).
    cbv zeta in Hin, Hreads, Hlat.
    rewrite Df in Hin. rewrite Dr in Hreads. rewrite Dl, Dr in Hlat.
    split.
    + unfold started_before. rewrite Hin.
      assert (Hd : Forall (fun q => exists j' : nat,
                             (j' < clock_reads
                                     (committed clock options (clock 0%nat) e
                                        (req_start req) (detach e rest w0)))%nat
                             /\ req_start q = clock j')
                     (if closes e then rest else in_flight w0)).
      { destruct (closes e).
        - eapply Forall_impl; [|exact Hrest].
          intros q (j' & Hj' & Hq'). exists j'. split; [lia | exact Hq'].
        - eapply Forall_impl; [|exact Hs].
          intros q (j' & Hj' & Hq'). exists j'. split; [lia | exact Hq']. }
      destruct (is_timeout e); [|exact Hd].
      apply destroyed_by_Forall; [|exact Hd].
      intros q Hq0. destruct (destroyed_by_fields (event_id e) q)
        as (_ & -> & _). exact Hq0.
    + rewrite Hlat. destruct (is_timed e); [|exact Hl].
      apply Forall_app. split; [exact Hl|].
      constructor; [|constructor].
      rewrite Hq.
      assert (clock j <= clock (clock_reads w0))
        by (apply clock_monotone; lia).
      lia.
Qed.

End Facts.

(** ** The sample runs *)

Lemma demo_clock_monotone :
  forall i j : nat, (i <= j)%nat -> demo_clock i <= demo_clock j.
Proof. intros i j H. unfold demo_clock. nia. Qed.

Lemma frozen_clock_monotone :
  forall i j : nat, (i <= j)%nat -> frozen_clock i <= frozen_clock j.
Proof. intros i j _. unfold frozen_clock. lia. Qed.

Lemma hung_clock_monotone :
  forall i j : nat, (i <= j)%nat -> hung_clock i <= hung_clock j.
Proof.
  intros i j H. unfold hung_clock.
  destruct (Nat.leb_spec i 4), (Nat.leb_spec j 4); lia.
Qed.

Lemma demo_url_parses :
  demo_URL (BenchmarkOptions.url demo_options) = Some demo_urlObj.
Proof. reflexivity. Qed.

Lemma demo_accepted :
  demo_request_ok (isHttps demo_urlObj) (reqOptions demo_options demo_urlObj)
  = true.
Proof. reflexivity. Qed.

Lemma demo_run :
  benchmark demo_clock demo_URL demo_request_ok demo_options demo_events
  = Some demo_world.
Proof. vm_compute. reflexivity. Qed.

Lemma demo_fulfilled : promise demo_world = Fulfilled demo_result.
Proof. reflexivity. Qed.

Lemma demo_start :
  benchmark demo_clock demo_URL demo_request_ok demo_options []
  = Some demo_started.
Proof. vm_compute. reflexivity. Qed.

Lemma demo_drain :
  benchmark demo_clock demo_URL demo_request_ok demo_options
    [ResponseEnd 0 (Some 200); RequestError 1; ResponseEnd 2 (Some 503)]
  = Some demo_draining.
Proof. vm_compute. reflexivity. Qed.

Lemma demo_draining_past_deadline :
  deadline_passed demo_clock demo_options (demo_clock 0%nat) demo_draining.
Proof.
  intros i Hi. change (clock_reads demo_draining) with 14%nat in Hi.
  change (endTime demo_options (demo_clock 0%nat)) with 4000.
  unfold demo_clock. nia.
Qed.

Lemma demo_late_run :
  benchmark demo_clock demo_URL demo_request_ok demo_options
    (demo_events ++ [RequestError 3])
  = Some demo_late.
Proof. vm_compute. reflexivity. Qed.

Lemma refused_first_run :
  benchmark demo_clock demo_URL demo_request_ok demo_options [RequestError 0]
  = Some refused_first.
Proof. vm_compute. reflexivity. Qed.


Lemma hung_first_run :
  benchmark hung_clock demo_URL demo_request_ok demo_options []
  = Some
      (runHttpBenchmark hung_clock demo_URL demo_request_ok demo_options).
Proof. reflexivity. Qed.

Lemma hung_timeout_run :
  benchmark hung_clock demo_URL demo_request_ok demo_options [RequestTimeout 0]
  = Some hung_timed_out.
Proof. vm_compute. reflexivity. Qed.

Lemma hung_run :
  benchmark hung_clock demo_URL demo_request_ok demo_options hung_events
  = Some hung_world.
Proof. vm_compute. reflexivity. Qed.

Lemma hung_fulfilled : promise hung_world = Fulfilled hung_result.
Proof. reflexivity. Qed.

Lemma crowded_run :
  benchmark hung_clock demo_URL demo_request_ok patient_options hung_events
  = Some crowded_world.
Proof. vm_compute. reflexivity. Qed.

Lemma failure_count_eq (events : list Event) :
  failure_count events = (callback_count events - success_count events)%nat.
Proof.
  unfold failure_count, callback_count, success_count, is_failure.
  induction events as [|e events IH]; [reflexivity|].
  pose proof (filter_length_sub is_success is_callback events
                (fun x H => timed_is_callback x (success_is_timed x H))) as Hle.
  cbn [filter].
  destruct e as [id sc|id|id|id]; cbn [is_callback is_success negb andb length].
  - destruct (status_ok sc); cbn [negb andb length]; lia.
  - lia.
  - lia.
  - exact IH.
Qed.

(** ** Specified properties *)

(** C1.  In the record of a completed run the total is the sum of the
    successes and the failures; it counts every callback run until the
    promise was fulfilled, while the latency array holds one sample per
    response read to its end.  So the number of timed samples is at
    most the total, and it is smaller exactly when some callback was an
    'error' or a 'timeout'. *)
Theorem result_request_accounting
    (clock : nat -> Z) (URL : string -> option URLRecord.t)
    (request_ok : bool -> RequestOptions.t -> bool)
    (options : BenchmarkOptions.t) (events : list Event)
    (w : World) (r : BenchmarkResult.t) :
  benchmark clock URL request_ok options events = Some w ->
  promise w = Fulfilled r ->
  exists (done : list Event) (w1 : World),
    completed_by clock URL request_ok options events done w1 r /\
    BenchmarkResult.totalRequests r
    = BenchmarkResult.successfulRequests r
      + BenchmarkResult.failedRequests r /\
    BenchmarkResult.totalRequests r = Z.of_nat (callback_count done) /\
    length (latencies w1) = timed_count done /\
    Z.of_nat (length (latencies w1)) <= BenchmarkResult.totalRequests r /\
    (Z.of_nat (length (latencies w1)) < BenchmarkResult.totalRequests r <->
     exists e, In e done /\ classify e = Some UntimedFailure).
Proof.
  intros Hrun Hr.
  destruct (completion_facts clock URL request_ok options events w r Hrun Hr)
    as (done & w1 & k & Hc & (_ & _ & _ & _ & ->) & (Hs & Hf & Hl) & _).
  exists done, w1. split; [exact Hc|]. simpl. rewrite Hs, Hf, Hl.
  pose proof (success_count_le done).
  pose proof (timed_count_le done).
  pose proof (timed_count_lt done) as Hlt.
  repeat split; try lia.
  - intros H'. apply Hlt. lia.
  - intros H'. apply Hlt in H'. lia.
Qed.

Lemma result_request_accounting_witness :
  exists (done : list Event) (w1 : World),
    completed_by demo_clock demo_URL demo_request_ok demo_options
      (demo_events ++ [RequestError 3]) done w1 demo_result /\
    BenchmarkResult.totalRequests demo_result
    = BenchmarkResult.successfulRequests demo_result
      + BenchmarkResult.failedRequests demo_result /\
    BenchmarkResult.totalRequests demo_result
    = Z.of_nat (callback_count done) /\
    length (latencies w1) = timed_count done /\
    Z.of_nat (length (latencies w1))
    <= BenchmarkResult.totalRequests demo_result /\
    (Z.of_nat (length (latencies w1))
     < BenchmarkResult.totalRequests demo_result <->
     exists e, In e done /\ classify e = Some UntimedFailure).
Proof.
  exact (result_request_accounting demo_clock demo_URL demo_request_ok
           demo_options (demo_events ++ [RequestError 3]) demo_late
           demo_result demo_late_run eq_refl).
Defined.

(** C2.  [percentile(p)] is the nearest-rank percentile of the sorted
    array: 0 when the array is empty, otherwise the element at index
    [max(0, ceil(count * p) - 1)]; on [10, 20, 30, 40, 100] it gives 30
    for 0.5 and 100 for 0.95 and 0.99.  [finalize] applies it, at these
    three values of [p], to the latency array it has just sorted. *)
Theorem percentile_nearest_rank :
  (forall p : Q, percentile [] p = Some 0) /\
  (forall (l : list Z) (p : Q),
     l <> [] ->
     percentile l p
     = nth_error l
         (Z.to_nat
            (Z.max 0 (Qceiling (inject_Z (Z.of_nat (length l)) * p) - 1)))) /\
  (percentile [10; 20; 30; 40; 100] (1 # 2) = Some 30 /\
   percentile [10; 20; 30; 40; 100] (95 # 100) = Some 100 /\
   percentile [10; 20; 30; 40; 100] (99 # 100) = Some 100) /\
  (forall (clock : nat -> Z) (options : BenchmarkOptions.t) (startTime : Z)
          (w : World),
     promise w = Pending ->
     exists r : BenchmarkResult.t,
       promise (exec (finalize clock options startTime) w) = Fulfilled r /\
       latencies (exec (finalize clock options startTime) w)
       = sort (latencies w) /\
       StronglySorted Z.le (sort (latencies w)) /\
       BenchmarkResult.p50 r = percentile (sort (latencies w)) (1 # 2) /\
       BenchmarkResult.p95 r = percentile (sort (latencies w)) (95 # 100) /\
       BenchmarkResult.p99 r = percentile (sort (latencies w)) (99 # 100)).
Proof.
  split; [|split; [|split]].
  - intros p. reflexivity.
  - intros l p Hl. apply (percentile_rank l p Hl).
  - repeat split; reflexivity.
  - intros clock options startTime w Hp.
    rewrite finalize_exec. cbv zeta. rewrite Hp.
    eexists. split; [reflexivity|].
    split; [reflexivity|]. split; [apply sort_sorted|].
    repeat split; reflexivity.
Qed.

Lemma percentile_nearest_rank_witness :
  percentile [40; 50; 60] (2 # 3)
  = nth_error [40; 50; 60]
      (Z.to_nat
         (Z.max 0
            (Qceiling (inject_Z (Z.of_nat (length [40; 50; 60])) * (2 # 3))
             - 1))) /\
  exists r : BenchmarkResult.t,
    promise (exec (finalize demo_clock demo_options 1000)
               (with_latencies (fun _ => [60; 40; 50]) initial))
    = Fulfilled r /\
    BenchmarkResult.p50 r = Some 50.
Proof.
  destruct percentile_nearest_rank as (_ & Hrank & _ & Hfinal).
  split.
  - apply Hrank. discriminate.
  - destruct (Hfinal demo_clock demo_options 1000
                (with_latencies (fun _ => [60; 40; 50]) initial) eq_refl)
      as (r & Hr & _ & _ & H50 & _).
    exists r. split; [exact Hr | exact H50].
Defined.

(** C10.  On the sorted array the percentile does not decrease when [p]
    grows, for [p1 <= p2 <= 1]; so every result, with at least one
    timed sample or with none, has
    minLatency <= p50 <= p95 <= p99 <= maxLatency. *)
Theorem percentile_monotone :
  (forall (l : list Z) (p1 p2 : Q),
     (0 < p1)%Q -> (p1 <= p2)%Q -> (p2 <= 1)%Q ->
     exists a b : Z,
       percentile (sort l) p1 = Some a /\
       percentile (sort l) p2 = Some b /\
       a <= b) /\
  (forall (clock : nat -> Z) (URL : string -> option URLRecord.t)
          (request_ok : bool -> RequestOptions.t -> bool)
          (options : BenchmarkOptions.t) (events : list Event)
          (w : World) (r : BenchmarkResult.t),
     benchmark clock URL request_ok options events = Some w ->
     promise w = Fulfilled r ->
     exists a b c : Z,
       BenchmarkResult.p50 r = Some a /\
       BenchmarkResult.p95 r = Some b /\
       BenchmarkResult.p99 r = Some c /\
       BenchmarkResult.minLatency r <= a /\ a <= b /\ b <= c /\
       c <= BenchmarkResult.maxLatency r).
Proof.
  split.
  - intros l p1 p2 _ H12 H2.
    apply percentile_mono_sorted; [apply sort_sorted | exact H12 | exact H2].
  - intros clock URL request_ok options events w r Hrun Hr.
    destruct (completion_facts clock URL request_ok options events w r Hrun Hr)
      as (done & w1 & k & _ & (_ & _ & _ & Hs & ->) & _).
    apply result_of_ordered, Hs.
Qed.

Lemma percentile_monotone_witness :
  (exists a b : Z,
     percentile (sort [30; 10; 20]) (1 # 3) = Some a /\
     percentile (sort [30; 10; 20]) (3 # 4) = Some b /\
     a <= b) /\
  (exists a b c : Z,
     BenchmarkResult.p50 demo_result = Some a /\
     BenchmarkResult.p95 demo_result = Some b /\
     BenchmarkResult.p99 demo_result = Some c /\
     BenchmarkResult.minLatency demo_result <= a /\ a <= b /\ b <= c /\
     c <= BenchmarkResult.maxLatency demo_result).
Proof.
  destruct percentile_monotone as (Hp & Hr).
  split.
  - apply Hp; [reflexivity | discriminate | discriminate].
  - apply (Hr demo_clock demo_URL demo_request_ok demo_options demo_events
             demo_world); [exact demo_run | exact demo_fulfilled].
Defined.



(** *** When the record is built *)

(** With a clock that does not run backwards: what is open when the
    promise is fulfilled.  The executor fulfils it before any request
    exists.  A callback fulfils it when the counter of active
    connections is 0, and the requests then open are as many as the
    timeouts exceed the responses cut off. *)
Lemma completion_drained
    (clock : nat -> Z) (URL : string -> option URLRecord.t)
    (request_ok : bool -> RequestOptions.t -> bool)
    (options : BenchmarkOptions.t) (events : list Event)
    (w : World) (r : BenchmarkResult.t) :
  (forall i j : nat, (i <= j)%nat -> clock i <= clock j) ->
  benchmark clock URL request_ok options events = Some w ->
  promise w = Fulfilled r ->
  exists (done : list Event) (w1 : World) (k : nat),
    completed_by clock URL request_ok options events done w1 r /\
    resolved_at clock options (clock 0%nat) k w1 r /\
    (done = [] -> k = 1%nat /\ in_flight w1 = []) /\
    (done <> [] ->
     clock_reads w1 = S (S (S k)) /\
     activeConnections w1 = 0 /\
     Z.of_nat (length (in_flight w1)) + Z.of_nat (aborted_count done)
     = Z.of_nat (timeout_count done)) /\
    (timeout_count done = 0%nat -> in_flight w1 = []).
Proof.
  intros Hmono Hrun Hr.
  destruct (completion_facts clock URL request_ok options events w r Hrun Hr)
    as (done & w1 & k & Hc & Hres & _ & H0 & H1).
  exists done, w1, k. split; [exact Hc|]. split; [exact Hres|].
  assert (Hnil : done = [] -> in_flight w1 = []).
  { intros ->.
    apply (completed_at_once clock URL request_ok options Hmono events w1 r Hc). }
  split; [|split; [exact H1|]].
  - intros Hd. split; [apply H0, Hd | apply Hnil, Hd].
  - intros Hto. destruct done as [|e done']; [apply Hnil; reflexivity|].
    destruct H1 as (_ & _ & Hacc); [discriminate|].
    rewrite Hto in Hacc.
    destruct (in_flight w1); [reflexivity|]. cbn [length] in Hacc. lia.
Qed.

(** The sample run of a server that never answers: the promise is
    fulfilled by the 'error' that follows the first 'timeout', with
    the second request open and not destroyed; the one request that
    has failed is counted as two failures. *)
Lemma hung_run_resolves_early :
  benchmark hung_clock demo_URL demo_request_ok demo_options hung_events
  = Some hung_world /\
  promise hung_timed_out = Pending /\
  promise hung_world = Fulfilled hung_result /\
  issued hung_world = 2%nat /\
  map request_id (in_flight hung_world) = [1%nat] /\
  map destroyed (in_flight hung_world) = [false] /\
  activeConnections hung_world = 0 /\
  BenchmarkResult.totalRequests hung_result = 2 /\
  BenchmarkResult.failedRequests hung_result = 2.
Proof. repeat split; vm_compute; reflexivity. Qed.

(** C9.  The record of a completed run is built only after a deadline
    check has found [endTime] passed, and its duration is read from the
    clock after that check: with a clock that does not run backwards it
    is at least the configured duration.  The check that every request
    has drained is the counter of active connections, which a callback
    finds at 0 before it calls [finalize]; in a run without a timeout
    no request is open then.  After a timeout the counter undercounts,
    the 'timeout' and the 'error' of the destroyed request having both
    decremented it, and the record is built with requests open. *)
Theorem actual_duration_at_least_configured
    (clock : nat -> Z) (URL : string -> option URLRecord.t)
    (request_ok : bool -> RequestOptions.t -> bool)
    (options : BenchmarkOptions.t) (events : list Event)
    (w : World) (r : BenchmarkResult.t) :
  (forall i j : nat, (i <= j)%nat -> clock i <= clock j) ->
  benchmark clock URL request_ok options events = Some w ->
  promise w = Fulfilled r ->
  (inject_Z (BenchmarkOptions.duration options)
   <= BenchmarkResult.duration r)%Q /\
  exists (done : list Event) (w1 : World) (k : nat),
    completed_by clock URL request_ok options events done w1 r /\
    endTime options (clock 0%nat) <= clock k /\
    (k < clock_reads w1)%nat /\
    (done <> [] -> activeConnections w1 = 0) /\
    (timeout_count done = 0%nat -> in_flight w1 = []) /\
    (length (in_flight w1) <= timeout_count done)%nat.
Proof.
  intros Hmono Hrun Hr.
  destruct (completion_drained clock URL request_ok options events w r
              Hmono Hrun Hr)
    as (done & w1 & k & Hc & (_ & Hend & Hk & _ & Heq) & H0 & H1 & Hto).
  split.
  - rewrite Heq. simpl. apply measured_duration_bound; assumption.
  - exists done, w1, k. split; [exact Hc|]. split; [exact Hend|].
    split; [lia|]. split; [intros Hne; apply (H1 Hne)|].
    split; [exact Hto|].
    destruct done as [|e done'].
    + destruct H0 as (_ & ->); [reflexivity|]. simpl. lia.
    + destruct H1 as (_ & _ & Hacc); [discriminate|]. lia.
Qed.

Lemma actual_duration_at_least_configured_witness :
  (inject_Z (BenchmarkOptions.duration demo_options)
   <= BenchmarkResult.duration hung_result)%Q /\
  exists (done : list Event) (w1 : World) (k : nat),
    completed_by hung_clock demo_URL demo_request_ok demo_options
      hung_events done w1 hung_result /\
    endTime demo_options (hung_clock 0%nat) <= hung_clock k /\
    (k < clock_reads w1)%nat /\
    (done <> [] -> activeConnections w1 = 0) /\
    (timeout_count done = 0%nat -> in_flight w1 = []) /\
    (length (in_flight w1) <= timeout_count done)%nat.
Proof.
  exact (actual_duration_at_least_configured hung_clock demo_URL
           demo_request_ok demo_options hung_events hung_world hung_result
           hung_clock_monotone hung_run hung_fulfilled).
Defined.

(** C7.  [requestsPerSecond] is the total divided by the duration field
    of the same record, and that duration is measured: it is the clock
    read [finalize] makes right after the deadline check that led to
    it, minus the start time, in seconds; the configured duration only
    enters through the deadline.  For a positive configured duration
    the quotient is a finite number.  The promise is fulfilled by that
    call of [finalize], made by the first call of [makeRequest] of the
    executor or by the last callback of the run so far, when the
    counter of active connections is 0: this is the full drain in a
    run without a timeout, and it is not after a timeout, when as many
    requests are open as the timeouts exceed the responses cut off. *)
Theorem throughput_over_measured_duration
    (clock : nat -> Z) (URL : string -> option URLRecord.t)
    (request_ok : bool -> RequestOptions.t -> bool)
    (options : BenchmarkOptions.t) (events : list Event)
    (w : World) (r : BenchmarkResult.t) :
  (forall i j : nat, (i <= j)%nat -> clock i <= clock j) ->
  benchmark clock URL request_ok options events = Some w ->
  promise w = Fulfilled r ->
  BenchmarkResult.requestsPerSecond r
  = js_div (inject_Z (BenchmarkResult.totalRequests r))
           (BenchmarkResult.duration r) /\
  (0 < BenchmarkOptions.duration options ->
   BenchmarkResult.requestsPerSecond r
   = Fin (inject_Z (BenchmarkResult.totalRequests r)
          / BenchmarkResult.duration r)) /\
  exists (done : list Event) (w1 : World) (k : nat),
    completed_by clock URL request_ok options events done w1 r /\
    endTime options (clock 0%nat) <= clock k /\
    BenchmarkResult.duration r
    = (inject_Z (clock (S k) - clock 0%nat) / 1000)%Q /\
    (done = [] -> k = 1%nat /\ in_flight w1 = []) /\
    (done <> [] ->
     clock_reads w1 = S (S (S k)) /\
     activeConnections w1 = 0 /\
     Z.of_nat (length (in_flight w1)) + Z.of_nat (aborted_count done)
     = Z.of_nat (timeout_count done)).
Proof.
  intros Hmono Hrun Hr.
  destruct (completion_drained clock URL request_ok options events w r
              Hmono Hrun Hr)
    as (done & w1 & k & Hc & (_ & Hend & _ & _ & Heq) & H0 & H1 & _).
  split; [rewrite Heq; reflexivity|]. split.
  - intros Hpos. rewrite Heq. simpl. apply js_div_pos.
    eapply Qlt_le_trans;
      [|apply (measured_duration_bound clock options k Hmono Hend)].
    rewrite <- (Zlt_Qlt 0). exact Hpos.
  - exists done, w1, k. split; [exact Hc|]. split; [exact Hend|].
    split; [rewrite Heq; reflexivity|]. split; assumption.
Qed.

Lemma throughput_over_measured_duration_witness :
  BenchmarkResult.requestsPerSecond hung_result
  = js_div (inject_Z (BenchmarkResult.totalRequests hung_result))
           (BenchmarkResult.duration hung_result) /\
  (0 < BenchmarkOptions.duration demo_options ->
   BenchmarkResult.requestsPerSecond hung_result
   = Fin (inject_Z (BenchmarkResult.totalRequests hung_result)
          / BenchmarkResult.duration hung_result)) /\
  exists (done : list Event) (w1 : World) (k : nat),
    completed_by hung_clock demo_URL demo_request_ok demo_options
      hung_events done w1 hung_result /\
    endTime demo_options (hung_clock 0%nat) <= hung_clock k /\
    BenchmarkResult.duration hung_result
    = (inject_Z (hung_clock (S k) - hung_clock 0%nat) / 1000)%Q /\
    (done = [] -> k = 1%nat /\ in_flight w1 = []) /\
    (done <> [] ->
     clock_reads w1 = S (S (S k)) /\
     activeConnections w1 = 0 /\
     Z.of_nat (length (in_flight w1)) + Z.of_nat (aborted_count done)
     = Z.of_nat (timeout_count done)).
Proof.
  exact (throughput_over_measured_duration hung_clock demo_URL
           demo_request_ok demo_options hung_events hung_world hung_result
           hung_clock_monotone hung_run hung_fulfilled).
Defined.

(** *** One request, one outcome *)

Section Outcomes.

Variable clock : nat -> Z.
Variable URL : string -> option URLRecord.t.
Variable request_ok : bool -> RequestOptions.t -> bool.
Variable options : BenchmarkOptions.t.
Variable u : URLRecord.t.
Hypothesis url_parses : URL (BenchmarkOptions.url options) = Some u.

(** After an event that closes its request no event of this request
    can occur. *)
Lemma closed_for_good (events : list Event) (w w' : World) (e : Event) :
  benchmark clock URL request_ok options events = Some w ->
  deliver clock request_ok options u (clock 0%nat) e w = Some w' ->
  closes e = true ->
  forall e' : Event,
    event_id e' = event_id e ->
    deliver clock request_ok options u (clock 0%nat) e' w' = None.
Proof.
  intros Hrun Hd Hcl e' He'.
  destruct (run_numbered clock URL request_ok options u url_parses events w
              Hrun) as (Hnd & Hlt).
  destruct (deliver_inv clock request_ok options u (clock 0%nat) e w w' Hd)
    as (req & rest & Htake & _ & Hw').
  destruct (take_unique _ _ _ _ Hnd Htake) as (_ & Hnot).
  destruct (take_spec _ _ _ _ Htake) as (_ & _ & Hid & _ & HP).
  destruct (HP _ Hlt) as (Hreq & _).
  destruct (detach_fields e rest w)
    as (_ & _ & _ & _ & _ & _ & Di & _ & Df).
  rewrite Hcl in Df.
  assert (Htimeout : is_timeout e = false).
  { destruct e; try reflexivity. discriminate Hcl. }
  assert (Hnone : take (event_id e) (in_flight w') = None).
  { apply take_none. rewrite Hw'.
    destruct (is_callback e).
    - destruct (committed_state clock options (clock 0%nat) e (req_start req)
                  (detach e rest w)) as (Cf & Ci & _).
      cbv zeta in Cf, Ci. rewrite Htimeout, Df in Cf. rewrite Di in Ci.
      destruct (makeRequest_sends clock request_ok options u (clock 0%nat)
                  (committed clock options (clock 0%nat) e (req_start req)
                     (detach e rest w)))
        as (_ & [(Hin & _)|[(Hin & _)|(Hin & _)]]);
        rewrite Hin, ?Cf; try exact Hnot.
      simpl. rewrite Ci. intros [Heq|Hin']; [lia | exact (Hnot Hin')].
    - rewrite Df. exact Hnot. }
  unfold deliver. rewrite He', Hnone. reflexivity.
Qed.

(** After a 'timeout' the request is open and destroyed, and the
    'error' of the same request can occur. *)
Lemma timeout_then_error (events : list Event) (w w' : World) (id : nat) :
  benchmark clock URL request_ok options events = Some w ->
  deliver clock request_ok options u (clock 0%nat) (RequestTimeout id) w
  = Some w' ->
  exists w'' : World,
    deliver clock request_ok options u (clock 0%nat) (RequestError id) w'
    = Some w''.
Proof.
  intros Hrun Hd.
  destruct (run_numbered clock URL request_ok options u url_parses events w
              Hrun) as (_ & Hlt).
  destruct (deliver_inv clock request_ok options u (clock 0%nat) _ w w' Hd)
    as (req & rest & Htake & _ & Hw').
  simpl in Htake, Hw'.
  destruct (take_spec _ _ _ _ Htake) as (_ & _ & Hid & _ & HP).
  destruct (HP _ Hlt) as (Hreq & _).
  destruct (take_destroyed _ _ _ _ Htake) as (Htake' & _).
  assert (Hfound : exists found rest',
             take id (in_flight w') = Some (found, rest')).
  { rewrite Hw'.
    set (wc := destroy id
                 (committed_failure (detach (RequestTimeout id) rest w))).
    assert (Hwc : in_flight wc = map (destroyed_by id) (in_flight w))
      by reflexivity.
    assert (Hic : issued wc = issued w) by reflexivity.
    destruct (makeRequest_sends clock request_ok options u (clock 0%nat) wc)
      as (_ & [(Hin & _)|[(Hin & _)|(Hin & _)]]); rewrite Hin, Hwc.
    - eexists. eexists. exact Htake'.
    - cbn [take request_id]. rewrite Hic.
      destruct (Nat.eqb_spec id (issued w)) as [Heq|_]; [lia|].
      rewrite Htake'. eexists. eexists. reflexivity.
    - eexists. eexists. exact Htake'. }
  destruct Hfound as (found & rest' & Hf).
  unfold deliver. simpl event_id. rewrite Hf. simpl. eexists. reflexivity.
Qed.

End Outcomes.

(** C3.  Every callback of a request commits one of three outcomes.  A
    response with a status code in [200, 400) records its latency and
    counts as a success; any other response, 503 for one, records its
    latency and counts as a failure; a transport error and the timeout,
    which the request was given as 30000 ms, count as a failure and
    leave the latency array as it was.  A response or an 'error'
    closes the request, which gets no further callback.  A 'timeout'
    does not: its listener destroys the request, the 'error' of the
    destroyed request can follow, and the request is then counted as
    two failures. *)
Theorem request_outcome_classification
    (clock : nat -> Z) (URL : string -> option URLRecord.t)
    (request_ok : bool -> RequestOptions.t -> bool)
    (options : BenchmarkOptions.t) (u : URLRecord.t)
    (events : list Event) (w w' : World) (e : Event) :
  URL (BenchmarkOptions.url options) = Some u ->
  benchmark clock URL request_ok options events = Some w ->
  deliver clock request_ok options u (clock 0%nat) e w = Some w' ->
  (match e with
   | ResponseEnd _ (Some c) =>
       (200 <= c < 400 -> classify e = Some TimedSuccess) /\
       (~ 200 <= c < 400 -> classify e = Some TimedFailure)
   | ResponseEnd _ None => classify e = Some TimedFailure
   | RequestError _ => classify e = Some UntimedFailure
   | RequestTimeout _ => classify e = Some UntimedFailure
   | ResponseAborted _ => classify e = None
   end) /\
  exists req : ClientRequest,
    In req (in_flight w) /\
    request_id req = event_id e /\
    RequestOptions.timeout (req_options req) = 30000 /\
    match classify e with
    | Some TimedSuccess =>
        Permutation (latencies w')
          (latencies w ++ [clock (clock_reads w) - req_start req]) /\
        successCount w' = successCount w + 1 /\
        failCount w' = failCount w
    | Some TimedFailure =>
        Permutation (latencies w')
          (latencies w ++ [clock (clock_reads w) - req_start req]) /\
        successCount w' = successCount w /\
        failCount w' = failCount w + 1
    | Some UntimedFailure =>
        Permutation (latencies w') (latencies w) /\
        successCount w' = successCount w /\
        failCount w' = failCount w + 1
    | None =>
        latencies w' = latencies w /\
        successCount w' = successCount w /\
        failCount w' = failCount w
    end /\
    (closes e = true ->
     forall e' : Event,
       event_id e' = event_id e ->
       deliver clock request_ok options u (clock 0%nat) e' w' = None) /\
    (closes e = false ->
     destroyed req = false /\
     exists w'' : World,
       deliver clock request_ok options u (clock 0%nat)
         (RequestError (event_id e)) w' = Some w'' /\
       failCount w'' = failCount w + 2 /\
       successCount w'' = successCount w /\
       Permutation (latencies w'') (latencies w) /\
       forall e' : Event,
         event_id e' = event_id e ->
         deliver clock request_ok options u (clock 0%nat) e' w'' = None).
Proof.
  intros Hu Hrun Hd. split.
  - destruct e as [id [c|]|id|id|id]; simpl; try reflexivity.
    split; intros Hc.
    + destruct (Z.leb_spec 200 c), (Z.ltb_spec c 400); simpl;
        (reflexivity || lia).
    + destruct (Z.leb_spec 200 c), (Z.ltb_spec c 400); simpl;
        (reflexivity || lia).
  - destruct (deliver_effect clock request_ok options u (clock 0%nat) e w w' Hd)
      as (req & Hin & Hid & Hdel & Hclass & _).
    destruct (run_requests clock URL request_ok options u Hu events w Hrun)
      as (Hreq & _).
    exists req. split; [exact Hin|]. split; [exact Hid|].
    split; [|split; [exact Hclass|split]].
    + unfold requests_from in Hreq. rewrite Forall_forall in Hreq.
      destruct (Hreq req Hin) as (Ho & _). rewrite Ho. reflexivity.
    + apply (closed_for_good clock URL request_ok options u Hu events w w' e
               Hrun Hd).
    + intros Hcl. destruct e as [id sc|id|id|id]; try discriminate Hcl.
      simpl in Hdel, Hclass |- *.
      split; [destruct (destroyed req); [discriminate | reflexivity]|].
      destruct (timeout_then_error clock URL request_ok options u Hu events
                  w w' id Hrun Hd) as (w'' & Hd').
      exists w''. split; [exact Hd'|].
      destruct (deliver_effect clock request_ok options u (clock 0%nat) _ w' w''
                  Hd') as (_ & _ & _ & _ & (Hp' & Hs' & Hf') & _).
      destruct Hclass as (Hp & Hs & Hf).
      split; [lia|]. split; [congruence|].
      split; [eapply perm_trans; eassumption|].
      assert (Hrun' : benchmark clock URL request_ok options
                        (events ++ [RequestTimeout id]) = Some w').
      { rewrite (benchmark_snoc clock URL request_ok options u Hu), Hrun.
        exact Hd. }
      apply (closed_for_good clock URL request_ok options u Hu _ w' w''
               (RequestError id) Hrun' Hd' eq_refl).
Qed.

Lemma request_outcome_classification_witness :
  classify (RequestTimeout 0) = Some UntimedFailure /\
  exists req : ClientRequest,
    In req (in_flight
              (runHttpBenchmark hung_clock demo_URL demo_request_ok
                 demo_options)) /\
    request_id req = 0%nat /\
    RequestOptions.timeout (req_options req) = 30000 /\
    failCount hung_timed_out = 1 /\
    destroyed req = false /\
    exists w'' : World,
      deliver hung_clock demo_request_ok demo_options demo_urlObj
        (hung_clock 0%nat) (RequestError 0) hung_timed_out = Some w'' /\
      failCount w'' = 2 /\
      forall e' : Event,
        event_id e' = 0%nat ->
        deliver hung_clock demo_request_ok demo_options demo_urlObj
          (hung_clock 0%nat) e' w'' = None.
Proof.
  destruct (request_outcome_classification hung_clock demo_URL
              demo_request_ok demo_options demo_urlObj []
              (runHttpBenchmark hung_clock demo_URL demo_request_ok
                 demo_options)
              hung_timed_out (RequestTimeout 0)
              demo_url_parses hung_first_run)
    as (Hc & req & Hin & Hid & Hto & (_ & _ & Hf) & _ & Hopen).
  { vm_compute. reflexivity. }
  destruct (Hopen eq_refl) as (Hlive & w'' & Hd & Hf2 & _ & _ & Hgone).
  split; [exact Hc|]. exists req.
  split; [exact Hin|]. split; [exact Hid|]. split; [exact Hto|].
  split; [exact Hf|]. split; [exact Hlive|].
  exists w''. split; [exact Hd|]. split; [exact Hf2 | exact Hgone].
Defined.

(** *** Rejection *)

(** The promise is rejected exactly when the executor throws before it
    has been settled: at [new URL], or at the first [httpModule.request]
    when it is called, that is, when a connection is asked for and the
    first deadline check finds the deadline ahead. *)
Lemma run_rejected_iff
    (clock : nat -> Z) (URL : string -> option URLRecord.t)
    (request_ok : bool -> RequestOptions.t -> bool)
    (options : BenchmarkOptions.t) (events : list Event) (w : World) :
  benchmark clock URL request_ok options events = Some w ->
  (promise w = Rejected <->
   URL (BenchmarkOptions.url options) = None \/
   exists u : URLRecord.t,
     URL (BenchmarkOptions.url options) = Some u /\
     request_ok (isHttps u) (reqOptions options u) = false /\
     0 < BenchmarkOptions.connections options /\
     clock 1%nat < endTime options (clock 0%nat)).
Proof.
  intros Hrun.
  destruct (URL (BenchmarkOptions.url options)) as [u|] eqn:Hu.
  - split.
    + intros Hr. right. exists u. split; [reflexivity|].
      pose proof (run_rejected clock URL request_ok options u Hu events w
                    Hrun Hr) as H0.
      destruct (executor_cases clock URL request_ok options u Hu)
        as [(_ & Hw)|[(_ & _ & Hprom & _)|[(_ & _ & _ & Hprom & _)
           |(Hpos & Hbefore & Hno & _)]]]; cbv zeta in *; try congruence.
      * rewrite Hw in H0. discriminate H0.
      * repeat split; assumption.
    + intros [H|(u' & Hu' & Hno & Hpos & Hbefore)]; [discriminate|].
      inversion Hu'; subst u'.
      destruct (refused_run clock URL request_ok options u Hu events w Hno
                  Hrun) as (-> & _).
      rewrite (started_run_eq clock URL request_ok options u [] Hu) in Hrun.
      simpl in Hrun. inversion Hrun as [Hw].
      destruct (executor_cases clock URL request_ok options u Hu)
        as [(Hc & _)|[(_ & Hpast & _)|[(_ & _ & Hok & _)
           |(_ & _ & _ & Heq)]]]; cbv zeta in *; try lia; try congruence.
      rewrite Heq. reflexivity.
  - destruct (malformed_run clock URL request_ok options events w Hu Hrun)
      as [_ ->].
    split; [intros _; left; reflexivity | reflexivity].
Qed.

(** C5, as the engine behaves.  The promise is rejected exactly when
    the executor throws while the promise is pending: when the URL does
    not parse, or when [httpModule.request] refuses the options of the
    first request.  Both happen before any request exists, and no event
    can follow.  No callback rejects the promise, and none throws.
    Every 'error', 'timeout' and response outside [200, 400) adds one
    to the failure counter, and the record of a completed run carries
    in [failedRequests] the number of these callbacks run until the
    promise was fulfilled, and in [successfulRequests] the number of
    the others. *)
Theorem only_malformed_url_rejects
    (clock : nat -> Z) (URL : string -> option URLRecord.t)
    (request_ok : bool -> RequestOptions.t -> bool)
    (options : BenchmarkOptions.t) :
  (forall (events : list Event) (w : World),
     benchmark clock URL request_ok options events = Some w ->
     (promise w = Rejected <->
      URL (BenchmarkOptions.url options) = None \/
      exists u : URLRecord.t,
        URL (BenchmarkOptions.url options) = Some u /\
        request_ok (isHttps u) (reqOptions options u) = false /\
        0 < BenchmarkOptions.connections options /\
        clock 1%nat < endTime options (clock 0%nat))) /\
  (forall (events : list Event) (w : World),
     benchmark clock URL request_ok options events = Some w ->
     promise w = Rejected ->
     events = [] /\ issued w = 0%nat /\ in_flight w = [] /\
     successCount w = 0 /\ failCount w = 0) /\
  (forall (u : URLRecord.t) (events : list Event) (w w' : World) (e : Event),
     URL (BenchmarkOptions.url options) = Some u ->
     benchmark clock URL request_ok options events = Some w ->
     deliver clock request_ok options u (clock 0%nat) e w = Some w' ->
     promise w' <> Rejected /\
     (forall (req : ClientRequest) (rest : list ClientRequest),
        take (event_id e) (in_flight w) = Some (req, rest) ->
        throws (handler clock request_ok options u (clock 0%nat) e
                  (req_start req))
               (detach e rest w) = false) /\
     (is_failure e = true ->
      failCount w' = failCount w + 1 /\ successCount w' = successCount w)) /\
  (forall (events : list Event) (w : World) (r : BenchmarkResult.t),
     benchmark clock URL request_ok options events = Some w ->
     promise w = Fulfilled r ->
     exists (done : list Event) (w1 : World),
       completed_by clock URL request_ok options events done w1 r /\
       BenchmarkResult.failedRequests r = Z.of_nat (failure_count done) /\
       BenchmarkResult.successfulRequests r = Z.of_nat (success_count done) /\
       BenchmarkResult.totalRequests r = Z.of_nat (callback_count done)).
Proof.
  pose proof (run_rejected_iff clock URL request_ok options) as Hrej.
  split; [exact Hrej|]. split; [|split].
  - intros events w Hrun Hr.
    destruct (URL (BenchmarkOptions.url options)) as [u|] eqn:Hu.
    + destruct (proj1 (Hrej events w Hrun) Hr)
        as [H|(u' & Hu' & Hno & _)]; [discriminate|].
      inversion Hu'; subst u'.
      destruct (refused_run clock URL request_ok options u Hu events w Hno
                  Hrun) as (He & Hi & Hf).
      destruct (run_counts clock URL request_ok options u Hu events w Hrun)
        as (Hs & Hfc & _).
      rewrite He in Hs, Hfc. repeat split; assumption.
    + destruct (malformed_run clock URL request_ok options events w Hu Hrun)
        as [-> ->].
      repeat split; reflexivity.
  - intros u events w w' e Hu Hrun Hd.
    assert (Hrun' : benchmark clock URL request_ok options (events ++ [e])
                    = Some w').
    { rewrite (benchmark_snoc clock URL request_ok options u Hu), Hrun.
      exact Hd. }
    split; [|split].
    + intros Hr.
      destruct (proj1 (Hrej _ w' Hrun') Hr) as [H|(u' & Hu' & Hno & _)];
        [congruence|].
      rewrite Hu in Hu'. inversion Hu'; subst u'.
      destruct (refused_run clock URL request_ok options u Hu _ w' Hno Hrun')
        as (He & _).
      destruct events; discriminate He.
    + intros req rest Htake.
      apply (listeners_return clock URL request_ok options u Hu events w e req
               rest Hrun Htake).
    + intros Hfail.
      destruct (deliver_effect clock request_ok options u (clock 0%nat) e w w'
                  Hd) as (req & _ & _ & _ & Hclass & _).
      unfold is_failure in Hfail. apply andb_prop in Hfail.
      destruct Hfail as (Hcb & Hns). apply negb_true_iff in Hns.
      destruct (classify e) as [[| |]|] eqn:Ec.
      * apply classify_success in Ec. congruence.
      * destruct Hclass as (_ & Hs & Hf). split; assumption.
      * destruct Hclass as (_ & Hs & Hf). split; assumption.
      * apply classify_callback in Hcb. congruence.
  - intros events w r Hrun Hr.
    destruct (completion_facts clock URL request_ok options events w r Hrun Hr)
      as (done & w1 & k & Hc & (_ & _ & _ & _ & ->) & (Hs & Hf & _) & _).
    exists done, w1. split; [exact Hc|]. simpl.
    rewrite failure_count_eq, Hs, Hf.
    pose proof (success_count_le done). pose proof (timed_count_le done).
    repeat split; lia.
Qed.

Lemma only_malformed_url_rejects_witness :
  (promise
     (runHttpBenchmark demo_clock demo_URL demo_request_ok malformed_options)
   = Rejected /\
   issued
     (runHttpBenchmark demo_clock demo_URL demo_request_ok malformed_options)
   = 0%nat) /\
  promise unsendable_world = Rejected /\
  (promise demo_timed_out <> Rejected /\
   failCount demo_timed_out = failCount demo_started + 1) /\
  exists (done : list Event) (w1 : World),
    completed_by demo_clock demo_URL demo_request_ok demo_options
      demo_events done w1 demo_result /\
    BenchmarkResult.failedRequests demo_result = Z.of_nat (failure_count done).
Proof.
  split; [|split; [|split]].
  - destruct (only_malformed_url_rejects demo_clock demo_URL demo_request_ok
                malformed_options) as (Hiff & Hbefore & _).
    assert (Hr : promise
                   (runHttpBenchmark demo_clock demo_URL demo_request_ok
                      malformed_options) = Rejected).
    { apply (Hiff [] _ eq_refl). left. reflexivity. }
    split; [exact Hr|].
    destruct (Hbefore [] _ eq_refl Hr) as (_ & Hi & _). exact Hi.
  - destruct (only_malformed_url_rejects demo_clock demo_URL demo_request_ok
                unsendable_options) as (Hiff & _).
    apply (Hiff [] unsendable_world); [vm_compute; reflexivity|].
    right. exists demo_urlObj.
    split; [reflexivity|]. split; [reflexivity|].
    split; [reflexivity|]. reflexivity.
  - destruct (only_malformed_url_rejects demo_clock demo_URL demo_request_ok
                demo_options) as (_ & _ & Habs & _).
    destruct (Habs demo_urlObj [] demo_started demo_timed_out (RequestTimeout 0)
                demo_url_parses demo_start eq_refl) as (Hn & _ & Hf).
    split; [exact Hn|]. apply Hf. reflexivity.
  - destruct (only_malformed_url_rejects demo_clock demo_URL demo_request_ok
                demo_options) as (_ & _ & _ & Hrec).
    destruct (Hrec demo_events demo_world demo_result demo_run demo_fulfilled)
      as (done & w1 & Hc & Hf & _).
    exists done, w1. split; [exact Hc | exact Hf].
Defined.

(** C5, as stated, fails: these options have a URL the parser accepts,
    and the promise is rejected, because [http.request] refuses the
    name of their header. *)
Lemma wellformed_url_rejected :
  demo_URL (BenchmarkOptions.url unsendable_options) = Some demo_urlObj /\
  benchmark demo_clock demo_URL demo_request_ok unsendable_options []
  = Some unsendable_world /\
  promise unsendable_world = Rejected /\
  demo_request_ok (isHttps demo_urlObj)
    (reqOptions unsendable_options demo_urlObj) = false.
Proof. repeat split; vm_compute; reflexivity. Qed.

(** *** Progress reports *)

(** C6.  [onProgress] is called by the 'end' callback only, with
    [min(100, (now - start) / (duration * 1000) * 100)]: the 'error'
    and 'timeout' callbacks commit their failure without a report.  So
    the number of reports of a run is the number of responses read to
    their end, not the number of outcomes committed. *)
Theorem progress_reported_after_responses_only
    (clock : nat -> Z) (URL : string -> option URLRecord.t)
    (request_ok : bool -> RequestOptions.t -> bool)
    (options : BenchmarkOptions.t) (u : URLRecord.t)
    (events : list Event) (w w' : World) (e : Event) :
  URL (BenchmarkOptions.url options) = Some u ->
  benchmark clock URL request_ok options events = Some w ->
  deliver clock request_ok options u (clock 0%nat) e w = Some w' ->
  length (reported w) = timed_count events /\
  (is_timed e = true ->
   reported w'
   = Math_min 100
       (js_mul
          (js_div (inject_Z (clock (S (clock_reads w)) - clock 0%nat))
                  (inject_Z (BenchmarkOptions.duration options * 1000)))
          100)
     :: reported w) /\
  (is_timed e = false ->
   reported w' = reported w /\
   (is_callback e = true -> failCount w' = failCount w + 1)).
Proof.
  intros Hu Hrun Hd. split; [|split].
  - apply (run_counts clock URL request_ok options u Hu events w Hrun).
  - intros He.
    destruct (deliver_effect clock request_ok options u (clock 0%nat) e w w' Hd)
      as (req & _ & _ & _ & _ & Hr).
    rewrite Hr, He. reflexivity.
  - intros He.
    destruct (deliver_effect clock request_ok options u (clock 0%nat) e w w' Hd)
      as (req & _ & _ & _ & Hclass & Hr).
    rewrite Hr, He. split; [reflexivity|].
    destruct e as [id sc|id|id|id]; [discriminate He| | |];
      simpl in Hclass |- *; intros Hcb; try discriminate Hcb; apply Hclass.
Qed.

Lemma progress_reported_after_responses_only_witness :
  length (reported refused_first) = 0%nat /\
  reported refused_world = reported refused_first /\
  failCount refused_world = failCount refused_first + 1.
Proof.
  destruct (progress_reported_after_responses_only demo_clock demo_URL
              demo_request_ok demo_options demo_urlObj [RequestError 0]
              refused_first refused_world (RequestTimeout 1) demo_url_parses
              refused_first_run eq_refl)
    as (Hlen & _ & Hsilent).
  destruct (Hsilent eq_refl) as (Hrep & Hfail).
  split; [exact Hlen|]. split; [exact Hrep | exact (Hfail eq_refl)].
Defined.

(** Two requests fail without a response: two outcomes are committed
    and [onProgress] has not been called. *)
Lemma refused_run_reports_nothing :
  benchmark demo_clock demo_URL demo_request_ok demo_options refused_events
  = Some refused_world /\
  failCount refused_world = 2 /\
  reported refused_world = [].
Proof. repeat split; vm_compute; reflexivity. Qed.

(** *** Degenerate configurations *)

(** C4, as the engine behaves.  With a duration of 0 and at least one
    connection the executor settles the promise itself, before any
    request is sent: all counters and all latency statistics are 0, and
    [requestsPerSecond] is 0 divided by the measured duration, that is
    0 when the clock has advanced since the start and [NaN] when it has
    not.  With no connection the loop starts nothing: no callback can
    follow and the promise stays pending. *)
Theorem zero_duration_or_connections
    (clock : nat -> Z) (URL : string -> option URLRecord.t)
    (request_ok : bool -> RequestOptions.t -> bool)
    (options : BenchmarkOptions.t) (u : URLRecord.t) :
  (forall i j : nat, (i <= j)%nat -> clock i <= clock j) ->
  URL (BenchmarkOptions.url options) = Some u ->
  (BenchmarkOptions.duration options = 0 ->
   0 < BenchmarkOptions.connections options ->
   exists r : BenchmarkResult.t,
     promise (runHttpBenchmark clock URL request_ok options) = Fulfilled r /\
     issued (runHttpBenchmark clock URL request_ok options) = 0%nat /\
     in_flight (runHttpBenchmark clock URL request_ok options) = [] /\
     BenchmarkResult.totalRequests r = 0 /\
     BenchmarkResult.successfulRequests r = 0 /\
     BenchmarkResult.failedRequests r = 0 /\
     (BenchmarkResult.avgLatency r == 0)%Q /\
     BenchmarkResult.minLatency r = 0 /\
     BenchmarkResult.maxLatency r = 0 /\
     BenchmarkResult.p50 r = Some 0 /\
     BenchmarkResult.p95 r = Some 0 /\
     BenchmarkResult.p99 r = Some 0 /\
     BenchmarkResult.duration r
     = (inject_Z (clock 2%nat - clock 0%nat) / 1000)%Q /\
     (clock 0%nat < clock 2%nat ->
      exists q : Q,
        BenchmarkResult.requestsPerSecond r = Fin q /\ (q == 0)%Q) /\
     (clock 2%nat = clock 0%nat ->
      BenchmarkResult.requestsPerSecond r = NaN)) /\
  (BenchmarkOptions.connections options <= 0 ->
   forall (events : list Event) (w : World),
     benchmark clock URL request_ok options events = Some w ->
     events = [] /\ promise w = Pending /\ in_flight w = []).
Proof.
  intros Hmono Hu. split.
  - intros Hd Hc.
    assert (Hpast : endTime options (clock 0%nat) <= clock 1%nat).
    { unfold endTime. rewrite Hd.
      assert (clock 0%nat <= clock 1%nat) by (apply Hmono; lia). lia. }
    destruct (executor_idle clock URL request_ok options Hmono u Hu Hpast)
      as (Hi & Hf & _).
    destruct (executor_cases clock URL request_ok options u Hu)
      as [(Hle & _)|[(_ & _ & Hprom & _)|[(_ & Hb & _)|(_ & Hb & _)]]];
      cbv zeta in *; try lia.
    eexists. split; [exact Hprom|]. split; [exact Hi|]. split; [exact Hf|].
    simpl. repeat split; try reflexivity.
    + intros Hlt. eexists. split.
      * apply js_div_pos. apply Qlt_shift_div_l; [reflexivity|].
        unfold Qlt. simpl. lia.
      * unfold Qdiv. apply Qmult_0_l.
    + intros Heq. rewrite Heq, Z.sub_diag. reflexivity.
  - intros Hc events w Hrun.
    rewrite (started_run_eq clock URL request_ok options u events Hu) in Hrun.
    destruct (executor_cases clock URL request_ok options u Hu)
      as [(_ & Hw)|[(Hpos & _)|[(Hpos & _)|(Hpos & _)]]];
      cbv zeta in *; try lia.
    rewrite Hw in Hrun.
    destruct events as [|e events]; simpl in Hrun.
    + inversion Hrun; subst. repeat split; reflexivity.
    + discriminate Hrun.
Qed.

Lemma zero_duration_or_connections_witness :
  (exists r : BenchmarkResult.t,
     promise (runHttpBenchmark frozen_clock demo_URL demo_request_ok
                zero_duration_options)
     = Fulfilled r /\
     BenchmarkResult.totalRequests r = 0 /\
     BenchmarkResult.requestsPerSecond r = NaN) /\
  (forall (events : list Event) (w : World),
     benchmark demo_clock demo_URL demo_request_ok zero_connections_options
       events = Some w ->
     events = [] /\ promise w = Pending /\ in_flight w = []).
Proof.
  split.
  - destruct (zero_duration_or_connections frozen_clock demo_URL
                demo_request_ok zero_duration_options demo_urlObj
                frozen_clock_monotone eq_refl) as (Hzero & _).
    destruct (Hzero eq_refl eq_refl)
      as (r & Hp & _ & _ & Ht & _ & _ & _ & _ & _ & _ & _ & _ & _ & _ & Hnan).
    exists r. split; [exact Hp|]. split; [exact Ht|]. apply Hnan. reflexivity.
  - destruct (zero_duration_or_connections demo_clock demo_URL
                demo_request_ok zero_connections_options demo_urlObj
                demo_clock_monotone eq_refl) as (_ & Hnone).
    apply Hnone. discriminate.
Defined.

(** C4, as stated, fails: with a duration of 0 and a clock that has not
    advanced [requestsPerSecond] is [NaN], and with no connection the
    promise is left pending with nothing in flight, so that no callback
    can ever settle it. *)
Lemma zero_config_counterexample :
  (exists (w : World) (r : BenchmarkResult.t),
     benchmark frozen_clock demo_URL demo_request_ok zero_duration_options []
     = Some w /\
     promise w = Fulfilled r /\
     BenchmarkResult.totalRequests r = 0 /\
     BenchmarkResult.requestsPerSecond r = NaN /\
     BenchmarkResult.requestsPerSecond r <> Fin 0) /\
  (exists w : World,
     benchmark demo_clock demo_URL demo_request_ok zero_connections_options []
     = Some w /\
     promise w = Pending /\
     in_flight w = [] /\
     forall e : Event,
       deliver demo_clock demo_request_ok zero_connections_options demo_urlObj
         (demo_clock 0%nat) e w = None).
Proof.
  split.
  - eexists. eexists. split; [vm_compute; reflexivity|].
    split; [reflexivity|]. split; [reflexivity|].
    split; [reflexivity | discriminate].
  - eexists. split; [vm_compute; reflexivity|].
    split; [reflexivity|]. split; [reflexivity|].
    intros e. destruct e; reflexivity.
Qed.

(** * Further properties of the engine *)

(** ** Invariants of every reachable state *)

(** X1.  In a run whose requests the HTTP module accepts, every request
    handed to the module is, at every point, either counted by one run
    of a callback of the engine or counted by [activeConnections]:
    [issued = successCount + failCount + activeConnections].  The
    requests still open differ from [activeConnections] by the timeouts,
    which lower the counter and leave their request open, and by the
    responses cut off, which close a request and leave the counter.
    As long as there was neither, [activeConnections] is the number of
    open requests, and so not below 0. *)
Theorem every_request_accounted
    (clock : nat -> Z) (URL : string -> option URLRecord.t)
    (request_ok : bool -> RequestOptions.t -> bool)
    (options : BenchmarkOptions.t) (u : URLRecord.t)
    (events : list Event) (w : World) :
  URL (BenchmarkOptions.url options) = Some u ->
  request_ok (isHttps u) (reqOptions options u) = true ->
  benchmark clock URL request_ok options events = Some w ->
  Z.of_nat (issued w) = successCount w + failCount w + activeConnections w /\
  Z.of_nat (length (in_flight w)) + Z.of_nat (aborted_count events)
  = activeConnections w + Z.of_nat (timeout_count events) /\
  (timeout_count events = 0%nat -> aborted_count events = 0%nat ->
   Z.of_nat (issued w)
   = successCount w + failCount w + Z.of_nat (length (in_flight w)) /\
   activeConnections w = Z.of_nat (length (in_flight w)) /\
   0 <= activeConnections w).
Proof.
  intros Hu Hok Hrun.
  destruct (run_accounting clock URL request_ok options u Hu Hok events w Hrun)
    as (Hi & Ha).
  destruct (run_counts clock URL request_ok options u Hu events w Hrun)
    as (Hs & Hf & _).
  pose proof (success_count_le events). pose proof (timed_count_le events).
  split; [lia|]. split; [exact Ha|].
  intros Ht Hab. rewrite Ht, Hab in Ha. repeat split; lia.
Qed.

Lemma every_request_accounted_witness :
  (Z.of_nat (issued demo_late)
   = successCount demo_late + failCount demo_late
     + activeConnections demo_late /\
   activeConnections demo_late = -1) /\
  (Z.of_nat (issued demo_draining)
   = successCount demo_draining + failCount demo_draining
     + Z.of_nat (length (in_flight demo_draining)) /\
   activeConnections demo_draining
   = Z.of_nat (length (in_flight demo_draining)) /\
   0 <= activeConnections demo_draining).
Proof.
  split.
  - destruct (every_request_accounted demo_clock demo_URL demo_request_ok
                demo_options demo_urlObj (demo_events ++ [RequestError 3])
                demo_late demo_url_parses demo_accepted demo_late_run)
      as (Hi & _).
    split; [exact Hi | reflexivity].
  - destruct (every_request_accounted demo_clock demo_URL demo_request_ok
                demo_options demo_urlObj
                [ResponseEnd 0 (Some 200); RequestError 1;
                 ResponseEnd 2 (Some 503)]
                demo_draining demo_url_parses demo_accepted demo_drain)
      as (_ & _ & Hquiet).
    apply Hquiet; reflexivity.
Defined.

(** X2.  At every point of a run [successCount] is the number of
    responses read to their end with a status code in [200, 400), and
    [failCount] the number of all other callbacks run: responses with
    another or no status code, errors and timeouts.  The record of a
    completed run carries these two numbers, as they were when the
    promise was fulfilled. *)
Theorem counters_follow_callbacks
    (clock : nat -> Z) (URL : string -> option URLRecord.t)
    (request_ok : bool -> RequestOptions.t -> bool)
    (options : BenchmarkOptions.t) (u : URLRecord.t)
    (events : list Event) (w : World) :
  URL (BenchmarkOptions.url options) = Some u ->
  benchmark clock URL request_ok options events = Some w ->
  successCount w = Z.of_nat (success_count events) /\
  failCount w = Z.of_nat (callback_count events - success_count events) /\
  (forall r : BenchmarkResult.t,
     promise w = Fulfilled r ->
     exists (done : list Event) (w1 : World),
       completed_by clock URL request_ok options events done w1 r /\
       BenchmarkResult.successfulRequests r = Z.of_nat (success_count done) /\
       BenchmarkResult.failedRequests r
       = Z.of_nat (callback_count done - success_count done)).
Proof.
  intros Hu Hrun.
  destruct (run_counts clock URL request_ok options u Hu events w Hrun)
    as (Hs & Hf & _).
  split; [exact Hs|]. split; [exact Hf|].
  intros r Hr.
  destruct (completion_facts clock URL request_ok options events w r Hrun Hr)
    as (done & w1 & k & Hc & (_ & _ & _ & _ & ->) & (Hs1 & Hf1 & _) & _).
  exists done, w1. split; [exact Hc|]. simpl. split; assumption.
Qed.

Lemma counters_follow_callbacks_witness :
  successCount demo_world = 1 /\
  failCount demo_world = 3 /\
  exists (done : list Event) (w1 : World),
    completed_by demo_clock demo_URL demo_request_ok demo_options demo_events
      done w1 demo_result /\
    BenchmarkResult.successfulRequests demo_result
    = Z.of_nat (success_count done).
Proof.
  destruct (counters_follow_callbacks demo_clock demo_URL demo_request_ok
              demo_options demo_urlObj demo_events demo_world demo_url_parses
              demo_run)
    as (Hs & Hf & Hr).
  destruct (Hr demo_result demo_fulfilled) as (done & w1 & Hc & Hrs & _).
  split; [exact Hs|]. split; [exact Hf|].
  exists done, w1. split; assumption.
Defined.

(** ** The number of requests in flight *)

Section Concurrency.

Variable clock : nat -> Z.
Variable request_ok : bool -> RequestOptions.t -> bool.
Variable options : BenchmarkOptions.t.
Variable urlObj : URLRecord.t.
Variable startTime : Z.

Lemma start_connections_sizes (n : nat) (w : World) :
  let w' := exec (start_connections clock request_ok options urlObj startTime
                    n) w in
  (length (in_flight w') <= length (in_flight w) + n)%nat /\
  activeConnections w' <= activeConnections w + Z.of_nat n /\
  (n = 0%nat -> w' = w).
Proof.
  revert w. induction n as [|n IH]; intros w; cbv zeta.
  - unfold exec, ret. simpl. repeat split; lia.
  - simpl start_connections. rewrite exec_then.
    destruct (makeRequest_sends clock request_ok options urlObj startTime w)
      as (_ & Hsent). cbv zeta in Hsent.
    set (w1 := exec (makeRequest clock request_ok options urlObj startTime) w)
      in *.
    assert (H1 : (length (in_flight w1) <= length (in_flight w) + 1)%nat /\
                 activeConnections w1 <= activeConnections w + 1).
    { destruct Hsent as [(Hin & _ & Ha & _)|[(Hin & _ & Ha & _)
                        |(Hin & _ & Ha & _)]];
        rewrite Hin, Ha; simpl length; lia. }
    destruct (throws _ w).
    + repeat split; lia.
    + destruct (IH w1) as (Hl & Ha & _). repeat split; lia.
Qed.

(** What one event does to the sizes of the state. *)
Lemma deliver_sizes (e : Event) (w w' : World) :
  deliver clock request_ok options urlObj startTime e w = Some w' ->
  (clock_reads w <= clock_reads w')%nat /\
  (length (in_flight w') + (if closes e then 1 else 0)
   <= length (in_flight w) + (if is_callback e then 1 else 0))%nat /\
  activeConnections w' <= activeConnections w.
Proof.
  intros H.
  destruct (deliver_inv clock request_ok options urlObj startTime e w w' H)
    as (req & rest & Htake & _ & ->).
  destruct (take_spec _ _ _ _ Htake) as (Hlen & _).
  destruct (detach_fields e rest w)
    as (_ & _ & _ & Da & _ & Dr & _ & _ & Df).
  destruct (committed_state clock options startTime e (req_start req)
              (detach e rest w)) as (Hin & _ & Hreads & _).
  destruct (committed_counters clock options startTime e (req_start req)
              (detach e rest w)) as (_ & _ & Hact & _).
  cbv zeta in Hin, Hreads, Hact.
  set (wc := committed clock options startTime e (req_start req)
               (detach e rest w)) in *.
  assert (Hlc : (length (in_flight wc) + (if closes e then 1 else 0)
                 = length (in_flight w))%nat).
  { rewrite Hin, Df.
    destruct e as [id sc|id|id|id]; cbn [is_timeout closes];
      rewrite ?length_map; lia. }
  destruct (is_callback e) eqn:Ecb.
  - destruct (makeRequest_sends clock request_ok options urlObj startTime wc)
      as (Hr & [(Hi & _ & Ha & _)|[(Hi & _ & Ha & _)|(Hi & _ & Ha & _)]]);
      cbv zeta in Hr; rewrite Hi, Ha; simpl length; repeat split; lia.
  - destruct e; try discriminate Ecb.
    cbn [closes] in *. unfold detach in *. cbn [closes] in *.
    simpl in *. repeat split; lia.
Qed.


Hypothesis accepted :
  request_ok (isHttps urlObj) (reqOptions options urlObj) = true.



End Concurrency.

Section Draining.

Variable clock : nat -> Z.
Variable request_ok : bool -> RequestOptions.t -> bool.
Variable options : BenchmarkOptions.t.
Variable urlObj : URLRecord.t.
Variable startTime : Z.

(** Once the deadline has passed an event is followed by no request. *)
Lemma deliver_past_deadline (e : Event) (w w' : World) :
  deadline_passed clock options startTime w ->
  deliver clock request_ok options urlObj startTime e w = Some w' ->
  deadline_passed clock options startTime w' /\
  issued w' = issued w /\
  length (in_flight w)
  = ((if closes e then 1 else 0) + length (in_flight w'))%nat /\
  activeConnections w'
  = activeConnections w - (if is_callback e then 1 else 0).
Proof.
  intros Hpast H.
  destruct (deliver_sizes clock request_ok options urlObj startTime e w w' H)
    as (Hreads & _).
  split; [intros i Hi; apply Hpast; lia|].
  destruct (deliver_inv clock request_ok options urlObj startTime e w w' H)
    as (req & rest & Htake & _ & ->).
  destruct (take_spec _ _ _ _ Htake) as (Hlen & _).
  destruct (detach_fields e rest w)
    as (_ & _ & _ & Da & _ & Dr & Di & _ & Df).
  destruct (committed_state clock options startTime e (req_start req)
              (detach e rest w)) as (Hin & Hiss & Hrc & _).
  destruct (committed_counters clock options startTime e (req_start req)
              (detach e rest w)) as (_ & _ & Hact & _).
  cbv zeta in Hin, Hiss, Hrc, Hact.
  set (wc := committed clock options startTime e (req_start req)
               (detach e rest w)) in *.
  assert (Hlc : (length (in_flight wc) + (if closes e then 1 else 0)
                 = length (in_flight w))%nat).
  { rewrite Hin, Df.
    destruct e as [id sc|id|id|id]; cbn [is_timeout closes];
      rewrite ?length_map; lia. }
  destruct (is_callback e) eqn:Ecb.
  - destruct (makeRequest_sends clock request_ok options urlObj startTime wc)
      as (_ & [(Hi & Hs & Ha & _)|[(_ & _ & _ & _ & Hb & _)|(_ & _ & _ & Hb & _)]]).
    + rewrite Hi, Hs, Ha, Hiss, Hact, Di, Da. repeat split; lia.
    + assert (endTime options startTime <= clock (clock_reads wc))
        by (apply Hpast; lia).
      lia.
    + assert (endTime options startTime <= clock (clock_reads wc))
        by (apply Hpast; lia).
      lia.
  - destruct e; try discriminate Ecb.
    cbn [closes] in *. unfold detach in *. cbn [closes] in *.
    simpl in *. repeat split; lia.
Qed.

Lemma run_past_deadline (events : list Event) (w w' : World) :
  deadline_passed clock options startTime w ->
  run clock request_ok options urlObj startTime events w = Some w' ->
  issued w' = issued w /\
  length (in_flight w)
  = (length (filter closes events) + length (in_flight w'))%nat /\
  activeConnections w'
  = activeConnections w - Z.of_nat (callback_count events).
Proof.
  revert w. induction events as [|e events IH]; intros w Hpast H; simpl in H.
  - inversion H; subst. unfold callback_count. simpl. repeat split; lia.
  - destruct (deliver clock request_ok options urlObj startTime e w)
      as [w1|] eqn:Hd; [|discriminate].
    destruct (deliver_past_deadline e w w1 Hpast Hd)
      as (Hpast1 & Hi & Hl & Ha).
    destruct (IH w1 Hpast1 H) as (Hi' & Hl' & Ha').
    unfold callback_count in *. cbn [filter].
    destruct (closes e), (is_callback e); cbn [length] in *;
      repeat split; lia.
Qed.

End Draining.

(** X3.  Whatever the clock does, [activeConnections] never exceeds
    [connections], and the requests open at any point of a run are at
    most [connections] plus the timeouts delivered so far: the
    'timeout' callback starts the next request while the request that
    timed out, which it destroys, is still open. *)
Theorem in_flight_at_most_connections
    (clock : nat -> Z) (URL : string -> option URLRecord.t)
    (request_ok : bool -> RequestOptions.t -> bool)
    (options : BenchmarkOptions.t) (u : URLRecord.t)
    (events : list Event) (w : World) :
  URL (BenchmarkOptions.url options) = Some u ->
  benchmark clock URL request_ok options events = Some w ->
  (length (in_flight w)
   <= Z.to_nat (BenchmarkOptions.connections options)
      + timeout_count events)%nat /\
  activeConnections w <= Z.max 0 (BenchmarkOptions.connections options).
Proof.
  intros Hu. revert events w.
  apply (benchmark_ind clock URL request_ok options u Hu
           (fun events w =>
              (length (in_flight w)
               <= Z.to_nat (BenchmarkOptions.connections options)
                  + timeout_count events)%nat /\
              activeConnections w
              <= Z.max 0 (BenchmarkOptions.connections options))).
  - rewrite (runHttpBenchmark_started clock URL request_ok options u Hu).
    cbv zeta.
    destruct (start_connections_sizes clock request_ok options u (clock 0%nat)
                (Z.to_nat (BenchmarkOptions.connections options))
                (tick initial)) as (Hl & Ha & _).
    cbv zeta in Hl, Ha. simpl in Hl, Ha.
    destruct (throws _ _).
    + unfold reject. destruct (promise _); simpl; split; lia.
    + split; lia.
  - intros events e w w' _ (Hl & Ha) Hd.
    destruct (deliver_sizes clock request_ok options u (clock 0%nat) e w w' Hd)
      as (_ & Hl' & Ha').
    unfold timeout_count in *. rewrite count_app.
    split; [|lia].
    destruct e as [id sc|id|id|id];
      cbn [closes is_callback is_timeout filter length] in *; lia.
Qed.

Lemma in_flight_at_most_connections_witness :
  (length (in_flight crowded_world) <= 2 + 1)%nat /\
  activeConnections crowded_world <= 2.
Proof.
  exact (in_flight_at_most_connections hung_clock demo_URL demo_request_ok
           patient_options demo_urlObj hung_events crowded_world eq_refl
           crowded_run).
Defined.



(** X5.  Once every clock read finds the deadline passed no request is
    sent any more: the events that follow only close requests, one
    each except for a 'timeout', which leaves its request open, and
    each callback among them lowers [activeConnections] by one. *)
Theorem no_request_after_deadline
    (clock : nat -> Z) (request_ok : bool -> RequestOptions.t -> bool)
    (options : BenchmarkOptions.t) (urlObj : URLRecord.t)
    (startTime : Z) (rest : list Event) (w w' : World) :
  deadline_passed clock options startTime w ->
  run clock request_ok options urlObj startTime rest w = Some w' ->
  issued w' = issued w /\
  length (in_flight w)
  = (length (filter closes rest) + length (in_flight w'))%nat /\
  activeConnections w' = activeConnections w - Z.of_nat (callback_count rest).
Proof.
  intros Hpast Hrun.
  apply (run_past_deadline clock request_ok options urlObj startTime rest w w'
           Hpast Hrun).
Qed.

Lemma no_request_after_deadline_witness :
  issued demo_late = issued demo_draining /\
  length (in_flight demo_draining)
  = (1 + length (in_flight demo_late))%nat /\
  activeConnections demo_late = activeConnections demo_draining - 2.
Proof.
  exact (no_request_after_deadline demo_clock demo_request_ok demo_options
           demo_urlObj (demo_clock 0%nat) [RequestTimeout 3; RequestError 3]
           demo_draining demo_late demo_draining_past_deadline eq_refl).
Defined.

(** ** Latencies *)

(** X6.  With a clock that does not run backwards no latency is ever
    negative, at any point of a run; so in the record of a completed
    run the minimum, the average, the maximum and the three percentiles
    are at least 0. *)
Theorem latency_statistics_nonnegative
    (clock : nat -> Z) (URL : string -> option URLRecord.t)
    (request_ok : bool -> RequestOptions.t -> bool)
    (options : BenchmarkOptions.t) (u : URLRecord.t)
    (events : list Event) (w : World) :
  (forall i j : nat, (i <= j)%nat -> clock i <= clock j) ->
  URL (BenchmarkOptions.url options) = Some u ->
  benchmark clock URL request_ok options events = Some w ->
  Forall (fun x => 0 <= x) (latencies w) /\
  forall r : BenchmarkResult.t,
    promise w = Fulfilled r ->
    0 <= BenchmarkResult.minLatency r /\
    (0 <= BenchmarkResult.avgLatency r)%Q /\
    0 <= BenchmarkResult.maxLatency r /\
    exists a b c : Z,
      BenchmarkResult.p50 r = Some a /\ BenchmarkResult.p95 r = Some b /\
      BenchmarkResult.p99 r = Some c /\ 0 <= a /\ 0 <= b /\ 0 <= c.
Proof.
  intros Hmono Hu Hrun.
  destruct (latencies_nonnegative clock URL request_ok options Hmono u Hu
              events w Hrun) as (_ & Hl).
  split; [exact Hl|]. intros r Hr.
  destruct (completion clock URL request_ok options events w r Hrun Hr)
    as (done & w1 & k & (_ & Hdone & _) & (_ & _ & _ & Hs & ->) & _).
  destruct (latencies_nonnegative clock URL request_ok options Hmono u Hu
              done w1 Hdone) as (_ & Hl1).
  destruct (latencies w1) as [|x l] eqn:El.
  - simpl. repeat split; try lia; try discriminate.
    exists 0, 0, 0. repeat split; (reflexivity || lia).
  - assert (Hne : x :: l <> []) by discriminate.
    destruct (result_of_order options
                (inject_Z (clock (S k) - clock 0%nat) / 1000)%Q
                (clock (S (S k))) (x :: l) (successCount w1) (failCount w1)
                Hs Hne) as (a & b & c & Ha & Hb & Hc & Hma & Hab & Hbc & HcM).
    assert (Hmin : 0 <= hd 0 (x :: l)).
    { apply (Forall_inv Hl1). }
    assert (Havg : (0 <= inject_Z (sum (x :: l))
                         / inject_Z (Z.of_nat (length (x :: l))))%Q).
    { destruct (average_between (x :: l) 0 (last (x :: l) 0) Hne) as (Hlo & _).
      - rewrite Forall_forall in *. intros y Hy. split; [apply Hl1, Hy|].
        apply (sorted_bounds (x :: l) y Hs Hy).
      - exact Hlo. }
    simpl in Hma, HcM, Ha, Hb, Hc |- *.
    split; [exact Hmin|]. split; [exact Havg|]. split; [simpl in Hmin; lia|].
    exists a, b, c. simpl in Hmin. repeat split; (assumption || lia).
Qed.

Lemma latency_statistics_nonnegative_witness :
  Forall (fun x => 0 <= x) (latencies demo_world) /\
  0 <= BenchmarkResult.minLatency demo_result /\
  (0 <= BenchmarkResult.avgLatency demo_result)%Q.
Proof.
  destruct (latency_statistics_nonnegative demo_clock demo_URL demo_request_ok
              demo_options demo_urlObj demo_events demo_world
              demo_clock_monotone demo_url_parses demo_run) as (Hl & Hr).
  destruct (Hr demo_result demo_fulfilled) as (Hmin & Havg & _).
  repeat split; assumption.
Defined.

(** X7.  In the record of a completed run the average latency lies
    between the minimum and the maximum; the three are 0 when the run
    has no timed sample. *)
Theorem average_between_min_and_max
    (clock : nat -> Z) (URL : string -> option URLRecord.t)
    (request_ok : bool -> RequestOptions.t -> bool)
    (options : BenchmarkOptions.t) (events : list Event)
    (w : World) (r : BenchmarkResult.t) :
  benchmark clock URL request_ok options events = Some w ->
  promise w = Fulfilled r ->
  (inject_Z (BenchmarkResult.minLatency r) <= BenchmarkResult.avgLatency r)%Q /\
  (BenchmarkResult.avgLatency r <= inject_Z (BenchmarkResult.maxLatency r))%Q.
Proof.
  intros Hrun Hr.
  destruct (completion clock URL request_ok options events w r Hrun Hr)
    as (done & w1 & k & _ & (_ & _ & _ & Hs & ->) & _).
  simpl. destruct (latencies w1) as [|x l] eqn:El.
  - simpl. split; apply Qle_refl.
  - assert (Hne : x :: l <> []) by discriminate.
    rewrite (nonempty_length _ Hne).
    apply (average_between (x :: l)); [exact Hne|].
    rewrite Forall_forall. intros y Hy. apply (sorted_bounds _ y Hs Hy).
Qed.

Lemma average_between_min_and_max_witness :
  (inject_Z (BenchmarkResult.minLatency demo_result)
   <= BenchmarkResult.avgLatency demo_result)%Q /\
  (BenchmarkResult.avgLatency demo_result
   <= inject_Z (BenchmarkResult.maxLatency demo_result))%Q.
Proof.
  exact (average_between_min_and_max demo_clock demo_URL demo_request_ok
           demo_options demo_events demo_world demo_result demo_run
           demo_fulfilled).
Defined.

(** ** Progress reports *)

Section Progress.

Variable options : BenchmarkOptions.t.
Variable startTime : Z.
Hypothesis positive_duration : 0 < BenchmarkOptions.duration options.

Lemma progress_value_finite (now : Z) :
  progress_value options startTime now
  = Fin (if Qle_bool 100 (elapsed_percent options startTime now)
         then 100%Q
         else elapsed_percent options startTime now).
Proof.
  unfold progress_value. rewrite js_div_pos; [reflexivity|].
  rewrite <- (Zlt_Qlt 0). lia.
Qed.

Lemma elapsed_percent_mono (now now' : Z) :
  now <= now' ->
  (elapsed_percent options startTime now
   <= elapsed_percent options startTime now')%Q.
Proof.
  intros H. unfold elapsed_percent, Qdiv.
  apply Qmult_le_compat_r; [|discriminate].
  apply Qmult_le_compat_r.
  - rewrite <- Zle_Qle. lia.
  - apply Qinv_le_0_compat. rewrite <- (Zle_Qle 0). lia.
Qed.

Lemma elapsed_percent_nonneg (now : Z) :
  startTime <= now -> (0 <= elapsed_percent options startTime now)%Q.
Proof.
  intros H. eapply Qle_trans; [|apply (elapsed_percent_mono startTime now H)].
  unfold elapsed_percent. rewrite Z.sub_diag. unfold Qdiv.
  rewrite Qmult_0_l, Qmult_0_l. apply Qle_refl.
Qed.

Lemma progress_value_percentage (now : Z) :
  startTime <= now -> percentage (progress_value options startTime now).
Proof.
  intros H. rewrite progress_value_finite. simpl.
  destruct (Qle_bool 100 (elapsed_percent options startTime now)) eqn:E.
  - split; discriminate.
  - split; [apply elapsed_percent_nonneg, H|].
    apply Qlt_le_weak, Qnot_le_lt. intros Hle.
    apply Qle_bool_iff in Hle. congruence.
Qed.

Lemma progress_value_mono (now now' : Z) :
  now <= now' ->
  number_le (progress_value options startTime now)
            (progress_value options startTime now').
Proof.
  intros H. rewrite !progress_value_finite. simpl.
  pose proof (elapsed_percent_mono now now' H) as Hm.
  destruct (Qle_bool 100 (elapsed_percent options startTime now)) eqn:E1,
           (Qle_bool 100 (elapsed_percent options startTime now')) eqn:E2.
  - apply Qle_refl.
  - apply Qle_bool_iff in E1.
    assert (Hc : Qle_bool 100 (elapsed_percent options startTime now') = true).
    { apply Qle_bool_iff. eapply Qle_trans; eassumption. }
    congruence.
  - apply Qlt_le_weak, Qnot_le_lt. intros Hle.
    apply Qle_bool_iff in Hle. congruence.
  - exact Hm.
Qed.

End Progress.

Section ProgressOfRuns.

Variable clock : nat -> Z.
Variable URL : string -> option URLRecord.t.
Variable request_ok : bool -> RequestOptions.t -> bool.
Variable options : BenchmarkOptions.t.
Variable u : URLRecord.t.
Hypothesis url_parses : URL (BenchmarkOptions.url options) = Some u.

(** Each report is computed from a clock read of its own, later than
    the reads of the reports before it. *)
Lemma reports_follow_clock (events : list Event) (w : World) :
  benchmark clock URL request_ok options events = Some w ->
  exists js : list nat, reported_at clock options (clock 0%nat) js w.
Proof.
  revert events w.
  apply (reachable_ind clock URL request_ok options u url_parses
           (fun w => exists js, reported_at clock options (clock 0%nat) js w)).
  - exists []. repeat split; constructor.
  - intros w0 (js & Hr & Hs & Hf). exists js.
    destruct (makeRequest_same_samples clock request_ok options u (clock 0%nat)
                w0) as (_ & _ & _ & Hrep).
    destruct (makeRequest_sends clock request_ok options u (clock 0%nat) w0)
      as (Hreads & _).
    cbv zeta in Hreads.
    split; [rewrite Hrep; exact Hr|]. split; [exact Hs|].
    eapply Forall_impl; [|exact Hf]. intros j Hj. simpl in Hj. lia.
  - intros w0 Hw0. unfold reject. destruct (promise w0); exact Hw0.
  - intros e req rest w0 (js & Hr & Hs & Hf) Htake _.
    destruct (committed_effect clock options (clock 0%nat) e (req_start req)
                (detach e rest w0)) as (_ & _ & _ & Hrep).
    destruct (committed_state clock options (clock 0%nat) e (req_start req)
                (detach e rest w0)) as (_ & _ & Hreads & _).
    destruct (detach_fields e rest w0)
      as (_ & _ & _ & _ & _ & Dr & _ & Drep & _).
    cbv zeta in Hrep, Hreads. rewrite Dr in Hreads. rewrite Drep, Dr in Hrep.
    destruct (is_timed e) eqn:Et.
    + destruct e as [id sc|id|id|id]; try discriminate Et.
      exists (S (clock_reads w0) :: js).
      split; [rewrite Hrep, Hr; reflexivity|]. split.
      * constructor; [exact Hs|].
        eapply Forall_impl; [|exact Hf]. intros j Hj. simpl in Hj. lia.
      * assert (Hc : (S (clock_reads w0)
                      < clock_reads
                          (committed clock options (clock 0%nat)
                             (ResponseEnd id sc) (req_start req)
                             (detach (ResponseEnd id sc) rest w0)))%nat).
        { simpl. unfold committed_end. destruct (status_ok sc); simpl; lia. }
        constructor; [lia|].
        eapply Forall_impl; [|exact Hf]. intros j Hj. simpl in Hj. lia.
    + exists js. split; [rewrite Hrep; exact Hr|]. split; [exact Hs|].
      eapply Forall_impl; [|exact Hf]. intros j Hj. simpl in Hj. lia.
Qed.

End ProgressOfRuns.

(** X8.  For a positive configured duration and a clock that does not
    run backwards every value passed to [onProgress] is a finite
    number between 0 and 100, and the values never decrease from one
    call to the next. *)
Theorem progress_is_a_rising_percentage
    (clock : nat -> Z) (URL : string -> option URLRecord.t)
    (request_ok : bool -> RequestOptions.t -> bool)
    (options : BenchmarkOptions.t) (u : URLRecord.t)
    (events : list Event) (w : World) :
  (forall i j : nat, (i <= j)%nat -> clock i <= clock j) ->
  0 < BenchmarkOptions.duration options ->
  URL (BenchmarkOptions.url options) = Some u ->
  benchmark clock URL request_ok options events = Some w ->
  Forall percentage (reported w) /\
  StronglySorted (fun later earlier => number_le earlier later) (reported w).
Proof.
  intros Hmono Hd Hu Hrun.
  destruct (reports_follow_clock clock URL request_ok options u Hu events w
              Hrun) as (js & Hr & Hs & Hf).
  rewrite Hr. clear Hr Hrun. split.
  - rewrite Forall_forall. intros x Hx.
    apply in_map_iff in Hx. destruct Hx as (j & <- & Hj).
    apply (progress_value_percentage options (clock 0%nat) Hd).
    apply Hmono. lia.
  - clear Hf. induction Hs as [|j js Hs IH Hall]; simpl.
    + constructor.
    + constructor; [exact IH|].
      rewrite Forall_forall. intros x Hx.
      apply in_map_iff in Hx. destruct Hx as (j' & <- & Hj').
      apply (progress_value_mono options (clock 0%nat) Hd).
      apply Hmono. rewrite Forall_forall in Hall.
      specialize (Hall j' Hj'). simpl in Hall. lia.
Qed.

Lemma progress_is_a_rising_percentage_witness :
  Forall percentage (reported demo_world) /\
  StronglySorted (fun later earlier => number_le earlier later)
    (reported demo_world).
Proof.
  exact (progress_is_a_rising_percentage demo_clock demo_URL demo_request_ok
           demo_options demo_urlObj demo_events demo_world demo_clock_monotone
           eq_refl demo_url_parses demo_run).
Defined.

(** * Properties of the extension around the engine *)

(** ** The prompts *)

Lemma truthy_some (x : option string) (s : string) :
  truthy x = Some s -> x = Some s /\ s <> EmptyString.
Proof.
  destruct x as [t|]; simpl; [|discriminate].
  destruct (String.eqb_spec t EmptyString) as [->|Hne]; [discriminate|].
  intros H. inversion H; subst. split; [reflexivity | exact Hne].
Qed.

Lemma showInputBox_some (validateInput : string -> option string)
    (typed : option string) (s : string) :
  showInputBox validateInput typed = Some s ->
  typed = Some s /\ validateInput s = None.
Proof.
  destruct typed as [t|]; simpl; [|discriminate].
  destruct (validateInput t) eqn:E; [discriminate|].
  intros H. inversion H; subst. split; [reflexivity | exact E].
Qed.

Lemma existsb_eqb_In (s : string) (l : list string) :
  existsb (String.eqb s) l = true <-> In s l.
Proof.
  rewrite existsb_exists. split.
  - intros (x & Hin & Heq). apply String.eqb_eq in Heq. subst. exact Hin.
  - intros Hin. exists s. split; [exact Hin | apply String.eqb_refl].
Qed.

Section Prompts.

Variable URL : string -> option URLRecord.t.
Variable parseInt : string -> option Z.

Lemma validate_duration_accepts (s : string) :
  validate_duration parseInt s = None ->
  exists n, parseInt s = Some n /\ 1 <= n <= 60.
Proof.
  unfold validate_duration. destruct (parseInt s) as [n|]; [|discriminate].
  destruct (Z.ltb_spec n 1), (Z.ltb_spec 60 n); simpl; try discriminate.
  intros _. exists n. split; [reflexivity | lia].
Qed.

Lemma validate_connections_accepts (s : string) :
  validate_connections parseInt s = None ->
  exists n, parseInt s = Some n /\ 1 <= n <= 100.
Proof.
  unfold validate_connections. destruct (parseInt s) as [n|]; [|discriminate].
  destruct (Z.ltb_spec n 1), (Z.ltb_spec 100 n); simpl; try discriminate.
  intros _. exists n. split; [reflexivity | lia].
Qed.

Lemma validate_url_accepts (s : string) :
  validate_url URL s = None -> exists u, URL s = Some u.
Proof.
  unfold validate_url. destruct (URL s) as [u|]; [|discriminate].
  intros _. exists u. reflexivity.
Qed.

Lemma runBenchmark_cases (a : Answers) :
  runBenchmark URL parseInt a = Dismissed \/
  exists options, runBenchmark URL parseInt a = Launched options /\
                  prompted URL options.
Proof.
  unfold runBenchmark.
  destruct (truthy (showInputBox (validate_url URL) (typed_url a)))
    as [url|] eqn:Eu; [|left; reflexivity].
  destruct (truthy (showQuickPick methods (picked_method a)))
    as [method|] eqn:Em; [|left; reflexivity].
  destruct (truthy (showInputBox (validate_duration parseInt) (typed_duration a)))
    as [durationStr|] eqn:Ed; [|left; reflexivity].
  destruct (truthy (showInputBox (validate_connections parseInt)
                      (typed_connections a)))
    as [connectionsStr|] eqn:Ec; [|left; reflexivity].
  right.
  apply truthy_some in Eu, Em, Ed, Ec.
  destruct Eu as (Eu & _), Em as (Em & _), Ed as (Ed & _), Ec as (Ec & _).
  apply showInputBox_some in Eu, Ed, Ec.
  destruct Eu as (_ & Eu), Ed as (_ & Ed), Ec as (_ & Ec).
  destruct (validate_url_accepts url Eu) as (parsed & Hu).
  destruct (validate_duration_accepts durationStr Ed) as (d & Hd & Hdr).
  destruct (validate_connections_accepts connectionsStr Ec) as (c & Hc & Hcr).
  rewrite Hd, Hc.
  assert (Hm : In method methods).
  { unfold showQuickPick in Em. destruct (picked_method a) as [i|];
      [|discriminate]. eapply nth_error_In; exact Em. }
  destruct (existsb (String.eqb method) ["POST"; "PUT"; "PATCH"]%string)
    eqn:Eb.
  - apply existsb_eqb_In in Eb.
    destruct (truthy (typed_body a)) as [body|] eqn:Ebody.
    + apply truthy_some in Ebody. destruct Ebody as (_ & Hne).
      eexists. split; [reflexivity|]. unfold prompted. simpl.
      split; [exists parsed; exact Hu|].
      repeat split; (assumption || lia || reflexivity).
    + eexists. split; [reflexivity|]. unfold prompted. simpl.
      split; [exists parsed; exact Hu|].
      repeat split; (assumption || lia || reflexivity).
  - eexists. split; [reflexivity|]. unfold prompted. simpl.
    split; [exists parsed; exact Hu|].
    repeat split; (assumption || lia || reflexivity).
Qed.

End Prompts.

(** X9.  [runBenchmark] starts the engine only with a URL the
    platform's parser accepts, one of the five methods, a duration of
    1 to 60 and 1 to 100 connections; a body is sent only with POST,
    PUT or PATCH, is never empty and always comes with the header
    [Content-Type: application/json], and without a body no header is
    set.  It never builds options whose numbers are [NaN]. *)
Theorem runBenchmark_options
    (URL : string -> option URLRecord.t) (parseInt : string -> option Z)
    (a : Answers) :
  runBenchmark URL parseInt a <> NotANumber /\
  forall options : BenchmarkOptions.t,
    runBenchmark URL parseInt a = Launched options ->
    (exists u, URL (BenchmarkOptions.url options) = Some u) /\
    In (BenchmarkOptions.method options) methods /\
    1 <= BenchmarkOptions.duration options <= 60 /\
    1 <= BenchmarkOptions.connections options <= 100 /\
    match BenchmarkOptions.body options with
    | Some body =>
        body <> EmptyString /\
        In (BenchmarkOptions.method options) ["POST"; "PUT"; "PATCH"]%string /\
        BenchmarkOptions.headers options
        = Some [("Content-Type", "application/json")]%string
    | None => BenchmarkOptions.headers options = None
    end.
Proof.
  destruct (runBenchmark_cases URL parseInt a) as [H|(o & H & Hp)]; rewrite H.
  - split; [discriminate|]. intros options Ho. discriminate Ho.
  - split; [discriminate|]. intros options Ho. inversion Ho; subst.
    exact Hp.
Qed.

Lemma runBenchmark_options_witness :
  (exists u, demo_URL (BenchmarkOptions.url demo_post_options) = Some u) /\
  In (BenchmarkOptions.method demo_post_options) methods /\
  1 <= BenchmarkOptions.duration demo_post_options <= 60 /\
  1 <= BenchmarkOptions.connections demo_post_options <= 100 /\
  ("{}"%string <> EmptyString /\
   In (BenchmarkOptions.method demo_post_options)
      ["POST"; "PUT"; "PATCH"]%string /\
   BenchmarkOptions.headers demo_post_options
   = Some [("Content-Type", "application/json")]%string).
Proof.
  destruct (runBenchmark_options demo_URL demo_parseInt demo_answers)
    as (_ & H).
  exact (H demo_post_options eq_refl).
Defined.

(** ** Commands and the engine *)

Lemma demo_post_start :
  benchmark demo_clock demo_URL demo_request_ok demo_post_options []
  = Some demo_post_world.
Proof. vm_compute. reflexivity. Qed.

Lemma request_body_truthy (options : BenchmarkOptions.t) :
  request_body options = truthy (BenchmarkOptions.body options).
Proof. reflexivity. Qed.

Lemma percentile_total (l : list Z) (p : Q) :
  (p <= 1)%Q -> exists a, percentile l p = Some a.
Proof.
  intros Hp. destruct l as [|x l].
  - exists 0. reflexivity.
  - destruct (percentile_defined (x :: l) p) as (a & Ha & _);
      [discriminate | exact Hp |].
    exists a. exact Ha.
Qed.

(** The template of the results page throws exactly on a record that
    lacks a percentile. *)
Lemma getResultsHtml_spec (r : BenchmarkResult.t) :
  (charted r /\ getResultsHtml r = Some (ResultsView r)) \/
  (~ charted r /\ getResultsHtml r = None).
Proof.
  unfold charted, getResultsHtml.
  destruct (BenchmarkResult.p50 r) as [a|].
  - destruct (BenchmarkResult.p95 r) as [b|].
    + destruct (BenchmarkResult.p99 r) as [c|].
      * left. split; [|reflexivity].
        split; [exists a|split; [exists b|exists c]]; reflexivity.
      * right. split; [|reflexivity].
        intros (_ & _ & (c & Hc)). discriminate Hc.
    + right. split; [|reflexivity].
      intros (_ & (b & Hb) & _). discriminate Hb.
  - right. split; [|reflexivity].
    intros ((a & Ha) & _). discriminate Ha.
Qed.


Section EngineResults.

Variable clock : nat -> Z.
Variable URL : string -> option URLRecord.t.
Variable request_ok : bool -> RequestOptions.t -> bool.
Variable options : BenchmarkOptions.t.

(** Every record the engine produces has a URL that parses and its
    three percentiles. *)
Lemma engine_result_shape (events : list Event) (w : World)
    (r : BenchmarkResult.t) :
  benchmark clock URL request_ok options events = Some w ->
  promise w = Fulfilled r ->
  renderable URL r /\ charted r.
Proof.
  intros Hrun Hr.
  destruct (URL (BenchmarkOptions.url options)) as [u|] eqn:Hu.
  - destruct (run_fulfilled clock URL request_ok options u Hu events w r Hrun
                Hr) as (d & date & l & s & f & ->).
    unfold renderable, charted. simpl.
    split; [split; [exists u; exact Hu|]|repeat split];
      apply percentile_total; discriminate.
  - destruct (malformed_run clock URL request_ok options events w Hu Hrun)
      as [_ ->].
    discriminate Hr.
Qed.


End EngineResults.

(** X10.  A benchmark started from the prompts of [runBenchmark] has a
    URL the parser accepts, so its promise is rejected only when the
    HTTP module refuses the options of the first request, which name
    one of the five methods and carry no header or the JSON content
    type; the panel shows the error page exactly when the promise is
    rejected.  Each of its requests carries the configured method and
    the typed body, and a request with a body carries the JSON content
    type.  With a clock that does not run backwards its result has a
    duration of at least one second and a finite [requestsPerSecond]
    between 0 and the total. *)
Theorem prompted_benchmark_is_well_behaved
    (URL : string -> option URLRecord.t) (parseInt : string -> option Z)
    (request_ok : bool -> RequestOptions.t -> bool)
    (a : Answers) (options : BenchmarkOptions.t)
    (clock : nat -> Z) (events : list Event) (w : World) :
  runBenchmark URL parseInt a = Launched options ->
  benchmark clock URL request_ok options events = Some w ->
  (exists u : URLRecord.t,
     URL (BenchmarkOptions.url options) = Some u /\
     In (RequestOptions.method (reqOptions options u)) methods /\
     (RequestOptions.headers (reqOptions options u) = [] \/
      RequestOptions.headers (reqOptions options u)
      = [("Content-Type", "application/json")]%string) /\
     (promise w = Rejected <->
      request_ok (isHttps u) (reqOptions options u) = false /\
      clock 1%nat < endTime options (clock 0%nat))) /\
  (forall (saveHistory : bool) (message : string) (ext : Extension),
     snd (executeBenchmark saveHistory message options (promise w) ext)
     = ErrorView message <-> promise w = Rejected) /\
  (forall req : ClientRequest,
     In req (in_flight w) ->
     RequestOptions.method (req_options req) = BenchmarkOptions.method options /\
     written req = BenchmarkOptions.body options /\
     (written req <> None ->
      RequestOptions.headers (req_options req)
      = [("Content-Type", "application/json")]%string /\
      In (RequestOptions.method (req_options req))
         ["POST"; "PUT"; "PATCH"]%string)) /\
  ((forall i j : nat, (i <= j)%nat -> clock i <= clock j) ->
   forall r : BenchmarkResult.t,
     promise w = Fulfilled r ->
     (1 <= BenchmarkResult.duration r)%Q /\
     exists q : Q,
       BenchmarkResult.requestsPerSecond r = Fin q /\
       (0 <= q)%Q /\
       (q <= inject_Z (BenchmarkResult.totalRequests r))%Q).
Proof.
  intros Hlaunch Hrun.
  destruct (runBenchmark_cases URL parseInt a) as [H|(o & H & Hp)];
    rewrite H in Hlaunch; [discriminate|].
  inversion Hlaunch; subst o. clear Hlaunch H.
  destruct Hp as ((u & Hu) & Hmeth & (Hd1 & _) & (Hc1 & _) & Hbody).
  split; [|split; [|split]].
  - exists u. split; [exact Hu|]. split; [exact Hmeth|]. split.
    + simpl. destruct (BenchmarkOptions.body options) as [body|].
      * destruct Hbody as (_ & _ & ->). right. reflexivity.
      * rewrite Hbody. left. reflexivity.
    + pose proof (run_rejected_iff clock URL request_ok options events w Hrun)
        as Hiff.
      split.
      * intros Hr. destruct (proj1 Hiff Hr) as [Hn|(u' & Hu' & Hno & _ & Hb)];
          [congruence|].
        rewrite Hu in Hu'. inversion Hu'; subst u'. split; assumption.
      * intros (Hno & Hb). apply (proj2 Hiff). right. exists u.
        repeat split; (assumption || lia).
  - intros saveHistory message ext.
    destruct (promise w) as [|r|] eqn:Ep; simpl.
    + split; discriminate.
    + destruct (engine_result_shape clock URL request_ok options events w r
                  Hrun Ep) as (_ & Hch).
      destruct (getResultsHtml_spec r) as [(_ & ->)|(Hn & _)];
        [|contradiction].
      split; discriminate.
    + split; reflexivity.
  - intros req Hin.
    destruct (run_requests clock URL request_ok options u Hu events w Hrun)
      as (Hreq & _).
    unfold requests_from in Hreq.
    rewrite Forall_forall in Hreq. destruct (Hreq req Hin) as (Ho & _ & Hw).
    rewrite Ho, Hw, request_body_truthy. simpl.
    destruct (BenchmarkOptions.body options) as [body|] eqn:Eb.
    + destruct Hbody as (Hne & Hm & Hh). simpl.
      destruct (String.eqb_spec body EmptyString) as [->|_]; [congruence|].
      split; [reflexivity|]. split; [reflexivity|].
      intros _. rewrite Hh. split; [reflexivity | exact Hm].
    + simpl. split; [reflexivity|]. split; [reflexivity|].
      intros Hn. congruence.
  - intros Hmono r Hr.
    destruct (completion_facts clock URL request_ok options events w r Hrun Hr)
      as (done & w1 & k & _ & (_ & Hend & _ & _ & ->) & (Hs & Hf & _) & _).
    pose proof (measured_duration_bound clock options k Hmono Hend) as Hdur.
    simpl.
    assert (H1 : (1 <= inject_Z (clock (S k) - clock 0%nat) / 1000)%Q).
    { eapply Qle_trans; [|exact Hdur]. rewrite <- (Zle_Qle 1). exact Hd1. }
    split; [exact H1|].
    assert (Hpos : (0 < inject_Z (clock (S k) - clock 0%nat) / 1000)%Q).
    { eapply Qlt_le_trans; [|exact H1]. reflexivity. }
    assert (Htot : (0 <= inject_Z (successCount w1 + failCount w1))%Q).
    { rewrite <- (Zle_Qle 0). lia. }
    eexists. split; [apply js_div_pos, Hpos|]. split.
    + apply Qle_shift_div_l; [exact Hpos|].
      rewrite Qmult_0_l. exact Htot.
    + apply Qle_shift_div_r; [exact Hpos|].
      rewrite <- (Qmult_1_r (inject_Z (successCount w1 + failCount w1))) at 1.
      rewrite (Qmult_comm _ 1), (Qmult_comm (inject_Z _) (_ / _)).
      apply Qmult_le_compat_r; assumption.
Qed.

Lemma prompted_benchmark_is_well_behaved_witness :
  promise demo_post_world <> Rejected /\
  snd (executeBenchmark true "socket hang up" demo_post_options
         (promise demo_post_world) (activate None))
  <> ErrorView "socket hang up".
Proof.
  destruct (prompted_benchmark_is_well_behaved demo_URL demo_parseInt
              demo_request_ok demo_answers demo_post_options demo_clock []
              demo_post_world eq_refl demo_post_start)
    as ((u & Hu & _ & _ & Hrej) & Herr & _).
  assert (Hn : promise demo_post_world <> Rejected).
  { intros Hr. destruct (proj1 Hrej Hr) as (Hno & _).
    inversion Hu; subst u. discriminate Hno. }
  split; [exact Hn|].
  intros He. apply Hn.
  apply (proj1 (Herr true "socket hang up"%string (activate None)) He).
Defined.

(** X11.  [quickTest] always asks for a GET benchmark of 5 seconds on
    5 connections and takes the URL as it was typed.  When the parser
    refuses that URL the engine rejects before any request, no callback
    can follow, the panel shows the error page and the history is left
    as it was. *)
Theorem quickTest_takes_the_url_as_typed
    (URL : string -> option URLRecord.t)
    (request_ok : bool -> RequestOptions.t -> bool) (typed : option string)
    (options : BenchmarkOptions.t) :
  quickTest typed = Launched options ->
  (typed = Some (BenchmarkOptions.url options) /\
   BenchmarkOptions.method options = "GET"%string /\
   BenchmarkOptions.duration options = 5 /\
   BenchmarkOptions.connections options = 5 /\
   BenchmarkOptions.headers options = None /\
   BenchmarkOptions.body options = None) /\
  (URL (BenchmarkOptions.url options) = None ->
   forall (clock : nat -> Z) (saveHistory : bool) (message : string)
          (events : list Event) (ext : Extension),
     command URL request_ok clock saveHistory message (quickTest typed) events
       ext
     = match events with
       | [] => Some (ext, ErrorView message)
       | _ :: _ => None
       end).
Proof.
  intros H. split.
  - unfold quickTest in H.
    destruct (truthy typed) as [url|] eqn:Et; [|discriminate].
    inversion H; subst. simpl.
    apply truthy_some in Et. destruct Et as (Et & _).
    repeat split; (assumption || reflexivity).
  - intros Hu clock saveHistory message events ext.
    rewrite H. unfold command.
    destruct (benchmark clock URL request_ok options events) as [w|] eqn:Hrun.
    + destruct (malformed_run clock URL request_ok options events w Hu Hrun)
        as (-> & ->).
      reflexivity.
    + destruct events as [|e events]; [|reflexivity].
      unfold benchmark in Hrun. rewrite Hu in Hrun. discriminate.
Qed.

Lemma quickTest_takes_the_url_as_typed_witness :
  BenchmarkOptions.method malformed_quick_options = "GET"%string /\
  command demo_URL demo_request_ok demo_clock true "Invalid URL"
    (quickTest (Some "not a url"%string)) [] (activate None)
  = Some (activate None, ErrorView "Invalid URL").
Proof.
  destruct (quickTest_takes_the_url_as_typed demo_URL demo_request_ok
              (Some "not a url"%string) malformed_quick_options eq_refl)
    as ((_ & Hm & _) & Herr).
  split; [exact Hm|].
  exact (Herr eq_refl demo_clock true "Invalid URL"%string [] (activate None)).
Defined.

(** ** The history *)

Lemma remember_short (r : BenchmarkResult.t) (h : list BenchmarkResult.t) :
  (length h <= 50)%nat -> remember r h = firstn 50 (r :: h).
Proof.
  intros Hlen. unfold remember.
  destruct (Nat.ltb_spec 50 (length (r :: h))) as [Hfull|Hroom].
  - rewrite removelast_firstn_len.
    replace (pred (length (r :: h))) with 50%nat by (simpl in *; lia).
    reflexivity.
  - symmetry. apply firstn_all2. exact Hroom.
Qed.

Lemma remember_length (r : BenchmarkResult.t) (h : list BenchmarkResult.t) :
  length (remember r h) = Nat.max (length h) (Nat.min (S (length h)) 50).
Proof.
  unfold remember.
  destruct (Nat.ltb_spec 50 (length (r :: h))) as [Hfull|Hroom].
  - rewrite removelast_firstn_len, length_firstn. simpl in *. lia.
  - simpl in *. lia.
Qed.

Lemma remember_In (r x : BenchmarkResult.t) (h : list BenchmarkResult.t) :
  In x (remember r h) -> x = r \/ In x h.
Proof.
  unfold remember.
  destruct (50 <? length (r :: h))%nat.
  - rewrite removelast_firstn_len. intros Hin.
    assert (Hin' : In x (r :: h)).
    { rewrite <- (firstn_skipn (pred (length (r :: h))) (r :: h)).
      apply in_or_app. left. exact Hin. }
    destruct Hin' as [<-|Hin']; [left|right]; auto.
  - intros [<-|Hin]; [left|right]; auto.
Qed.

Lemma firstn_app_firstn {A : Type} (n : nat) (a b : list A) :
  firstn n (a ++ firstn n b) = firstn n (a ++ b).
Proof.
  rewrite !firstn_app, firstn_firstn.
  replace (Nat.min (n - length a) n) with (n - length a)%nat by lia.
  reflexivity.
Qed.

(** X12.  A result is stored only when the benchmark was fulfilled and
    [saveHistory] is set; it then comes first, the entries before it
    keep their order, and of a history of at most 50 entries the
    newest 50 are kept, in memory and in the stored copy alike.  After
    any number of saved results the history is the newest 50 of them
    and of the entries it started with.  A history that was loaded
    with more than 50 entries is never cut back to 50: each result
    stored drops one entry only. *)
Theorem history_keeps_the_newest_fifty
    (saveHistory : bool) (message : string) (options : BenchmarkOptions.t)
    (settled : Promise) (ext : Extension) :
  let ext' := fst (executeBenchmark saveHistory message options settled ext) in
  ((saveHistory = false \/ settled = Pending \/ settled = Rejected) ->
   ext' = ext) /\
  (forall r : BenchmarkResult.t,
     settled = Fulfilled r -> saveHistory = true ->
     hd_error (benchmarkHistory ext') = Some r /\
     globalState ext' = Some (benchmarkHistory ext') /\
     refreshes ext' = S (refreshes ext) /\
     ((length (benchmarkHistory ext) <= 50)%nat ->
      benchmarkHistory ext' = firstn 50 (r :: benchmarkHistory ext) /\
      (length (benchmarkHistory ext') <= 50)%nat) /\
     ((50 <= length (benchmarkHistory ext))%nat ->
      length (benchmarkHistory ext') = length (benchmarkHistory ext))) /\
  (forall (h0 : list BenchmarkResult.t) (results : list BenchmarkResult.t),
     (length h0 <= 50)%nat ->
     fold_left (fun h r => remember r h) results h0
     = firstn 50 (rev results ++ h0)).
Proof.
  cbv zeta. split; [|split].
  - intros [->|[->| ->]]; [destruct settled|..]; reflexivity.
  - intros r -> ->. cbn [executeBenchmark fst benchmarkHistory globalState refreshes].
    split.
    { unfold remember. destruct (50 <? _)%nat eqn:E; [|reflexivity].
      apply Nat.ltb_lt in E. simpl in E.
      destruct (benchmarkHistory ext) as [|x l]; [simpl in E; lia|].
      reflexivity. }
    split; [reflexivity|]. split; [reflexivity|]. split.
    + intros Hlen. rewrite (remember_short r _ Hlen).
      split; [reflexivity|]. rewrite length_firstn. lia.
    + intros Hlen. rewrite remember_length. lia.
  - intros h0 results. revert h0.
    induction results as [|r results IH]; intros h0 Hlen;
      cbn [fold_left rev app].
    + symmetry. apply firstn_all2. exact Hlen.
    + rewrite IH by (rewrite remember_length; lia).
      rewrite (remember_short r h0 Hlen), firstn_app_firstn.
      rewrite <- app_assoc. reflexivity.
Qed.

Lemma history_keeps_the_newest_fifty_witness :
  hd_error
    (benchmarkHistory
       (fst (executeBenchmark true "Invalid URL" demo_options
               (Fulfilled demo_result) (activate None))))
  = Some demo_result /\
  fold_left (fun h r => remember r h) [demo_result; demo_result] []
  = firstn 50 (rev [demo_result; demo_result] ++ []).
Proof.
  destruct (history_keeps_the_newest_fifty true "Invalid URL" demo_options
              (Fulfilled demo_result) (activate None)) as (_ & Hsave & Hall).
  destruct (Hsave demo_result eq_refl eq_refl) as (Hhd & _).
  split; [exact Hhd|].
  apply Hall. apply Nat.le_0_l.
Defined.

(** ** History views *)




(** X13.  The tree view builds one item per entry, in order, for every
    history whose entries have a URL that parses and a [p99]; and it
    throws on any other history.  Every result the engine produces is
    such an entry, whatever the clock does, so a history the tree view
    can show is still one after any benchmark has been recorded. *)
Theorem tree_view_shows_recorded_results
    (URL : string -> option URLRecord.t)
    (request_ok : bool -> RequestOptions.t -> bool)
    (toFixed : nat -> number -> string)
    (toLocaleString : Z -> string) :
  (forall history : list BenchmarkResult.t,
     Forall (renderable URL) history <->
     exists items : list TreeItem,
       getChildren URL toFixed toLocaleString history = Some items /\
       map result items = history) /\
  (forall (clock : nat -> Z) (saveHistory : bool) (message : string)
          (options : BenchmarkOptions.t) (events : list Event)
          (ext ext' : Extension) (view : View),
     command URL request_ok clock saveHistory message (Launched options)
       events ext
     = Some (ext', view) ->
     Forall (renderable URL) (benchmarkHistory ext) ->
     Forall (renderable URL) (benchmarkHistory ext')).
Proof.
  split.
  - intros history. unfold getChildren. generalize 0%nat.
    induction history as [|r h IH]; intros i; simpl.
    + split; [intros _; exists []; split; reflexivity | constructor].
    + split.
      * intros Hall. inversion Hall as [|? ? ((u & Hu) & (a & Ha)) Hrest]; subst.
        destruct (proj1 (IH (S i)) Hrest) as (items & Hi & Hm).
        unfold BenchmarkHistoryItem at 1. rewrite Hu, Ha. simpl.
        rewrite Hi. eexists. split; [reflexivity|]. simpl. rewrite Hm.
        reflexivity.
      * intros (items & Hi & Hm).
        unfold BenchmarkHistoryItem at 1 in Hi.
        destruct (URL (BenchmarkResult.url r)) as [u|] eqn:Hu; [|discriminate].
        destruct (BenchmarkResult.p99 r) as [a|] eqn:Ha; [|discriminate].
        simpl in Hi.
        destruct (map_index _ h (S i)) as [items'|] eqn:Hi'; [|discriminate].
        inversion Hi; subst. simpl in Hm. inversion Hm as [Hm'].
        constructor.
        -- split; [exists u; exact Hu | exists a; exact Ha].
        -- rewrite Hm'. apply (IH (S i)). exists items'. split; assumption.
  - intros clock saveHistory message options events ext ext' view Hc Hall.
    unfold command in Hc.
    destruct (benchmark clock URL request_ok options events) as [w|] eqn:Hrun;
      [|discriminate].
    injection Hc as Hc.
    assert (Hext : ext' = fst (executeBenchmark saveHistory message options
                                 (promise w) ext))
      by (rewrite Hc; reflexivity).
    rewrite Hext. clear Hc Hext.
    destruct (promise w) as [|r|] eqn:Hp; simpl; try exact Hall.
    destruct saveHistory; [|exact Hall]. simpl.
    rewrite Forall_forall in *. intros x Hx.
    destruct (remember_In r x _ Hx) as [->|Hin].
    + apply (engine_result_shape clock URL request_ok options events w r Hrun
               Hp).
    + apply Hall, Hin.
Qed.

Lemma tree_view_shows_recorded_results_witness :
  (exists items : list TreeItem,
     getChildren demo_URL (fun _ _ => "0"%string) (fun _ => "now"%string)
       [demo_result] = Some items /\
     map result items = [demo_result]) /\
  Forall (renderable demo_URL)
    (benchmarkHistory
       (fst (executeBenchmark true "Invalid URL" demo_options
               (Fulfilled demo_result) (activate None)))).
Proof.
  destruct (tree_view_shows_recorded_results demo_URL demo_request_ok
              (fun _ _ => "0"%string) (fun _ => "now"%string))
    as (Htree & Hkeep).
  assert (Hr : Forall (renderable demo_URL)
                 (benchmarkHistory
                    (fst (executeBenchmark true "Invalid URL" demo_options
                            (Fulfilled demo_result) (activate None))))).
  { apply (Hkeep demo_clock true "Invalid URL"%string demo_options demo_events
             (activate None)
             (fst (executeBenchmark true "Invalid URL" demo_options
                     (Fulfilled demo_result) (activate None)))
             (ResultsView demo_result)); [|constructor].
    unfold command. rewrite demo_run. reflexivity. }
  split; [apply (proj1 (Htree [demo_result])); exact Hr | exact Hr].
Defined.

Section Picks.

Variable toFixed : nat -> number -> string.
Variable toLocaleString : Z -> string.






End Picks.





(** X18.  Every record the engine produces has its three percentiles,
    whatever the clock does.  So [executeBenchmark] shows the results
    page of every fulfilled run, and a history whose entries all have
    their percentiles is still one after any benchmark has been
    recorded: the pages of [showHistory] and [compareResults] can be
    built for every entry the extension itself stored. *)
Theorem recorded_results_can_be_charted
    (URL : string -> option URLRecord.t)
    (request_ok : bool -> RequestOptions.t -> bool)
    (clock : nat -> Z) (saveHistory : bool) (message : string)
    (options : BenchmarkOptions.t) (events : list Event)
    (ext ext' : Extension) (view : View) :
  command URL request_ok clock saveHistory message (Launched options) events
    ext
  = Some (ext', view) ->
  (forall (w : World) (r : BenchmarkResult.t),
     benchmark clock URL request_ok options events = Some w ->
     promise w = Fulfilled r ->
     charted r /\ view = ResultsView r) /\
  (Forall charted (benchmarkHistory ext) ->
   Forall charted (benchmarkHistory ext')).
Proof.
  intros Hc. unfold command in Hc.
  destruct (benchmark clock URL request_ok options events) as [w|] eqn:Hrun;
    [|discriminate].
  injection Hc as Hc.
  assert (Hext : ext' = fst (executeBenchmark saveHistory message options
                               (promise w) ext))
    by (rewrite Hc; reflexivity).
  assert (Hview : view = snd (executeBenchmark saveHistory message options
                                (promise w) ext))
    by (rewrite Hc; reflexivity).
  rewrite Hext, Hview. clear Hc Hext Hview. split.
  - intros w0 r Hw0 Hr. inversion Hw0; subst w0. rewrite Hr. simpl.
    destruct (engine_result_shape clock URL request_ok options events w r Hrun
                Hr) as (_ & Hch).
    split; [exact Hch|].
    destruct (getResultsHtml_spec r) as [(_ & ->)|(Hn & _)];
      [reflexivity | contradiction].
  - intros Hall.
    destruct (promise w) as [|r|] eqn:Hp; simpl; try exact Hall.
    destruct saveHistory; [|exact Hall]. simpl.
    rewrite Forall_forall in *. intros x Hx.
    destruct (remember_In r x _ Hx) as [->|Hin].
    + apply (engine_result_shape clock URL request_ok options events w r Hrun
               Hp).
    + apply Hall, Hin.
Qed.

Lemma recorded_results_can_be_charted_witness :
  (charted demo_result /\ ResultsView demo_result = ResultsView demo_result) /\
  Forall charted
    (benchmarkHistory
       (fst (executeBenchmark true "Invalid URL" demo_options
               (Fulfilled demo_result) (activate None)))).
Proof.
  destruct (recorded_results_can_be_charted demo_URL demo_request_ok demo_clock
              true "Invalid URL"%string demo_options demo_events
              (activate None)
              (fst (executeBenchmark true "Invalid URL" demo_options
                      (Fulfilled demo_result) (activate None)))
              (ResultsView demo_result))
    as (Hview & Hkeep).
  { unfold command. rewrite demo_run. reflexivity. }
  split.
  - apply (Hview demo_world demo_result demo_run demo_fulfilled).
  - apply Hkeep. constructor.
Defined.

(** ** Quantities of the results page *)






(** ** The finalizer *)

(** X17.  The record [finalize] builds does not depend on the order in
    which the responses arrived: two states with the same counters, the
    same clock reads ahead and the same latencies in any order get the
    same record.  A second call of [finalize], as the start-up loop
    makes when the deadline has passed at once, changes neither the
    settled promise nor the sorted latency array. *)
Theorem finalize_ignores_arrival_order
    (clock : nat -> Z) (options : BenchmarkOptions.t) (startTime : Z) :
  (forall w w' : World,
     Permutation (latencies w) (latencies w') ->
     successCount w = successCount w' ->
     failCount w = failCount w' ->
     clock_reads w = clock_reads w' ->
     promise w = Pending -> promise w' = Pending ->
     promise (exec (finalize clock options startTime) w)
     = promise (exec (finalize clock options startTime) w') /\
     latencies (exec (finalize clock options startTime) w)
     = latencies (exec (finalize clock options startTime) w')) /\
  (forall w : World,
     let once := exec (finalize clock options startTime) w in
     let twice := exec (finalize clock options startTime) once in
     promise w <> Rejected ->
     promise twice = promise once /\
     latencies twice = latencies once /\
     exists r, promise once = Fulfilled r).
Proof.
  split.
  - intros w w' Hperm Hs Hf Hr Hp Hp'.
    rewrite !finalize_exec. cbv zeta. rewrite Hp, Hp'. simpl.
    unfold result_at.
    rewrite (sort_permutation _ _ Hperm), Hs, Hf, Hr.
    split; reflexivity.
  - intros w. cbv zeta. intros Hrej.
    rewrite (finalize_exec clock options startTime
               (exec (finalize clock options startTime) w)).
    rewrite (finalize_exec clock options startTime w). cbv zeta.
    destruct (promise w) as [|r|] eqn:Ep; [| |congruence]; simpl.
    + rewrite sort_sorted_id by apply sort_sorted.
      split; [reflexivity|]. split; [reflexivity|].
      eexists. reflexivity.
    + rewrite ?Ep. simpl. rewrite ?Ep.
      rewrite sort_sorted_id by apply sort_sorted.
      split; [reflexivity|]. split; [reflexivity|].
      exists r. reflexivity.
Qed.

Lemma finalize_ignores_arrival_order_witness :
  promise (exec (finalize demo_clock demo_options 1000)
             (with_latencies (fun _ => [30; 10; 20]) initial))
  = promise (exec (finalize demo_clock demo_options 1000)
               (with_latencies (fun _ => [10; 20; 30]) initial)) /\
  latencies (exec (finalize demo_clock demo_options 1000)
               (exec (finalize demo_clock demo_options 1000)
                  (with_latencies (fun _ => [30; 10; 20]) initial)))
  = latencies (exec (finalize demo_clock demo_options 1000)
                 (with_latencies (fun _ => [30; 10; 20]) initial)).
Proof.
  destruct (finalize_ignores_arrival_order demo_clock demo_options 1000)
    as (Horder & Htwice).
  split.
  - apply Horder; try reflexivity.
    simpl. apply Permutation_sym.
    apply (perm_trans (l' := [10; 30; 20])).
    + apply perm_skip, perm_swap.
    + apply perm_swap.
  - destruct (Htwice (with_latencies (fun _ => [30; 10; 20]) initial))
      as (_ & Hl & _); [discriminate | exact Hl].
Defined.

(** ** Runs that never settle *)


